(** * The proxy control plane of proxy.c, embedded in Rocq

    The development follows src/proxy.c function by function.  The
    linked lists of the C code (the global [proxy] list chained by
    [next], the [srv] list of a proxy, its [listen] list and its
    [switching_rules]) are Rocq lists in the same order; a C pointer to
    a proxy, a server or a task is the address of that object, and NULL
    is [None].  Calls into the collaborators whose work lies outside
    proxy.c (logging, the task scheduler, the health checks, the memory
    allocator's [free]) are appended to a chronological trace.

    The struct declarations live in headers that are not part of the
    sources at hand, so integer fields are plain [Z] and the counters
    are taken within their range; bit masks use [Z.land] and [Z.lor]. *)

From Stdlib Require Import ZArith List String Ascii Bool Lia.
Import ListNotations.
Local Open Scope string_scope.
Local Open Scope list_scope.
Local Open Scope Z_scope.

(** ** libc helpers used by proxy.c *)

Definition isspace (c : ascii) : bool :=
  let n := N_of_ascii c in
  (N.eqb n 32 || (N.leb 9 n && N.leb n 13))%bool.

Definition isdigit (c : ascii) : bool :=
  let n := N_of_ascii c in (N.leb 48 n && N.leb n 57)%bool.

Definition digit_val (c : ascii) : Z := Z.of_N (N_of_ascii c) - 48.

Fixpoint skip_space (s : string) : string :=
  match s with
  | String c r => if isspace c then skip_space r else s
  | EmptyString => s
  end.

Fixpoint read_digits (acc : Z) (s : string) : Z :=
  match s with
  | String c r => if isdigit c then read_digits (10 * acc + digit_val c) r else acc
  | EmptyString => acc
  end.

(** The conversion to [int], a 32-bit two's complement integer: of an
    [unsigned], or of a [long]. *)
Definition to_int (u : Z) : Z :=
  let m := u mod 2 ^ 32 in
  if m <? 2 ^ 31 then m else m - 2 ^ 32.

(** [strtol(s, NULL, 10)] with a 64-bit [long]: leading white space, an
    optional sign, then the longest run of decimal digits, 0 when there
    is none; a value outside the range of [long] is replaced by
    [LONG_MIN] or [LONG_MAX]. *)
Definition strtol (s : string) : Z :=
  let v := match skip_space s with
           | String "-"%char r => - read_digits 0 r
           | String "+"%char r => read_digits 0 r
           | r => read_digits 0 r
           end in
  Z.max (- 2 ^ 63) (Z.min v (2 ^ 63 - 1)).

(** [atoi], as the C library has it: [(int) strtol(s, NULL, 10)].  The
    result is an [int]: "4294967297" reads as 1 and "4294967296" as 0. *)
Definition atoi (s : string) : Z := to_int (strtol s).

(** [strcmp(a, b) == 0] *)
Definition streq (a b : string) : bool := String.eqb a b.

(** [*s == '#'] *)
Definition starts_with_hash (s : string) : bool :=
  match s with
  | String "#"%char _ => true
  | _ => false
  end.

(** [s + 1] for a non-empty string *)
Definition str_tail (s : string) : string :=
  match s with
  | String _ r => r
  | EmptyString => EmptyString
  end.

(** ** Data model *)

(** Addresses of heap objects; a pointer is an [option address]. *)
Definition address := positive.

Bind Scope positive_scope with address.

Definition addr_eqb (a b : address) : bool := Pos.eqb a b.

(** [p == q] on two pointers *)
Definition ptr_eqb (p q : option address) : bool :=
  match p, q with
  | Some a, Some b => addr_eqb a b
  | None, None => true
  | _, _ => false
  end.

Inductive pr_state : Type :=
| PR_STNEW | PR_STIDLE | PR_STRUN | PR_STSTOPPED | PR_STPAUSED | PR_STERROR.

Definition pr_state_eqb (a b : pr_state) : bool :=
  match a, b with
  | PR_STNEW, PR_STNEW | PR_STIDLE, PR_STIDLE | PR_STRUN, PR_STRUN
  | PR_STSTOPPED, PR_STSTOPPED | PR_STPAUSED, PR_STPAUSED
  | PR_STERROR, PR_STERROR => true
  | _, _ => false
  end.

Inductive pr_mode : Type := PR_MODE_TCP | PR_MODE_HTTP | PR_MODE_HEALTH.

(** Modelled from the spec: the listener handle ("an opaque handle over
    a bound socket"); its struct is declared outside proxy.c, which only
    reads [fd] and [state] and walks [next]. *)
Record listener : Type := {
  li_fd : Z;
  li_state : Z
}.

(** Modelled from the spec: the rolling session counter behind
    [fe_sess_per_sec]; proxy.c only passes it to [next_event_delay]. *)
Record freq_ctr : Type := {
  curr_sec : Z;
  curr_ctr : Z;
  prev_ctr : Z
}.

Record sockaddr_in : Type := {
  sin_addr : Z;
  sin_port : Z          (* network byte order *)
}.

(** [struct server], the fields proxy.c touches. *)
Record server : Type := {
  sv_addr : address;                    (* the address of the struct itself *)
  sv_id : string;
  sv_puid : Z;
  sv_proxy : option address;
  sv_state : Z;
  sv_prev_state : Z;
  sv_last_change : Z;
  sv_sockaddr : sockaddr_in;         (* [addr] *)
  sv_cookie : string;
  sv_cklen : Z;
  sv_check_port : Z;
  sv_inter : Z;
  sv_fastinter : Z;
  sv_downinter : Z;
  sv_rise : Z;
  sv_fall : Z;
  sv_maxqueue : Z;
  sv_minconn : Z;
  sv_maxconn : Z;
  sv_slowstart : Z;
  sv_onerror : Z;
  sv_consecutive_errors_limit : Z;
  sv_uweight : Z;
  sv_iweight : Z;
  sv_eweight : Z;
  sv_prev_eweight : Z;
  sv_curfd : Z;
  sv_health : Z;
  sv_check_status : Z;
  sv_check : option address;            (* the check task *)
  sv_check_start : Z * Z;            (* a [struct timeval] *)
  sv_check_data : option address
}.

Record switching_rule : Type := {
  sr_backend : option address           (* [be.backend] *)
}.

Record timeouts : Type := {
  to_client : Z;
  to_tarpit : Z;
  to_queue : Z;
  to_connect : Z;
  to_server : Z;
  to_httpreq : Z;
  to_httpka : Z;
  to_check : Z
}.

(** [struct proxy], the fields proxy.c touches. *)
Record proxy : Type := {
  px_addr : address;                    (* the address of the struct itself *)
  px_id : string;
  px_uuid : Z;
  px_cap : Z;
  px_mode : pr_mode;
  px_state : pr_state;
  px_maxconn : Z;
  px_fullconn : Z;
  px_backlog : Z;
  px_conn_retries : Z;
  px_feconn : Z;
  px_beconn : Z;
  px_beconn_max : Z;                 (* [counters.beconn_max] *)
  px_cum_feconn : Z;
  px_cum_beconn : Z;
  px_fe_sps_lim : Z;
  px_fe_sess_per_sec : freq_ctr;
  px_listen : list listener;
  px_srv : list server;
  px_switching_rules : list switching_rule;
  px_defbe : option address;            (* [defbe.be] *)
  px_defsrv : server;
  px_timeout : timeouts;
  px_stop_time : Z;
  px_grace : Z;
  px_last_change : Z;
  px_options : Z;
  px_options2 : Z;
  px_acl_requires : Z;
  px_be_req_ana : Z;
  px_be_rsp_ana : Z;
  px_hdr_idx_pool : option address;
  px_logfac1 : Z;
  px_logfac2 : Z;
  px_cookie_name : option string;
  px_cookie_len : Z;
  px_cookie_domain : option string;
  px_cookie_maxidle : Z;
  px_cookie_maxlife : Z;
  px_lbprm_algo : Z;
  px_lbprm_wmult : Z;
  px_lbprm_wdiv : Z
}.

(** The routine a task runs; proxy.c only ever installs [process_chk]. *)
Inductive task_proc : Type := process_chk.

Record task : Type := {
  t_addr : address;
  t_process : option task_proc;
  t_context : option address;
  t_expire : Z
}.

(** An argument of a printf-like call. *)
Inductive fmt_arg : Type :=
| Str (s : string)
| Chr (c : ascii)
| Num (n : Z).

(** Calls that leave proxy.c, in the order they are made. *)
Inductive event : Type :=
| Alert (fmt : string) (args : list fmt_arg)
| Warning (fmt : string) (args : list fmt_arg)
| send_log (px : option address) (fmt : string) (args : list fmt_arg)
| task_queue (t : task)
| task_delete (t : option address)
| task_free (t : option address)
| set_server_up (s : server)
| set_server_down (s : server)
| free (a : address)
| init_server_map (px : address)
| fwrr_init_server_groups (px : address)
| fwlc_init_server_tree (px : address)
| chash_init_server_tree (px : address)
| stktable_init (px : address)
| pool_gc2.

(** A node of the tree [used_proxy_id]: the tree links the member
    [conf.id] of a proxy struct, so a node is known by the proxy struct
    it lies in and by its key.  A node stays in the tree when its
    struct is freed; what the program then reads through it is
    undefined, and nothing is stated about the keys of such a tree. *)
Record id_node : Type := {
  node_of : address;                 (* the proxy whose [conf.id] it is *)
  node_key : Z
}.

(** The globals of the process that proxy.c reads or writes. *)
Record world : Type := {
  proxies : list proxy;              (* [struct proxy *proxy] *)
  listeners : Z;
  used_proxy_id : list id_node;      (* the nodes linked in the tree *)
  actconn : Z;
  global_maxconn : Z;
  stopping : Z;
  now_ms : Z;
  now_tv_sec : Z;
  now_tv_usec : Z;
  trace : list event
}.

(** [struct session], the fields [session_set_backend] touches;
    [sn_listener_analysers] is [s->listener->analysers]. *)
Record session : Type := {
  sn_flags : Z;
  sn_fe : option address;
  sn_be : option address;
  sn_rep_rto : Z;
  sn_req_wto : Z;
  sn_req_cto : Z;
  sn_req_analysers : Z;
  sn_conn_retries : Z;
  sn_si1_flags : Z;
  sn_txn_rsp_err_pos : Z;
  sn_hdr_idx_v : option address;
  sn_hdr_idx_size : Z;
  sn_listener_analysers : Z
}.

(** ** Field updates *)

Definition set_px_state (v : pr_state) (p : proxy) : proxy :=
  {| px_addr := px_addr p; px_id := px_id p; px_uuid := px_uuid p;
     px_cap := px_cap p; px_mode := px_mode p; px_state := v;
     px_maxconn := px_maxconn p; px_fullconn := px_fullconn p;
     px_backlog := px_backlog p; px_conn_retries := px_conn_retries p;
     px_feconn := px_feconn p; px_beconn := px_beconn p;
     px_beconn_max := px_beconn_max p; px_cum_feconn := px_cum_feconn p;
     px_cum_beconn := px_cum_beconn p; px_fe_sps_lim := px_fe_sps_lim p;
     px_fe_sess_per_sec := px_fe_sess_per_sec p; px_listen := px_listen p;
     px_srv := px_srv p; px_switching_rules := px_switching_rules p;
     px_defbe := px_defbe p; px_defsrv := px_defsrv p;
     px_timeout := px_timeout p; px_stop_time := px_stop_time p;
     px_grace := px_grace p; px_last_change := px_last_change p;
     px_options := px_options p; px_options2 := px_options2 p;
     px_acl_requires := px_acl_requires p; px_be_req_ana := px_be_req_ana p;
     px_be_rsp_ana := px_be_rsp_ana p; px_hdr_idx_pool := px_hdr_idx_pool p;
     px_logfac1 := px_logfac1 p; px_logfac2 := px_logfac2 p;
     px_cookie_name := px_cookie_name p; px_cookie_len := px_cookie_len p;
     px_cookie_domain := px_cookie_domain p;
     px_cookie_maxidle := px_cookie_maxidle p;
     px_cookie_maxlife := px_cookie_maxlife p;
     px_lbprm_algo := px_lbprm_algo p; px_lbprm_wmult := px_lbprm_wmult p;
     px_lbprm_wdiv := px_lbprm_wdiv p |}.

Definition set_px_listen (v : list listener) (p : proxy) : proxy :=
  {| px_addr := px_addr p; px_id := px_id p; px_uuid := px_uuid p;
     px_cap := px_cap p; px_mode := px_mode p; px_state := px_state p;
     px_maxconn := px_maxconn p; px_fullconn := px_fullconn p;
     px_backlog := px_backlog p; px_conn_retries := px_conn_retries p;
     px_feconn := px_feconn p; px_beconn := px_beconn p;
     px_beconn_max := px_beconn_max p; px_cum_feconn := px_cum_feconn p;
     px_cum_beconn := px_cum_beconn p; px_fe_sps_lim := px_fe_sps_lim p;
     px_fe_sess_per_sec := px_fe_sess_per_sec p; px_listen := v;
     px_srv := px_srv p; px_switching_rules := px_switching_rules p;
     px_defbe := px_defbe p; px_defsrv := px_defsrv p;
     px_timeout := px_timeout p; px_stop_time := px_stop_time p;
     px_grace := px_grace p; px_last_change := px_last_change p;
     px_options := px_options p; px_options2 := px_options2 p;
     px_acl_requires := px_acl_requires p; px_be_req_ana := px_be_req_ana p;
     px_be_rsp_ana := px_be_rsp_ana p; px_hdr_idx_pool := px_hdr_idx_pool p;
     px_logfac1 := px_logfac1 p; px_logfac2 := px_logfac2 p;
     px_cookie_name := px_cookie_name p; px_cookie_len := px_cookie_len p;
     px_cookie_domain := px_cookie_domain p;
     px_cookie_maxidle := px_cookie_maxidle p;
     px_cookie_maxlife := px_cookie_maxlife p;
     px_lbprm_algo := px_lbprm_algo p; px_lbprm_wmult := px_lbprm_wmult p;
     px_lbprm_wdiv := px_lbprm_wdiv p |}.

Definition set_px_srv (v : list server) (p : proxy) : proxy :=
  {| px_addr := px_addr p; px_id := px_id p; px_uuid := px_uuid p;
     px_cap := px_cap p; px_mode := px_mode p; px_state := px_state p;
     px_maxconn := px_maxconn p; px_fullconn := px_fullconn p;
     px_backlog := px_backlog p; px_conn_retries := px_conn_retries p;
     px_feconn := px_feconn p; px_beconn := px_beconn p;
     px_beconn_max := px_beconn_max p; px_cum_feconn := px_cum_feconn p;
     px_cum_beconn := px_cum_beconn p; px_fe_sps_lim := px_fe_sps_lim p;
     px_fe_sess_per_sec := px_fe_sess_per_sec p; px_listen := px_listen p;
     px_srv := v; px_switching_rules := px_switching_rules p;
     px_defbe := px_defbe p; px_defsrv := px_defsrv p;
     px_timeout := px_timeout p; px_stop_time := px_stop_time p;
     px_grace := px_grace p; px_last_change := px_last_change p;
     px_options := px_options p; px_options2 := px_options2 p;
     px_acl_requires := px_acl_requires p; px_be_req_ana := px_be_req_ana p;
     px_be_rsp_ana := px_be_rsp_ana p; px_hdr_idx_pool := px_hdr_idx_pool p;
     px_logfac1 := px_logfac1 p; px_logfac2 := px_logfac2 p;
     px_cookie_name := px_cookie_name p; px_cookie_len := px_cookie_len p;
     px_cookie_domain := px_cookie_domain p;
     px_cookie_maxidle := px_cookie_maxidle p;
     px_cookie_maxlife := px_cookie_maxlife p;
     px_lbprm_algo := px_lbprm_algo p; px_lbprm_wmult := px_lbprm_wmult p;
     px_lbprm_wdiv := px_lbprm_wdiv p |}.

Definition set_px_beconn (v : Z) (p : proxy) : proxy :=
  {| px_addr := px_addr p; px_id := px_id p; px_uuid := px_uuid p;
     px_cap := px_cap p; px_mode := px_mode p; px_state := px_state p;
     px_maxconn := px_maxconn p; px_fullconn := px_fullconn p;
     px_backlog := px_backlog p; px_conn_retries := px_conn_retries p;
     px_feconn := px_feconn p; px_beconn := v;
     px_beconn_max := px_beconn_max p; px_cum_feconn := px_cum_feconn p;
     px_cum_beconn := px_cum_beconn p; px_fe_sps_lim := px_fe_sps_lim p;
     px_fe_sess_per_sec := px_fe_sess_per_sec p; px_listen := px_listen p;
     px_srv := px_srv p; px_switching_rules := px_switching_rules p;
     px_defbe := px_defbe p; px_defsrv := px_defsrv p;
     px_timeout := px_timeout p; px_stop_time := px_stop_time p;
     px_grace := px_grace p; px_last_change := px_last_change p;
     px_options := px_options p; px_options2 := px_options2 p;
     px_acl_requires := px_acl_requires p; px_be_req_ana := px_be_req_ana p;
     px_be_rsp_ana := px_be_rsp_ana p; px_hdr_idx_pool := px_hdr_idx_pool p;
     px_logfac1 := px_logfac1 p; px_logfac2 := px_logfac2 p;
     px_cookie_name := px_cookie_name p; px_cookie_len := px_cookie_len p;
     px_cookie_domain := px_cookie_domain p;
     px_cookie_maxidle := px_cookie_maxidle p;
     px_cookie_maxlife := px_cookie_maxlife p;
     px_lbprm_algo := px_lbprm_algo p; px_lbprm_wmult := px_lbprm_wmult p;
     px_lbprm_wdiv := px_lbprm_wdiv p |}.

Definition set_px_beconn_max (v : Z) (p : proxy) : proxy :=
  {| px_addr := px_addr p; px_id := px_id p; px_uuid := px_uuid p;
     px_cap := px_cap p; px_mode := px_mode p; px_state := px_state p;
     px_maxconn := px_maxconn p; px_fullconn := px_fullconn p;
     px_backlog := px_backlog p; px_conn_retries := px_conn_retries p;
     px_feconn := px_feconn p; px_beconn := px_beconn p; px_beconn_max := v;
     px_cum_feconn := px_cum_feconn p; px_cum_beconn := px_cum_beconn p;
     px_fe_sps_lim := px_fe_sps_lim p;
     px_fe_sess_per_sec := px_fe_sess_per_sec p; px_listen := px_listen p;
     px_srv := px_srv p; px_switching_rules := px_switching_rules p;
     px_defbe := px_defbe p; px_defsrv := px_defsrv p;
     px_timeout := px_timeout p; px_stop_time := px_stop_time p;
     px_grace := px_grace p; px_last_change := px_last_change p;
     px_options := px_options p; px_options2 := px_options2 p;
     px_acl_requires := px_acl_requires p; px_be_req_ana := px_be_req_ana p;
     px_be_rsp_ana := px_be_rsp_ana p; px_hdr_idx_pool := px_hdr_idx_pool p;
     px_logfac1 := px_logfac1 p; px_logfac2 := px_logfac2 p;
     px_cookie_name := px_cookie_name p; px_cookie_len := px_cookie_len p;
     px_cookie_domain := px_cookie_domain p;
     px_cookie_maxidle := px_cookie_maxidle p;
     px_cookie_maxlife := px_cookie_maxlife p;
     px_lbprm_algo := px_lbprm_algo p; px_lbprm_wmult := px_lbprm_wmult p;
     px_lbprm_wdiv := px_lbprm_wdiv p |}.

Definition set_px_cum_beconn (v : Z) (p : proxy) : proxy :=
  {| px_addr := px_addr p; px_id := px_id p; px_uuid := px_uuid p;
     px_cap := px_cap p; px_mode := px_mode p; px_state := px_state p;
     px_maxconn := px_maxconn p; px_fullconn := px_fullconn p;
     px_backlog := px_backlog p; px_conn_retries := px_conn_retries p;
     px_feconn := px_feconn p; px_beconn := px_beconn p;
     px_beconn_max := px_beconn_max p; px_cum_feconn := px_cum_feconn p;
     px_cum_beconn := v; px_fe_sps_lim := px_fe_sps_lim p;
     px_fe_sess_per_sec := px_fe_sess_per_sec p; px_listen := px_listen p;
     px_srv := px_srv p; px_switching_rules := px_switching_rules p;
     px_defbe := px_defbe p; px_defsrv := px_defsrv p;
     px_timeout := px_timeout p; px_stop_time := px_stop_time p;
     px_grace := px_grace p; px_last_change := px_last_change p;
     px_options := px_options p; px_options2 := px_options2 p;
     px_acl_requires := px_acl_requires p; px_be_req_ana := px_be_req_ana p;
     px_be_rsp_ana := px_be_rsp_ana p; px_hdr_idx_pool := px_hdr_idx_pool p;
     px_logfac1 := px_logfac1 p; px_logfac2 := px_logfac2 p;
     px_cookie_name := px_cookie_name p; px_cookie_len := px_cookie_len p;
     px_cookie_domain := px_cookie_domain p;
     px_cookie_maxidle := px_cookie_maxidle p;
     px_cookie_maxlife := px_cookie_maxlife p;
     px_lbprm_algo := px_lbprm_algo p; px_lbprm_wmult := px_lbprm_wmult p;
     px_lbprm_wdiv := px_lbprm_wdiv p |}.

Definition set_px_timeout (v : timeouts) (p : proxy) : proxy :=
  {| px_addr := px_addr p; px_id := px_id p; px_uuid := px_uuid p;
     px_cap := px_cap p; px_mode := px_mode p; px_state := px_state p;
     px_maxconn := px_maxconn p; px_fullconn := px_fullconn p;
     px_backlog := px_backlog p; px_conn_retries := px_conn_retries p;
     px_feconn := px_feconn p; px_beconn := px_beconn p;
     px_beconn_max := px_beconn_max p; px_cum_feconn := px_cum_feconn p;
     px_cum_beconn := px_cum_beconn p; px_fe_sps_lim := px_fe_sps_lim p;
     px_fe_sess_per_sec := px_fe_sess_per_sec p; px_listen := px_listen p;
     px_srv := px_srv p; px_switching_rules := px_switching_rules p;
     px_defbe := px_defbe p; px_defsrv := px_defsrv p; px_timeout := v;
     px_stop_time := px_stop_time p; px_grace := px_grace p;
     px_last_change := px_last_change p; px_options := px_options p;
     px_options2 := px_options2 p; px_acl_requires := px_acl_requires p;
     px_be_req_ana := px_be_req_ana p; px_be_rsp_ana := px_be_rsp_ana p;
     px_hdr_idx_pool := px_hdr_idx_pool p; px_logfac1 := px_logfac1 p;
     px_logfac2 := px_logfac2 p; px_cookie_name := px_cookie_name p;
     px_cookie_len := px_cookie_len p;
     px_cookie_domain := px_cookie_domain p;
     px_cookie_maxidle := px_cookie_maxidle p;
     px_cookie_maxlife := px_cookie_maxlife p;
     px_lbprm_algo := px_lbprm_algo p; px_lbprm_wmult := px_lbprm_wmult p;
     px_lbprm_wdiv := px_lbprm_wdiv p |}.

Definition set_sv_state (v : Z) (s : server) : server :=
  {| sv_addr := sv_addr s; sv_id := sv_id s; sv_puid := sv_puid s;
     sv_proxy := sv_proxy s; sv_state := v; sv_prev_state := sv_prev_state s;
     sv_last_change := sv_last_change s; sv_sockaddr := sv_sockaddr s;
     sv_cookie := sv_cookie s; sv_cklen := sv_cklen s;
     sv_check_port := sv_check_port s; sv_inter := sv_inter s;
     sv_fastinter := sv_fastinter s; sv_downinter := sv_downinter s;
     sv_rise := sv_rise s; sv_fall := sv_fall s;
     sv_maxqueue := sv_maxqueue s; sv_minconn := sv_minconn s;
     sv_maxconn := sv_maxconn s; sv_slowstart := sv_slowstart s;
     sv_onerror := sv_onerror s;
     sv_consecutive_errors_limit := sv_consecutive_errors_limit s;
     sv_uweight := sv_uweight s; sv_iweight := sv_iweight s;
     sv_eweight := sv_eweight s; sv_prev_eweight := sv_prev_eweight s;
     sv_curfd := sv_curfd s; sv_health := sv_health s;
     sv_check_status := sv_check_status s; sv_check := sv_check s;
     sv_check_start := sv_check_start s; sv_check_data := sv_check_data s |}.

Definition set_proxies (v : list proxy) (w : world) : world :=
  {| proxies := v; listeners := listeners w;
     used_proxy_id := used_proxy_id w; actconn := actconn w;
     global_maxconn := global_maxconn w; stopping := stopping w;
     now_ms := now_ms w; now_tv_sec := now_tv_sec w;
     now_tv_usec := now_tv_usec w; trace := trace w |}.

Definition set_listeners (v : Z) (w : world) : world :=
  {| proxies := proxies w; listeners := v; used_proxy_id := used_proxy_id w;
     actconn := actconn w; global_maxconn := global_maxconn w;
     stopping := stopping w; now_ms := now_ms w; now_tv_sec := now_tv_sec w;
     now_tv_usec := now_tv_usec w; trace := trace w |}.

Definition set_trace (v : list event) (w : world) : world :=
  {| proxies := proxies w; listeners := listeners w;
     used_proxy_id := used_proxy_id w; actconn := actconn w;
     global_maxconn := global_maxconn w; stopping := stopping w;
     now_ms := now_ms w; now_tv_sec := now_tv_sec w;
     now_tv_usec := now_tv_usec w; trace := v |}.


(** Append a call to the trace. *)
Definition emit (e : event) (w : world) : world :=
  set_trace (trace w ++ [e]) w.

(** ** What proxy.c takes from its headers and collaborators

    Constants and macros come from headers, and the helper functions
    from other compilation units; none of them is defined in proxy.c,
    so the development is parametric in them. *)
Class Env : Type := {
  (* capabilities, types/proxy.h *)
  PR_CAP_FE : Z;
  PR_CAP_BE : Z;
  PR_CAP_RS : Z;
  PR_CAP_LISTEN : Z;
  (* server state bits and defaults *)
  SRV_MAINTAIN : Z;
  SRV_CHECKED : Z;
  HCHK_STATUS_INI : Z;
  BE_WEIGHT_SCALE : Z;
  DEF_CHKINTR : Z;
  DEF_RISETIME : Z;
  DEF_FALLTIME : Z;
  DEF_HANA_ONERR : Z;
  DEF_HANA_ERRLIMIT : Z;
  CONN_RETRIES : Z;
  cfg_maxpconn : Z;
  global_tune_chksize : Z;
  (* proxy options and load-balancing bits *)
  PR_O_COOK_ANY : Z;
  PR_O_COOK_INS : Z;
  PR_O_COOK_IND : Z;
  PR_O2_COOK_PSV : Z;
  PR_O2_INDEPSTR : Z;
  PR_O2_RSPBUG_OK : Z;
  PR_O2_RDPC_PRST : Z;
  BE_LB_ALGO_RR : Z;
  BE_LB_LKUP : Z;
  BE_LB_PROP_DYN : Z;
  BE_LB_KIND : Z;
  BE_LB_KIND_RR : Z;
  BE_LB_KIND_LC : Z;
  BE_LB_KIND_HI : Z;
  BE_LB_PARM : Z;
  BE_LB_RR_STATIC : Z;
  BE_LB_HASH_TYPE : Z;
  BE_LB_HASH_CONS : Z;
  BE_LB_LKUP_MAP : Z;
  BE_LB_LKUP_RRTREE : Z;
  BE_LB_LKUP_LCTREE : Z;
  BE_LB_LKUP_CHTREE : Z;
  (* analysers, sessions, listeners *)
  ACL_USE_L7_ANY : Z;
  AN_REQ_WAIT_HTTP : Z;
  AN_REQ_HTTP_INNER : Z;
  AN_REQ_HTTP_PROCESS_BE : Z;
  AN_REQ_PRST_RDP_COOKIE : Z;
  AN_RES_WAIT_HTTP : Z;
  AN_RES_HTTP_PROCESS_BE : Z;
  SN_BE_ASSIGNED : Z;
  SI_FL_INDEP_STR : Z;
  MAX_HTTP_HDR : Z;
  LI_ASSIGNED : Z;
  TIME_UNIT_MS : Z;
  (* macros and functions *)
  MS_TO_TICKS : Z -> Z;
  tick_add : Z -> Z -> Z;
  tick_first : Z -> Z -> Z;
  tick_remain : Z -> Z -> Z;
  next_event_delay : freq_ctr -> Z -> Z -> Z;
  (* the offending character, or the parsed unsigned value *)
  parse_time_err : string -> Z -> ascii + Z;
  invalid_char : string -> option ascii;
  str2sa : string -> option sockaddr_in;
  htons : Z -> Z;
  ntohs : Z -> Z;
  srv_getinter : server -> Z;
  get_next_id : list Z -> Z -> Z;
  init_new_proxy : proxy -> proxy;
  proxy_type_str : proxy -> string;
  enable_listener : listener -> listener;
  disable_listener : listener -> listener;
  unbind_listener : listener -> listener;
  delete_listener : listener -> listener
}.

(** ** The functions of proxy.c *)

Section Model.

Context `{Env}.

(** [x & mask], as a C condition *)
Definition has_bits (x mask : Z) : bool := negb (Z.land x mask =? 0).

Definition proxy_cap_str (cap : Z) : string :=
  if negb (Z.land cap PR_CAP_LISTEN =? PR_CAP_LISTEN) then
    if has_bits cap PR_CAP_FE then "frontend"
    else if has_bits cap PR_CAP_BE then "backend"
    else if has_bits cap PR_CAP_RS then "ruleset"
    else "proxy"
  else "proxy".

Definition proxy_mode_str (mode : pr_mode) : string :=
  match mode with
  | PR_MODE_TCP => "tcp"
  | PR_MODE_HTTP => "http"
  | PR_MODE_HEALTH => "health"
  end.

(** *** get_backend_server *)

(** [pid]/[sid]: 0, or [atoi(name + 1)] when the name starts with '#'. *)
Definition name_id (name : string) : Z :=
  if starts_with_hash name then atoi (str_tail name) else 0.

(** The condition of the first [for] loop. *)
Definition backend_matches (pid : Z) (bk_name : string) (p : proxy) : bool :=
  has_bits (px_cap p) PR_CAP_BE &&
  ((negb (pid =? 0) && (px_uuid p =? pid)) ||
   ((pid =? 0) && streq (px_id p) bk_name)).

Fixpoint scan_backend (pid : Z) (bk_name : string) (l : list proxy)
  : option proxy :=
  match l with
  | [] => None
  | p :: next =>
      if backend_matches pid bk_name p then Some p
      else scan_backend pid bk_name next
  end.

(** The condition of the second [for] loop. *)
Definition server_matches (sid : Z) (sv_name : string) (s : server) : bool :=
  (negb (sid =? 0) && (sv_puid s =? sid)) ||
  ((sid =? 0) && streq (sv_id s) sv_name).

Fixpoint scan_server (sid : Z) (sv_name : string) (l : list server)
  : option server :=
  match l with
  | [] => None
  | s :: next =>
      if server_matches sid sv_name s then Some s
      else scan_server sid sv_name next
  end.

(** An out-parameter [struct proxy **bk] or [struct server **sv]: [None]
    is a NULL pointer, [Some v] points to a variable that holds [v]. *)
Definition out_param := option (option address).

(** The stores made through the out-parameters, in program order. *)
Inductive store : Type :=
| store_sv (v : option address)
| store_bk (v : option address).

Record gbs_result : Type := {
  gbs_ret : Z;
  gbs_bk : out_param;                (* the backend variable afterwards *)
  gbs_sv : out_param;                (* the server variable afterwards *)
  gbs_stores : list store
}.

(** The result is [None] when the function dereferences a NULL [sv]. *)
Definition get_backend_server (w : world) (bk_name sv_name : string)
    (bk sv : out_param) : option gbs_result :=
  match sv with
  | None => None
  | Some _ =>
      let pid := name_id bk_name in
      let sid := name_id sv_name in
      let p := scan_backend pid bk_name (proxies w) in
      let pa := option_map px_addr p in
      let bk1 := match bk with Some _ => Some pa | None => None end in
      let st1 := store_sv None ::
                 match bk with Some _ => [store_bk pa] | None => [] end in
      match p with
      | None =>
          Some {| gbs_ret := 0; gbs_bk := bk1; gbs_sv := Some None;
                  gbs_stores := st1 |}
      | Some p =>
          let s := scan_server sid sv_name (px_srv p) in
          let sa := option_map sv_addr s in
          Some {| gbs_ret := match s with Some _ => 1 | None => 0 end;
                  gbs_bk := bk1; gbs_sv := Some sa;
                  gbs_stores := st1 ++ [store_sv sa] |}
      end
  end.

(** *** proxy_parse_timeout *)

Inductive timeout_field : Type :=
| tf_client | tf_tarpit | tf_httpka | tf_httpreq
| tf_server | tf_connect | tf_check | tf_queue.

Definition get_timeout (f : timeout_field) (t : timeouts) : Z :=
  match f with
  | tf_client => to_client t
  | tf_tarpit => to_tarpit t
  | tf_httpka => to_httpka t
  | tf_httpreq => to_httpreq t
  | tf_server => to_server t
  | tf_connect => to_connect t
  | tf_check => to_check t
  | tf_queue => to_queue t
  end.

Definition set_timeout (f : timeout_field) (v : Z) (t : timeouts) : timeouts :=
  {| to_client := match f with tf_client => v | _ => to_client t end;
     to_tarpit := match f with tf_tarpit => v | _ => to_tarpit t end;
     to_queue := match f with tf_queue => v | _ => to_queue t end;
     to_connect := match f with tf_connect => v | _ => to_connect t end;
     to_server := match f with tf_server => v | _ => to_server t end;
     to_httpreq := match f with tf_httpreq => v | _ => to_httpreq t end;
     to_httpka := match f with tf_httpka => v | _ => to_httpka t end;
     to_check := match f with tf_check => v | _ => to_check t end |}.

(** [args[n]]; the word vector is padded with empty strings. *)
Definition arg (n : nat) (args : list string) : string := nth n args EmptyString.

(** The chain of [strcmp]s on [args[0]]: the name used in messages, the
    field behind [tv] and [td], and the capability mask. *)
Definition timeout_keyword (a0 : string) : option (string * timeout_field * Z) :=
  if streq a0 "client" || streq a0 "clitimeout" then
    Some ("client", tf_client, PR_CAP_FE)
  else if streq a0 "tarpit" then
    Some (a0, tf_tarpit, Z.lor PR_CAP_FE PR_CAP_BE)
  else if streq a0 "http-keep-alive" then
    Some (a0, tf_httpka, Z.lor PR_CAP_FE PR_CAP_BE)
  else if streq a0 "http-request" then
    Some (a0, tf_httpreq, Z.lor PR_CAP_FE PR_CAP_BE)
  else if streq a0 "server" || streq a0 "srvtimeout" then
    Some ("server", tf_server, PR_CAP_BE)
  else if streq a0 "connect" || streq a0 "contimeout" then
    Some ("connect", tf_connect, PR_CAP_BE)
  else if streq a0 "check" then
    Some (a0, tf_check, PR_CAP_BE)
  else if streq a0 "queue" then
    Some (a0, tf_queue, PR_CAP_BE)
  else None.

(** What [snprintf] leaves in [err]: the format and its arguments. *)
Definition message := (string * list fmt_arg)%type.

Record parse_result : Type := {
  pr_ret : Z;
  pr_proxy : proxy;                  (* [*proxy] afterwards *)
  pr_err : option message
}.

Definition proxy_parse_timeout (args : list string) (section : Z)
    (px : proxy) (defpx : option proxy) : parse_result :=
  let args := if streq (arg 0 args) "timeout" then tl args else args in
  match timeout_keyword (arg 0 args) with
  | None =>
      {| pr_ret := -1; pr_proxy := px;
         pr_err := Some ("timeout '%s': must be 'client', 'server', 'connect', 'check', 'queue', 'http-keep-alive', 'http-request' or 'tarpit'",
                         [Str (arg 0 args)]) |}
  | Some (name, f, cap) =>
      if streq (arg 1 args) EmptyString then
        {| pr_ret := -1; pr_proxy := px;
           pr_err := Some ("%s timeout expects an integer value (in milliseconds)",
                           [Str name]) |}
      else
        match parse_time_err (arg 1 args) TIME_UNIT_MS with
        | inl c =>
            {| pr_ret := -1; pr_proxy := px;
               pr_err := Some ("unexpected character '%c' in %s timeout",
                               [Chr c; Str name]) |}
        | inr timeout =>
            let stored :=
              set_px_timeout
                (set_timeout f (to_int (MS_TO_TICKS timeout)) (px_timeout px))
                px in
            if negb (has_bits (px_cap px) cap) then
              {| pr_ret := 1; pr_proxy := stored;
                 pr_err := Some ("%s timeout will be ignored because %s '%s' has no %s capability",
                                 [Str name; Str (proxy_type_str px);
                                  Str (px_id px);
                                  Str (if has_bits cap PR_CAP_BE then "backend"
                                       else "frontend")]) |}
            else
              match defpx with
              | Some d =>
                  if negb (get_timeout f (px_timeout px) =?
                           get_timeout f (px_timeout d)) then
                    {| pr_ret := 1; pr_proxy := stored;
                       pr_err := Some ("overwriting %s timeout which was already specified",
                                       [Str name]) |}
                  else {| pr_ret := 0; pr_proxy := stored; pr_err := None |}
              | None => {| pr_ret := 0; pr_proxy := stored; pr_err := None |}
              end
        end
  end.

(** *** findproxy, findserver *)

Fixpoint findproxy_loop (target : option proxy) (name : string) (cap : Z)
    (l : list proxy) : option proxy :=
  match l with
  | [] => target
  | curproxy :: next =>
      if negb (Z.land (px_cap curproxy) cap =? cap)
         || negb (streq (px_id curproxy) name)
      then findproxy_loop target name cap next
      else
        match target with
        | None => findproxy_loop (Some curproxy) name cap next
        | Some _ => None
        end
  end.

Definition findproxy (name : string) (cap : Z) (w : world) : option proxy :=
  findproxy_loop None name cap (proxies w).

(** The loop of [findserver]; the second component is the alert raised
    on a duplicate. *)
Fixpoint findserver_loop (px : proxy) (target : option server) (name : string)
    (l : list server) : option server * list event :=
  match l with
  | [] => (target, [])
  | cursrv :: next =>
      if negb (streq (sv_id cursrv) name) then findserver_loop px target name next
      else
        match target with
        | None => findserver_loop px (Some cursrv) name next
        | Some _ =>
            (None,
             [Alert "Refusing to use duplicated server '%s' fould in proxy: %s!\n"
                    [Str name; Str (px_id px)]])
        end
  end.

Definition findserver (px : option proxy) (name : string)
  : option server * list event :=
  match px with
  | None => (None, [])
  | Some p => findserver_loop p None name (px_srv p)
  end.

(** *** addserver, delserver *)

Definition emit_all (evs : list event) (w : world) : world :=
  set_trace (trace w ++ evs) w.

(** [px->field = ...] for the proxy at address [a]. *)
Definition update_proxy (a : address) (f : proxy -> proxy) (l : list proxy)
  : list proxy :=
  map (fun p => if addr_eqb (px_addr p) a then f p else p) l.

(** The proxy a pointer designates. *)
Definition proxy_at (a : address) (w : world) : option proxy :=
  find (fun p => addr_eqb (px_addr p) a) (proxies w).

(** What the allocator answers to the three requests of [addserver]:
    [calloc] for the server, [calloc] for the check buffer, [task_new]. *)
Record addserver_mem : Type := {
  mem_server : option address;
  mem_check_data : option address;
  mem_task : option address
}.

(** The server as [addserver] has filled it when it calls
    [srv_getinter], [task_queue] and [set_server_up]; the fields it does
    not assign keep the zero of [calloc]. *)
Definition new_server (a cd t : address) (px : proxy) (sk : sockaddr_in)
    (svid cookie : string) (w : world) : server :=
  let port := if sin_port sk =? 0 then htons 80 else sin_port sk in
  let defsrv := px_defsrv px in
  {| sv_addr := a;
     sv_id := svid;
     sv_puid := 0;
     sv_proxy := Some (px_addr px);
     sv_state := Z.lor SRV_MAINTAIN SRV_CHECKED;
     sv_prev_state := SRV_MAINTAIN;
     sv_last_change := now_tv_sec w;
     sv_sockaddr := {| sin_addr := sin_addr sk; sin_port := port |};
     sv_cookie := cookie;
     sv_cklen := Z.of_nat (String.length cookie);
     sv_check_port := ntohs port;
     sv_inter := sv_inter defsrv;
     sv_fastinter := sv_fastinter defsrv;
     sv_downinter := sv_downinter defsrv;
     sv_rise := sv_rise defsrv;
     sv_fall := sv_fall defsrv;
     sv_maxqueue := sv_maxqueue defsrv;
     sv_minconn := sv_minconn defsrv;
     sv_maxconn := px_maxconn px;
     sv_slowstart := sv_slowstart defsrv;
     sv_onerror := sv_onerror defsrv;
     sv_consecutive_errors_limit := sv_consecutive_errors_limit defsrv;
     sv_uweight := sv_iweight defsrv;
     sv_iweight := sv_iweight defsrv;
     sv_eweight := sv_iweight defsrv * BE_WEIGHT_SCALE;
     sv_prev_eweight := sv_iweight defsrv * BE_WEIGHT_SCALE;
     sv_curfd := -1;
     sv_health := sv_rise defsrv;
     sv_check_status := HCHK_STATUS_INI;
     sv_check := Some t;
     sv_check_start := (now_tv_sec w, now_tv_usec w);
     sv_check_data := Some cd |}.

(** The check task as it is handed to [task_queue]. *)
Definition check_task (t : address) (newsrv : server) (w : world) : task :=
  {| t_addr := t;
     t_process := Some process_chk;
     t_context := Some (sv_addr newsrv);
     t_expire := tick_add (now_ms w) (srv_getinter newsrv) |}.

Definition addserver (m : addserver_mem) (pxid svid addr cookie : string)
    (w : world) : option address * world :=
  match findproxy pxid PR_CAP_BE w with
  | None =>
      (None, emit (Alert "add server %s failed. backend %s not found.\n"
                         [Str svid; Str pxid]) w)
  | Some px =>
      let (dup, alerts) := findserver (Some px) svid in
      let w := emit_all alerts w in
      match dup with
      | Some _ =>
          (None, emit (Alert "add server %s failed. a server named %s already exist."
                             [Str svid; Str svid]) w)
      | None =>
          match mem_server m with
          | None =>
              (None, emit (Alert "add server %s failed. out of memory.\n"
                                 [Str svid]) w)
          | Some a =>
              match str2sa addr with
              | None =>
                  (None,
                   emit (free a)
                     (emit (Alert "add server %s failed. unkown host %s\n"
                                  [Str svid; Str addr]) w))
              | Some sk =>
                  match mem_check_data m with
                  | None =>
                      (None,
                       emit (free a)
                         (emit (Alert "add server %s failed. out of memory while allocating memory for check buffer\n"
                                      [Str svid]) w))
                  | Some cd =>
                      match mem_task m with
                      | None =>
                          (None,
                           emit (free a)
                             (emit (free cd)
                                (emit (Alert "add server %s failed. create new task failed.\n"
                                             [Str svid]) w)))
                      | Some t =>
                          let newsrv := new_server a cd t px sk svid cookie w in
                          let w :=
                            set_proxies
                              (update_proxy (px_addr px)
                                 (fun p => set_px_srv (newsrv :: px_srv p) p)
                                 (proxies w)) w in
                          let w := emit (task_queue (check_task t newsrv w)) w in
                          let w := emit (set_server_up newsrv) w in
                          (Some a, w)
                      end
                  end
              end
          end
      end
  end.

(** Unlinking [oldsrv] from the [srv] list. *)
Fixpoint unlink_server (oldsrv : address) (l : list server) : list server :=
  match l with
  | [] => []
  | s :: next =>
      if addr_eqb (sv_addr s) oldsrv then next
      else s :: unlink_server oldsrv next
  end.

(** The calls [delserver] makes once it has found [oldsrv]. *)
Definition delserver_calls (oldsrv : server) : list event :=
  [set_server_down (set_sv_state (Z.lor (sv_state oldsrv) SRV_MAINTAIN) oldsrv);
   task_delete (sv_check oldsrv);
   task_free (sv_check oldsrv)]
  ++ match sv_check_data oldsrv with Some cd => [free cd] | None => [] end
  ++ [free (sv_addr oldsrv)].

Definition delserver (pxid svid : string) (w : world) : Z * world :=
  match findproxy pxid PR_CAP_BE w with
  | None =>
      (1, emit (Alert "del server %s failed. backend %s not found.\n"
                      [Str svid; Str pxid]) w)
  | Some px =>
      let (found, alerts) := findserver (Some px) svid in
      let w := emit_all alerts w in
      match found with
      | None =>
          (1, emit (Alert "del server %s failed. server not found.\n" [Str svid]) w)
      | Some oldsrv =>
          let w := emit_all (delserver_calls oldsrv) w in
          (0, set_proxies
                (update_proxy (px_addr px)
                   (fun p => set_px_srv (unlink_server (sv_addr oldsrv) (px_srv p)) p)
                   (proxies w)) w)
      end
  end.

(** *** addbackend *)

(** What the allocator answers to [addbackend]: [calloc] for the proxy
    and [create_pool] for the header index pool. *)
Record addbackend_mem : Type := {
  mem_proxy : option address;
  mem_hdr_idx_pool : option address
}.

(** The memory [calloc] returns. *)
Definition zero_server (a : address) : server :=
  {| sv_addr := a; sv_id := EmptyString; sv_puid := 0; sv_proxy := None;
     sv_state := 0; sv_prev_state := 0; sv_last_change := 0;
     sv_sockaddr := {| sin_addr := 0; sin_port := 0 |};
     sv_cookie := EmptyString; sv_cklen := 0; sv_check_port := 0;
     sv_inter := 0; sv_fastinter := 0; sv_downinter := 0; sv_rise := 0;
     sv_fall := 0; sv_maxqueue := 0; sv_minconn := 0; sv_maxconn := 0;
     sv_slowstart := 0; sv_onerror := 0; sv_consecutive_errors_limit := 0;
     sv_uweight := 0; sv_iweight := 0; sv_eweight := 0; sv_prev_eweight := 0;
     sv_curfd := 0; sv_health := 0; sv_check_status := 0; sv_check := None;
     sv_check_start := (0, 0); sv_check_data := None |}.

Definition zero_proxy (a : address) : proxy :=
  {| px_addr := a; px_id := EmptyString; px_uuid := 0; px_cap := 0;
     px_mode := PR_MODE_TCP; px_state := PR_STNEW; px_maxconn := 0;
     px_fullconn := 0; px_backlog := 0; px_conn_retries := 0; px_feconn := 0;
     px_beconn := 0; px_beconn_max := 0; px_cum_feconn := 0;
     px_cum_beconn := 0; px_fe_sps_lim := 0;
     px_fe_sess_per_sec := {| curr_sec := 0; curr_ctr := 0; prev_ctr := 0 |};
     px_listen := []; px_srv := []; px_switching_rules := [];
     px_defbe := None; px_defsrv := zero_server a;
     px_timeout :=
       {| to_client := 0; to_tarpit := 0; to_queue := 0; to_connect := 0;
          to_server := 0; to_httpreq := 0; to_httpka := 0; to_check := 0 |};
     px_stop_time := 0; px_grace := 0; px_last_change := 0; px_options := 0;
     px_options2 := 0; px_acl_requires := 0; px_be_req_ana := 0;
     px_be_rsp_ana := 0; px_hdr_idx_pool := None; px_logfac1 := 0;
     px_logfac2 := 0; px_cookie_name := None; px_cookie_len := 0;
     px_cookie_domain := None; px_cookie_maxidle := 0;
     px_cookie_maxlife := 0; px_lbprm_algo := 0; px_lbprm_wmult := 0;
     px_lbprm_wdiv := 0 |}.

(** The test of the loop over the existing proxies. *)
Definition name_clash (cap : Z) (id : string) (curproxy : proxy) : bool :=
  streq (px_id curproxy) id &&
  (negb (cap =? Z.lor PR_CAP_FE PR_CAP_RS)
   || negb (px_cap curproxy =? Z.lor PR_CAP_BE PR_CAP_RS)) &&
  (negb (cap =? Z.lor PR_CAP_BE PR_CAP_RS)
   || negb (px_cap curproxy =? Z.lor PR_CAP_FE PR_CAP_RS)).

Fixpoint find_clash (cap : Z) (id : string) (l : list proxy) : option proxy :=
  match l with
  | [] => None
  | curproxy :: next =>
      if name_clash cap id curproxy then Some curproxy
      else find_clash cap id next
  end.

(** The default server of a backend made at run time. *)
Definition new_defsrv (d0 : server) : server :=
  {| sv_addr := sv_addr d0; sv_id := "default-server"; sv_puid := sv_puid d0;
     sv_proxy := sv_proxy d0; sv_state := sv_state d0;
     sv_prev_state := sv_prev_state d0; sv_last_change := sv_last_change d0;
     sv_sockaddr := sv_sockaddr d0; sv_cookie := sv_cookie d0;
     sv_cklen := sv_cklen d0; sv_check_port := 0; sv_inter := DEF_CHKINTR;
     sv_fastinter := 0; sv_downinter := 0; sv_rise := DEF_RISETIME;
     sv_fall := DEF_FALLTIME; sv_maxqueue := 0; sv_minconn := 0;
     sv_maxconn := 0; sv_slowstart := 0; sv_onerror := DEF_HANA_ONERR;
     sv_consecutive_errors_limit := DEF_HANA_ERRLIMIT; sv_uweight := 1;
     sv_iweight := 1; sv_eweight := sv_eweight d0;
     sv_prev_eweight := sv_prev_eweight d0; sv_curfd := sv_curfd d0;
     sv_health := sv_health d0; sv_check_status := sv_check_status d0;
     sv_check := sv_check d0; sv_check_start := sv_check_start d0;
     sv_check_data := sv_check_data d0 |}.

(** The [switch] on [lbprm.algo & BE_LB_KIND]: the lookup bits it adds
    and the initialiser it calls. *)
Definition lb_lookup (algo : Z) (a : address) : Z * list event :=
  let kind := Z.land algo BE_LB_KIND in
  if kind =? BE_LB_KIND_RR then
    if Z.land algo BE_LB_PARM =? BE_LB_RR_STATIC then
      (Z.lor algo BE_LB_LKUP_MAP, [init_server_map a])
    else
      (Z.lor algo (Z.lor BE_LB_LKUP_RRTREE BE_LB_PROP_DYN),
       [fwrr_init_server_groups a])
  else if kind =? BE_LB_KIND_LC then
    (Z.lor algo (Z.lor BE_LB_LKUP_LCTREE BE_LB_PROP_DYN),
     [fwlc_init_server_tree a])
  else if kind =? BE_LB_KIND_HI then
    if Z.land algo BE_LB_HASH_TYPE =? BE_LB_HASH_CONS then
      (Z.lor algo (Z.lor BE_LB_LKUP_CHTREE BE_LB_PROP_DYN),
       [chash_init_server_tree a])
    else (Z.lor algo BE_LB_LKUP_MAP, [init_server_map a])
  else (algo, []).

(** [lbprm.algo] when the [switch] is reached. *)
Definition backend_algo (p0 : proxy) : Z :=
  Z.land (Z.lor (px_lbprm_algo p0) BE_LB_ALGO_RR)
         (Z.lnot (Z.lor BE_LB_LKUP BE_LB_PROP_DYN)).

(** The proxy [addbackend] has built when it returns 0. *)
Definition new_backend (a : address) (pool : option address) (id : string)
    (cap : Z) (w : world) : proxy :=
  let p0 := init_new_proxy (zero_proxy a) in
  let options :=
    Z.lor (Z.lor (Z.land (px_options p0) (Z.lnot PR_O_COOK_ANY)) PR_O_COOK_INS)
          PR_O_COOK_IND in
  let options2 := Z.land (px_options2 p0) (Z.lnot PR_O2_COOK_PSV) in
  let algo := backend_algo p0 in
  let req_http :=
    Z.lor (px_be_req_ana p0)
          (Z.lor (Z.lor AN_REQ_WAIT_HTTP AN_REQ_HTTP_INNER) AN_REQ_HTTP_PROCESS_BE) in
  let req_ana :=
    if has_bits options2 PR_O2_RDPC_PRST
    then Z.lor req_http AN_REQ_PRST_RDP_COOKIE else req_http in
  {| px_addr := a; px_id := id; px_uuid := get_next_id (map node_key (used_proxy_id w)) 1;
     px_cap := cap; px_mode := PR_MODE_HTTP; px_state := PR_STNEW;
     px_maxconn := cfg_maxpconn;
     px_fullconn := if px_fullconn p0 =? 0 then cfg_maxpconn else px_fullconn p0;
     px_backlog := px_backlog p0; px_conn_retries := CONN_RETRIES;
     px_feconn := px_feconn p0; px_beconn := px_beconn p0;
     px_beconn_max := px_beconn_max p0; px_cum_feconn := px_cum_feconn p0;
     px_cum_beconn := px_cum_beconn p0; px_fe_sps_lim := px_fe_sps_lim p0;
     px_fe_sess_per_sec := px_fe_sess_per_sec p0; px_listen := px_listen p0;
     px_srv := px_srv p0; px_switching_rules := px_switching_rules p0;
     px_defbe := px_defbe p0; px_defsrv := new_defsrv (px_defsrv p0);
     px_timeout := px_timeout p0; px_stop_time := px_stop_time p0;
     px_grace := px_grace p0; px_last_change := now_tv_sec w;
     px_options := options; px_options2 := options2;
     px_acl_requires := Z.lor (px_acl_requires p0) ACL_USE_L7_ANY;
     px_be_req_ana := req_ana;
     px_be_rsp_ana :=
       Z.lor (px_be_rsp_ana p0)
             (Z.lor AN_RES_WAIT_HTTP AN_RES_HTTP_PROCESS_BE);
     px_hdr_idx_pool := pool; px_logfac1 := -1; px_logfac2 := -1;
     px_cookie_name := Some "SERVERID";
     px_cookie_len := Z.of_nat (String.length "SERVERID");
     px_cookie_domain := None; px_cookie_maxidle := 0;
     px_cookie_maxlife := 0; px_lbprm_algo := fst (lb_lookup algo a);
     px_lbprm_wmult := 1; px_lbprm_wdiv := 1 |}.

Definition addbackend (m : addbackend_mem) (id : string) (w : world)
  : Z * world :=
  let cap := Z.lor PR_CAP_BE PR_CAP_RS in
  if streq id EmptyString then
    (1, emit (Warning "backend needs and <id>\n" []) w)
  else
    match invalid_char id with
    | Some c =>
        (1, emit (Warning "charater '%c' is not permitted in backend name '%s'.\n"
                          [Chr c; Str id]) w)
    | None =>
        match find_clash cap id (proxies w) with
        | Some curproxy =>
            (1, emit (Warning "'%s' has the same name as another '%s'\n"
                              [Str id; Str (proxy_type_str curproxy)]) w)
        | None =>
            match mem_proxy m with
            | None => (1, emit (Warning "allocate proxy: out of memory\n" []) w)
            | Some a =>
                let curproxy := new_backend a (mem_hdr_idx_pool m) id cap w in
                let calls :=
                  snd (lb_lookup (backend_algo (init_new_proxy (zero_proxy a))) a)
                  ++ [stktable_init a] in
                (0,
                 {| proxies := curproxy :: proxies w;
                    listeners := listeners w;
                    used_proxy_id :=
                      {| node_of := a; node_key := px_uuid curproxy |}
                      :: used_proxy_id w;
                    actconn := actconn w;
                    global_maxconn := global_maxconn w;
                    stopping := stopping w;
                    now_ms := now_ms w;
                    now_tv_sec := now_tv_sec w;
                    now_tv_usec := now_tv_usec w;
                    trace := trace w ++ calls |})
            end
        end
    end.

(** *** delbackend *)

(** The test made on each proxy of the list: the warning of the first
    reference to [px] it holds, if any. *)
Definition reference_to (px : proxy) (curproxy : proxy) : option event :=
  if ptr_eqb (px_defbe curproxy) (Some (px_addr px)) then
    Some (Warning "proxy '%s' has default proxy '%s'\n"
                  [Str (px_id curproxy); Str (px_id px)])
  else if existsb (fun rule => ptr_eqb (sr_backend rule) (Some (px_addr px)))
                  (px_switching_rules curproxy) then
    Some (Warning "proxy '%s' has use_backend '%s'\n"
                  [Str (px_id curproxy); Str (px_id px)])
  else None.

Fixpoint find_reference (px : proxy) (l : list proxy) : option event :=
  match l with
  | [] => None
  | curproxy :: next =>
      match reference_to px curproxy with
      | Some warning => Some warning
      | None => find_reference px next
      end
  end.

(** [while (px->srv) delserver(px->id, px->srv->id);] with a bound on
    the number of iterations; [None] when the bound is reached. *)
Fixpoint delete_servers (fuel : nat) (px : address) (w : world) : option world :=
  match fuel with
  | O => None
  | S fuel =>
      match proxy_at px w with
      | None => None
      | Some p =>
          match px_srv p with
          | [] => Some w
          | s :: _ => delete_servers fuel px (snd (delserver (px_id p) (sv_id s) w))
          end
      end
  end.

Fixpoint unlink_proxy (px : address) (l : list proxy) : list proxy :=
  match l with
  | [] => []
  | p :: next =>
      if addr_eqb (px_addr p) px then next else p :: unlink_proxy px next
  end.

(** [px] designates a proxy of the global list; the result is [None]
    when it does not, or when the loop over the servers is cut short. *)
Definition delbackend (fuel : nat) (px : address) (w : world)
  : option (Z * world) :=
  match proxy_at px w with
  | None => None
  | Some p =>
      match find_reference p (proxies w) with
      | Some warning => Some (1, emit warning w)
      | None =>
          match delete_servers fuel px w with
          | None => None
          | Some w =>
              Some (0, emit (free px)
                         (set_proxies (unlink_proxy px (proxies w)) w))
          end
      end
  end.

(** *** maintain_proxies, stop_proxy *)

(** The code at [do_block]. *)
Definition do_block (p : proxy) : proxy :=
  if pr_state_eqb (px_state p) PR_STRUN then
    set_px_state PR_STIDLE
      (set_px_listen (map disable_listener (px_listen p)) p)
  else p.

(** The code before [continue]. *)
Definition do_unblock (p : proxy) : proxy :=
  if pr_state_eqb (px_state p) PR_STIDLE then
    set_px_state PR_STRUN
      (set_px_listen (map enable_listener (px_listen p)) p)
  else p.

(** One iteration of the first loop, on [p] with [*next]. *)
Definition gate_proxy (now : Z) (p : proxy) (next : Z) : proxy * Z :=
  if px_feconn p >=? px_maxconn p then (do_block p, next)
  else if negb (px_fe_sps_lim p =? 0) then
    let wait := next_event_delay (px_fe_sess_per_sec p) (px_fe_sps_lim p) 1 in
    if negb (wait =? 0) then
      (do_block p, tick_first next (tick_add now wait))
    else (do_unblock p, next)
  else (do_unblock p, next).

Fixpoint gate_loop (now : Z) (l : list proxy) (next : Z) : list proxy * Z :=
  match l with
  | [] => ([], next)
  | p :: rest =>
      let (p1, next1) := gate_proxy now p next in
      let (rest1, next2) := gate_loop now rest next1 in
      (p1 :: rest1, next2)
  end.

(** The first [if] of [maintain_proxies], lines 896 to 942. *)
Definition admission (next : Z) (w : world) : Z * world :=
  if actconn w <? global_maxconn w then
    let (l, next1) := gate_loop (now_ms w) (proxies w) next in
    (next1, set_proxies l w)
  else
    (next, set_proxies (map do_block (proxies w)) w).

Fixpoint stop_listeners (l : list listener) (count : Z) : list listener * Z :=
  match l with
  | [] => ([], count)
  | li :: rest =>
      let li1 := unbind_listener li in
      let (li2, count1) :=
        if li_state li1 >=? LI_ASSIGNED
        then (delete_listener li1, count - 1) else (li1, count) in
      let (rest1, count2) := stop_listeners rest count1 in
      (li2 :: rest1, count2)
  end.

(** [stop_proxy], with the global [listeners] passed along. *)
Definition stop_proxy (p : proxy) (count : Z) : proxy * Z :=
  let (l, count1) := stop_listeners (px_listen p) count in
  (set_px_state PR_STSTOPPED (set_px_listen l p), count1).

Definition stopped_message : string :=
  "Proxy %s stopped (FE: %lld conns, BE: %lld conns).\n".

(** The loop under [if (stopping)]. *)
Fixpoint drain_loop (now : Z) (l : list proxy) (next count : Z)
  : list proxy * Z * Z * list event :=
  match l with
  | [] => ([], next, count, [])
  | p :: rest =>
      let '(p1, next1, count1, calls) :=
        if negb (pr_state_eqb (px_state p) PR_STSTOPPED) then
          if tick_remain now (px_stop_time p) =? 0 then
            let args := [Str (px_id p); Num (px_cum_feconn p);
                         Num (px_cum_beconn p)] in
            let (p1, count1) := stop_proxy p count in
            (p1, next, count1,
             [Warning stopped_message args;
              send_log (Some (px_addr p)) stopped_message args;
              pool_gc2])
          else (p, tick_first next (px_stop_time p), count, [])
        else (p, next, count, []) in
      let '(rest1, next2, count2, calls1) := drain_loop now rest next1 count1 in
      (p1 :: rest1, next2, count2, calls ++ calls1)
  end.

Definition drain (next : Z) (w : world) : Z * world :=
  if negb (stopping w =? 0) then
    let '(l, next1, count, calls) :=
      drain_loop (now_ms w) (proxies w) next (listeners w) in
    (next1, emit_all calls (set_listeners count (set_proxies l w)))
  else (next, w).

(** [maintain_proxies(&next)]: the value left in [*next] and the globals
    afterwards. *)
Definition maintain_proxies (next : Z) (w : world) : Z * world :=
  let (next1, w1) := admission next w in
  drain next1 w1.

(** *** session_set_backend *)

(** Modelled from the spec: [proxy_inc_be_ctr], an inline helper of a
    header that is not among the sources.  Section 4.8 of the spec:
    "bump backend.beconn and cum_beconn"; [session_set_backend] does the
    first itself, the helper does the second. *)
Definition proxy_inc_be_ctr (be : proxy) : proxy :=
  set_px_cum_beconn (px_cum_beconn be + 1) be.

(** The calls made once the header index is allocated. *)
Inductive session_call : Type := http_init_txn | hdr_idx_init.

Record ssb_result : Type := {
  ssb_ret : Z;
  ssb_session : session;             (* [*s] afterwards *)
  ssb_be : proxy;                    (* [*be] afterwards *)
  ssb_calls : list session_call
}.

(** The stores into [*s] up to [s->flags |= SN_BE_ASSIGNED]. *)
Definition bind_session (s : session) (be : proxy) : session :=
  let cleared := Z.land (sn_si1_flags s) (Z.lnot SI_FL_INDEP_STR) in
  let si1_flags :=
    if has_bits (px_options2 be) PR_O2_INDEPSTR
    then Z.lor cleared SI_FL_INDEP_STR else cleared in
  {| sn_flags := Z.lor (sn_flags s) SN_BE_ASSIGNED; sn_fe := sn_fe s;
     sn_be := Some (px_addr be); sn_rep_rto := to_server (px_timeout be);
     sn_req_wto := to_server (px_timeout be);
     sn_req_cto := to_connect (px_timeout be);
     sn_req_analysers := sn_req_analysers s;
     sn_conn_retries := px_conn_retries be; sn_si1_flags := si1_flags;
     sn_txn_rsp_err_pos :=
       if has_bits (px_options2 be) PR_O2_RSPBUG_OK then -1
       else sn_txn_rsp_err_pos s;
     sn_hdr_idx_v := sn_hdr_idx_v s; sn_hdr_idx_size := sn_hdr_idx_size s;
     sn_listener_analysers := sn_listener_analysers s |}.

Definition set_hdr_idx (v : option address) (size : Z) (s : session) : session :=
  {| sn_flags := sn_flags s; sn_fe := sn_fe s; sn_be := sn_be s;
     sn_rep_rto := sn_rep_rto s; sn_req_wto := sn_req_wto s;
     sn_req_cto := sn_req_cto s; sn_req_analysers := sn_req_analysers s;
     sn_conn_retries := sn_conn_retries s; sn_si1_flags := sn_si1_flags s;
     sn_txn_rsp_err_pos := sn_txn_rsp_err_pos s; sn_hdr_idx_v := v;
     sn_hdr_idx_size := size;
     sn_listener_analysers := sn_listener_analysers s |}.

Definition set_sn_req_analysers (v : Z) (s : session) : session :=
  {| sn_flags := sn_flags s; sn_fe := sn_fe s; sn_be := sn_be s;
     sn_rep_rto := sn_rep_rto s; sn_req_wto := sn_req_wto s;
     sn_req_cto := sn_req_cto s; sn_req_analysers := v;
     sn_conn_retries := sn_conn_retries s; sn_si1_flags := sn_si1_flags s;
     sn_txn_rsp_err_pos := sn_txn_rsp_err_pos s;
     sn_hdr_idx_v := sn_hdr_idx_v s; sn_hdr_idx_size := sn_hdr_idx_size s;
     sn_listener_analysers := sn_listener_analysers s |}.

(** The stores into [*be]. *)
Definition count_session (be : proxy) : proxy :=
  let be1 := set_px_beconn (px_beconn be + 1) be in
  let be2 :=
    if px_beconn be1 >? px_beconn_max be1
    then set_px_beconn_max (px_beconn be1) be1 else be1 in
  proxy_inc_be_ctr be2.

(** The last statement before [return 1]. *)
Definition merge_analysers (s : session) (be : proxy) : session :=
  set_sn_req_analysers
    (Z.lor (sn_req_analysers s)
           (Z.land (px_be_req_ana be) (Z.lnot (sn_listener_analysers s)))) s.

(** [mem_hdr_idx] is what [pool_alloc2(s->fe->hdr_idx_pool)] answers
    when it is called. *)
Definition session_set_backend (mem_hdr_idx : option address)
    (s : session) (be : proxy) : ssb_result :=
  if has_bits (sn_flags s) SN_BE_ASSIGNED then
    {| ssb_ret := 1; ssb_session := s; ssb_be := be; ssb_calls := [] |}
  else
    let be1 := count_session be in
    let s1 := bind_session s be in
    match sn_hdr_idx_v s1 with
    | None =>
        if has_bits (px_acl_requires be1) ACL_USE_L7_ANY then
          match mem_hdr_idx with
          | None =>
              {| ssb_ret := 0; ssb_session := s1; ssb_be := be1;
                 ssb_calls := [] |}
          | Some v =>
              let s2 := set_hdr_idx (Some v) MAX_HTTP_HDR s1 in
              {| ssb_ret := 1; ssb_session := merge_analysers s2 be1;
                 ssb_be := be1; ssb_calls := [http_init_txn; hdr_idx_init] |}
          end
        else
          {| ssb_ret := 1; ssb_session := merge_analysers s1 be1;
             ssb_be := be1; ssb_calls := [] |}
    | Some _ =>
        {| ssb_ret := 1; ssb_session := merge_analysers s1 be1;
           ssb_be := be1; ssb_calls := [] |}
    end.

End Model.

(** ** The other functions of proxy.c *)

Definition set_px_stop_time (v : Z) (p : proxy) : proxy :=
  {| px_addr := px_addr p; px_id := px_id p; px_uuid := px_uuid p;
     px_cap := px_cap p; px_mode := px_mode p; px_state := px_state p;
     px_maxconn := px_maxconn p; px_fullconn := px_fullconn p;
     px_backlog := px_backlog p; px_conn_retries := px_conn_retries p;
     px_feconn := px_feconn p; px_beconn := px_beconn p;
     px_beconn_max := px_beconn_max p; px_cum_feconn := px_cum_feconn p;
     px_cum_beconn := px_cum_beconn p; px_fe_sps_lim := px_fe_sps_lim p;
     px_fe_sess_per_sec := px_fe_sess_per_sec p; px_listen := px_listen p;
     px_srv := px_srv p; px_switching_rules := px_switching_rules p;
     px_defbe := px_defbe p; px_defsrv := px_defsrv p;
     px_timeout := px_timeout p; px_stop_time := v; px_grace := px_grace p;
     px_last_change := px_last_change p; px_options := px_options p;
     px_options2 := px_options2 p; px_acl_requires := px_acl_requires p;
     px_be_req_ana := px_be_req_ana p; px_be_rsp_ana := px_be_rsp_ana p;
     px_hdr_idx_pool := px_hdr_idx_pool p; px_logfac1 := px_logfac1 p;
     px_logfac2 := px_logfac2 p; px_cookie_name := px_cookie_name p;
     px_cookie_len := px_cookie_len p;
     px_cookie_domain := px_cookie_domain p;
     px_cookie_maxidle := px_cookie_maxidle p;
     px_cookie_maxlife := px_cookie_maxlife p;
     px_lbprm_algo := px_lbprm_algo p; px_lbprm_wmult := px_lbprm_wmult p;
     px_lbprm_wdiv := px_lbprm_wdiv p |}.

Definition set_px_fe_sps_lim (v : Z) (p : proxy) : proxy :=
  {| px_addr := px_addr p; px_id := px_id p; px_uuid := px_uuid p;
     px_cap := px_cap p; px_mode := px_mode p; px_state := px_state p;
     px_maxconn := px_maxconn p; px_fullconn := px_fullconn p;
     px_backlog := px_backlog p; px_conn_retries := px_conn_retries p;
     px_feconn := px_feconn p; px_beconn := px_beconn p;
     px_beconn_max := px_beconn_max p; px_cum_feconn := px_cum_feconn p;
     px_cum_beconn := px_cum_beconn p; px_fe_sps_lim := v;
     px_fe_sess_per_sec := px_fe_sess_per_sec p; px_listen := px_listen p;
     px_srv := px_srv p; px_switching_rules := px_switching_rules p;
     px_defbe := px_defbe p; px_defsrv := px_defsrv p;
     px_timeout := px_timeout p; px_stop_time := px_stop_time p;
     px_grace := px_grace p; px_last_change := px_last_change p;
     px_options := px_options p; px_options2 := px_options2 p;
     px_acl_requires := px_acl_requires p; px_be_req_ana := px_be_req_ana p;
     px_be_rsp_ana := px_be_rsp_ana p; px_hdr_idx_pool := px_hdr_idx_pool p;
     px_logfac1 := px_logfac1 p; px_logfac2 := px_logfac2 p;
     px_cookie_name := px_cookie_name p; px_cookie_len := px_cookie_len p;
     px_cookie_domain := px_cookie_domain p;
     px_cookie_maxidle := px_cookie_maxidle p;
     px_cookie_maxlife := px_cookie_maxlife p;
     px_lbprm_algo := px_lbprm_algo p; px_lbprm_wmult := px_lbprm_wmult p;
     px_lbprm_wdiv := px_lbprm_wdiv p |}.

Definition set_stopping (v : Z) (w : world) : world :=
  {| proxies := proxies w; listeners := listeners w;
     used_proxy_id := used_proxy_id w; actconn := actconn w;
     global_maxconn := global_maxconn w; stopping := v; now_ms := now_ms w;
     now_tv_sec := now_tv_sec w; now_tv_usec := now_tv_usec w;
     trace := trace w |}.

(** The date [tv_update_date] leaves in [now_ms] and [now]. *)
Record date : Type := {
  d_ms : Z;
  d_sec : Z;
  d_usec : Z
}.

Definition set_date (d : date) (w : world) : world :=
  {| proxies := proxies w; listeners := listeners w;
     used_proxy_id := used_proxy_id w; actconn := actconn w;
     global_maxconn := global_maxconn w; stopping := stopping w;
     now_ms := d_ms d; now_tv_sec := d_sec d; now_tv_usec := d_usec d;
     trace := trace w |}.

Definition pr_mode_eqb (a b : pr_mode) : bool :=
  match a, b with
  | PR_MODE_TCP, PR_MODE_TCP | PR_MODE_HTTP, PR_MODE_HTTP
  | PR_MODE_HEALTH, PR_MODE_HEALTH => true
  | _, _ => false
  end.

(** The error bits, the listener binding and the system and libc calls
    that the functions below rely on; like [Env], they come from
    outside proxy.c. *)
Class Sys : Type := {
  ERR_NONE : Z;
  ERR_FATAL : Z;
  ERR_ABORT : Z;
  ERR_ALERT : Z;
  ERR_WARN : Z;
  ERR_CODE : Z;
  SHUT_RD : Z;
  SHUT_WR : Z;
  (* the error bits, the listener afterwards and the message *)
  tcp_bind_listener : listener -> Z * listener * string;
  shutdown : Z -> Z -> Z;
  listen : Z -> Z -> Z;
  (* the value and the text left at [*endptr] *)
  strtoul : string -> Z -> Z * string
}.

Section Rest.

Context `{Env} `{Sys}.

(** *** proxy_parse_rate_limit *)

Definition proxy_parse_rate_limit (args : list string) (section : Z)
    (px : proxy) (defpx : option proxy) : parse_result :=
  let args := if streq (arg 0 args) "rate-limit" then tl args else args in
  if streq (arg 0 args) "sessions" then
    let name := "sessions" in
    if streq (arg 1 args) EmptyString then
      {| pr_ret := -1; pr_proxy := px;
         pr_err := Some ("%s %s expects expects an integer value (in sessions/second)",
                         [Str "rate-limit"; Str name]) |}
    else
      let (value, res) := strtoul (arg 1 args) 0 in
      let val := value mod 2 ^ 32 in
      match res with
      | String c _ =>
          {| pr_ret := -1; pr_proxy := px;
             pr_err := Some ("%s %s: unexpected character '%c' in integer value '%s'",
                             [Str "rate-limit"; Str name; Chr c;
                              Str (arg 1 args)]) |}
      | EmptyString =>
          let stored := set_px_fe_sps_lim val px in
          if negb (has_bits (px_cap px) PR_CAP_FE) then
            {| pr_ret := 1; pr_proxy := stored;
               pr_err := Some ("%s %s will be ignored because %s '%s' has no %s capability",
                               [Str "rate-limit"; Str name;
                                Str (proxy_type_str px); Str (px_id px);
                                Str (if has_bits PR_CAP_FE PR_CAP_BE
                                     then "backend" else "frontend")]) |}
          else
            match defpx with
            | Some d =>
                if negb (px_fe_sps_lim px =? px_fe_sps_lim d) then
                  {| pr_ret := 1; pr_proxy := stored;
                     pr_err := Some ("overwriting %s %s which was already specified",
                                     [Str "rate-limit"; Str name]) |}
                else {| pr_ret := 0; pr_proxy := stored; pr_err := None |}
            | None => {| pr_ret := 0; pr_proxy := stored; pr_err := None |}
            end
      end
  else
    {| pr_ret := -1; pr_proxy := px;
       pr_err := Some ("%s '%s': must be 'sessions'",
                       [Str "rate-limit"; Str (arg 0 args)]) |}.

(** *** findproxy_mode *)

(** The mode test: [mode] itself, or an HTTP proxy for a TCP request. *)
Definition mode_fits (has mode : pr_mode) : bool :=
  pr_mode_eqb has mode
  || (pr_mode_eqb has PR_MODE_HTTP && pr_mode_eqb mode PR_MODE_TCP).

Fixpoint findproxy_mode_loop (target : option proxy) (name : string)
    (mode : pr_mode) (cap : Z) (l : list proxy) : option proxy * list event :=
  match l with
  | [] => (target, [])
  | curproxy :: next =>
      if negb (Z.land (px_cap curproxy) cap =? cap)
         || negb (streq (px_id curproxy) name)
      then findproxy_mode_loop target name mode cap next
      else if negb (mode_fits (px_mode curproxy) mode) then
        (None,
         [Alert "Unable to use proxy '%s' with wrong mode, required: %s, has: %s.\n"
                [Str name; Str (proxy_mode_str mode);
                 Str (proxy_mode_str (px_mode curproxy))];
          Alert "You may want to use 'mode %s'.\n"
                [Str (proxy_mode_str mode)]])
      else
        match target with
        | None => findproxy_mode_loop (Some curproxy) name mode cap next
        | Some t =>
            (None,
             [Alert "Refusing to use duplicated proxy '%s' with overlapping capabilities: %s/%s!\n"
                    [Str name; Str (proxy_type_str curproxy);
                     Str (proxy_type_str t)]])
        end
  end.

Definition findproxy_mode (name : string) (mode : pr_mode) (cap : Z)
    (w : world) : option proxy * list event :=
  findproxy_mode_loop None name mode cap (proxies w).

(** *** add_switch_entry *)

(** The third component is the call
    [hashtbl_insert(fe->switching_hashtbl, domain, be)], when it is
    made: the frontend, the key and the backend. *)
Definition add_switch_entry (frontend backend domain : string) (w : world)
  : Z * world * option (address * string * address) :=
  match findproxy frontend PR_CAP_FE w with
  | None =>
      (1, emit (Warning "cannot find frontend '%s'\n" [Str frontend]) w, None)
  | Some fe =>
      match findproxy backend PR_CAP_BE w with
      | None =>
          (1, emit (Warning "cannot find backend '%s'\n" [Str backend]) w, None)
      | Some be => (0, w, Some (px_addr fe, domain, px_addr be))
      end
  end.

(** *** start_proxies *)

(** The loop over the listeners of [curproxy]: the listeners
    afterwards, [err], [pxerr] and the messages. *)
Fixpoint bind_listeners (verbose : Z) (curproxy : proxy) (l : list listener)
    (err pxerr : Z) : list listener * Z * Z * list event :=
  match l with
  | [] => ([], err, pxerr, [])
  | li :: rest =>
      if negb (li_state li =? LI_ASSIGNED) then
        let '(rest1, err1, pxerr1, calls) :=
          bind_listeners verbose curproxy rest err pxerr in
        (li :: rest1, err1, pxerr1, calls)
      else
        let '(lerr, li1, msg) := tcp_bind_listener li in
        let args := [Str (proxy_type_str curproxy); Str (px_id curproxy);
                     Str msg] in
        let report :=
          if negb (verbose =? 0) || has_bits lerr (Z.lor ERR_FATAL ERR_ABORT)
          then
            if has_bits lerr ERR_ALERT then [Alert "Starting %s %s: %s\n" args]
            else if has_bits lerr ERR_WARN
            then [Warning "Starting %s %s: %s\n" args]
            else []
          else [] in
        let err1 := Z.lor err lerr in
        if has_bits lerr (Z.lor ERR_ABORT ERR_FATAL) then
          (li1 :: rest, err1, Z.lor pxerr 1, report)
        else
          let pxerr1 :=
            if has_bits lerr ERR_CODE then Z.lor pxerr 1 else pxerr in
          let '(rest1, err2, pxerr2, calls) :=
            bind_listeners verbose curproxy rest err1 pxerr1 in
          (li1 :: rest1, err2, pxerr2, report ++ calls)
  end.

(** The body of the outer loop on a NEW proxy. *)
Definition start_proxy (verbose : Z) (curproxy : proxy) (err : Z)
  : proxy * Z * list event :=
  let '(l, err1, pxerr, calls) :=
    bind_listeners verbose curproxy (px_listen curproxy) err 0 in
  let bound := set_px_listen l curproxy in
  if pxerr =? 0 then
    (set_px_state PR_STIDLE bound, err1,
     calls ++ [send_log (Some (px_addr curproxy)) "Proxy %s started.\n"
                        [Str (px_id curproxy)]])
  else (bound, err1, calls).

Fixpoint start_loop (verbose : Z) (l : list proxy) (err : Z)
  : list proxy * Z * list event :=
  match l with
  | [] => ([], err, [])
  | curproxy :: next =>
      if negb (pr_state_eqb (px_state curproxy) PR_STNEW) then
        let '(next1, err1, calls) := start_loop verbose next err in
        (curproxy :: next1, err1, calls)
      else
        let '(started, err1, calls) := start_proxy verbose curproxy err in
        if has_bits err1 ERR_ABORT then (started :: next, err1, calls)
        else
          let '(next1, err2, calls1) := start_loop verbose next err1 in
          (started :: next1, err2, calls ++ calls1)
  end.

Definition start_proxies (verbose : Z) (w : world) : Z * world :=
  let '(l, err, calls) := start_loop verbose (proxies w) ERR_NONE in
  (err, emit_all calls (set_proxies l w)).

(** *** soft_stop *)

Definition stopping_message : string := "Stopping %s %s in %d ms.\n".

(** The body of the loop of [soft_stop], at the date [now]. *)
Definition arm_stop (now : Z) (p : proxy) : proxy * list event :=
  if negb (pr_state_eqb (px_state p) PR_STSTOPPED) then
    let args := [Str (proxy_cap_str (px_cap p)); Str (px_id p);
                 Num (px_grace p)] in
    (set_px_stop_time (tick_add now (px_grace p)) p,
     [Warning stopping_message args;
      send_log (Some (px_addr p)) stopping_message args])
  else (p, []).

(** [d] is the date that [tv_update_date(0,1)] sets. *)
Definition soft_stop (d : date) (w : world) : world :=
  let w1 := set_date d (set_stopping 1 w) in
  emit_all (flat_map (fun p => snd (arm_stop (now_ms w1) p)) (proxies w1))
    (set_proxies (map (fun p => fst (arm_stop (now_ms w1) p)) (proxies w1)) w1).

(** *** pause_proxy, pause_proxies *)

(** The three calls made on a listener, as one condition. *)
Definition half_closes (p : proxy) (li : listener) : bool :=
  (shutdown (li_fd li) SHUT_WR =? 0)
  && (listen (li_fd li)
             (if px_backlog p =? 0 then px_maxconn p else px_backlog p) =? 0)
  && (shutdown (li_fd li) SHUT_RD =? 0).

(** The loop of [pause_proxy] from state [st] on: the state it leaves
    and the descriptors given to [EV_FD_CLR]. *)
Fixpoint pause_listeners (p : proxy) (st : pr_state) (l : list listener)
  : pr_state * list Z :=
  match l with
  | [] => (st, [])
  | li :: rest =>
      if half_closes p li then
        let st1 := if negb (pr_state_eqb st PR_STERROR) then PR_STPAUSED
                   else st in
        let (st2, fds) := pause_listeners p st1 rest in
        (st2, li_fd li :: fds)
      else pause_listeners p PR_STERROR rest
  end.

Definition pause_proxy (p : proxy) : proxy * list Z :=
  let (st, fds) := pause_listeners p (px_state p) (px_listen p) in
  (set_px_state st p, fds).

(** The test of the loop of [pause_proxies]. *)
Definition to_pause (p : proxy) : bool :=
  has_bits (px_cap p) PR_CAP_FE
  && negb (pr_state_eqb (px_state p) PR_STERROR)
  && negb (pr_state_eqb (px_state p) PR_STSTOPPED)
  && negb (pr_state_eqb (px_state p) PR_STPAUSED).

(** The loop of [pause_proxies]: the proxies, [err], the calls and the
    descriptors cleared. *)
Fixpoint pause_loop (l : list proxy) (err : Z)
  : list proxy * Z * list event * list Z :=
  match l with
  | [] => ([], err, [], [])
  | p :: next =>
      if to_pause p then
        let args := [Str (proxy_cap_str (px_cap p)); Str (px_id p)] in
        let (p1, fds) := pause_proxy p in
        let refused :=
          negb (pr_state_eqb (px_state p1) PR_STPAUSED) in
        let calls :=
          [Warning "Pausing %s %s.\n" args;
           send_log (Some (px_addr p)) "Pausing %s %s.\n" args]
          ++ (if refused
              then [Warning "%s %s failed to enter pause mode.\n" args;
                    send_log (Some (px_addr p))
                             "%s %s failed to enter pause mode.\n" args]
              else []) in
        let err1 := if refused then Z.lor err 1 else err in
        let '(next1, err2, calls1, fds1) := pause_loop next err1 in
        (p1 :: next1, err2, calls ++ calls1, fds ++ fds1)
      else
        let '(next1, err1, calls, fds) := pause_loop next err in
        (p :: next1, err1, calls, fds)
  end.

(** [d] is the date set by [tv_update_date] in [pause_proxies], [d'] the
    one set in [soft_stop] if it comes to that. *)
Definition pause_proxies (d d' : date) (w : world) : world * list Z :=
  let w1 := set_date d w in
  let '(l, err, calls, fds) := pause_loop (proxies w1) 0 in
  let w2 := emit_all calls (set_proxies l w1) in
  if negb (err =? 0) then
    let refusal :=
      "Some proxies refused to pause, performing soft stop now.\n" in
    (soft_stop d' (emit (send_log None refusal [])
                     (emit (Warning refusal []) w2)), fds)
  else (w2, fds).

End Rest.

(** ** Vocabulary of the statements *)

(** [x] is the first element of [l] on which [f] holds. *)
Definition first_such {A : Type} (f : A -> bool) (l : list A) (x : A) : Prop :=
  exists pre post,
    l = pre ++ x :: post /\ f x = true /\ Forall (fun y => f y = false) pre.

(** [f] holds on no element of [l]. *)
Definition none_such {A : Type} (f : A -> bool) (l : list A) : Prop :=
  Forall (fun y => f y = false) l.

(** The names [proxy_parse_timeout] accepts in [args[0]]. *)
Definition timeout_names : list string :=
  ["client"; "clitimeout"; "tarpit"; "http-keep-alive"; "http-request";
   "server"; "srvtimeout"; "connect"; "contimeout"; "check"; "queue"].

(** [p'] is [p] but for its state and its listeners, which are as many
    as before. *)
Definition same_but_state (p p' : proxy) : Prop :=
  p' = set_px_state (px_state p') (set_px_listen (px_listen p') p) /\
  List.length (px_listen p') = List.length (px_listen p).

Section Vocabulary.

Context `{Env}.

(** The backend and the server that [get_backend_server] designates by
    a name: the first one of the list that matches it. *)
Definition first_backend (w : world) (bk_name : string) (p : proxy) : Prop :=
  first_such (backend_matches (name_id bk_name) bk_name) (proxies w) p.

Definition no_backend (w : world) (bk_name : string) : Prop :=
  none_such (backend_matches (name_id bk_name) bk_name) (proxies w).

Definition first_server (p : proxy) (sv_name : string) (s : server) : Prop :=
  first_such (server_matches (name_id sv_name) sv_name) (px_srv p) s.

Definition no_server (p : proxy) (sv_name : string) : Prop :=
  none_such (server_matches (name_id sv_name) sv_name) (px_srv p).

(** The reading of names in the words of the specification: after a '#'
    the name is a decimal number compared with the numeric id, any other
    name is compared with the string id. *)
Definition names_backend (bk_name : string) (p : proxy) : Prop :=
  Z.land (px_cap p) PR_CAP_BE <> 0 /\
  if starts_with_hash bk_name then px_uuid p = atoi (str_tail bk_name)
  else px_id p = bk_name.

Definition names_server (sv_name : string) (s : server) : Prop :=
  if starts_with_hash sv_name then sv_puid s = atoi (str_tail sv_name)
  else sv_id s = sv_name.

(** In the words of the specification, the number of a '#' name is the
    decimal number it shows, however long. *)
Definition decimal_id (name : string) : Z := read_digits 0 (str_tail name).

(** [get_backend_server] returns 1 exactly when some backend of the
    list bears the name and holds a server that bears the name. *)
Definition returns_1_iff_some_match (w : world) (bk_name sv_name : string)
  : Prop :=
  forall bk c r,
    get_backend_server w bk_name sv_name bk (Some c) = Some r ->
    (gbs_ret r = 1 <->
     exists p s, In p (proxies w) /\ names_backend bk_name p /\
                 In s (px_srv p) /\ names_server sv_name s).

(** The servers of a list that bear a name. *)
Definition named (name : string) (l : list server) : list server :=
  filter (fun s => streq (sv_id s) name) l.

(** The conditions under which [addserver] goes through: the backend is
    found, [findserver] reports no server of the name, the three
    allocations succeed and the address is understood. *)
Definition addserver_ready (m : addserver_mem) (pxid svid addr : string)
    (w : world) (px : proxy) (a cd t : address) (sk : sockaddr_in) : Prop :=
  findproxy pxid PR_CAP_BE w = Some px /\
  fst (findserver (Some px) svid) = None /\
  mem_server m = Some a /\
  mem_check_data m = Some cd /\
  mem_task m = Some t /\
  str2sa addr = Some sk.

(** The per-server settings [addserver] copies from the fields of the
    same name of [defsrv]. *)
Definition from_defsrv (newsrv defsrv : server) : Prop :=
  sv_inter newsrv = sv_inter defsrv /\
  sv_fastinter newsrv = sv_fastinter defsrv /\
  sv_downinter newsrv = sv_downinter defsrv /\
  sv_rise newsrv = sv_rise defsrv /\
  sv_fall newsrv = sv_fall defsrv /\
  sv_maxqueue newsrv = sv_maxqueue defsrv /\
  sv_minconn newsrv = sv_minconn defsrv /\
  sv_slowstart newsrv = sv_slowstart defsrv /\
  sv_onerror newsrv = sv_onerror defsrv /\
  sv_consecutive_errors_limit newsrv = sv_consecutive_errors_limit defsrv.

(** In the words of the specification, every per-server default comes
    from [defsrv]: the connection limit, the check port and both
    weights as well. *)
Definition all_from_defsrv (newsrv defsrv : server) : Prop :=
  from_defsrv newsrv defsrv /\
  sv_maxconn newsrv = sv_maxconn defsrv /\
  sv_check_port newsrv = sv_check_port defsrv /\
  sv_uweight newsrv = sv_uweight defsrv /\
  sv_iweight newsrv = sv_iweight defsrv.

(** What a call that links [newsrv] in the backend at address [a] does
    to the list of proxies: the proxy at [a] has [newsrv] before the
    servers it had, any other proxy is as it was. *)
Definition linked_at (a : address) (newsrv : server) (q q' : proxy) : Prop :=
  (px_addr q <> a -> q' = q) /\
  (px_addr q = a -> px_srv q' = newsrv :: px_srv q).

(** The alert of [findserver] on an ambiguous name. *)
Definition duplicate_alert (px : proxy) (name : string) : event :=
  Alert "Refusing to use duplicated server '%s' fould in proxy: %s!\n"
        [Str name; Str (px_id px)].

(** [q] holds a reference to the proxy at address [a]: its default
    backend, or the backend of one of its switching rules. *)
Definition refers_to (a : address) (q : proxy) : Prop :=
  px_defbe q = Some a \/
  exists rule, In rule (px_switching_rules q) /\ sr_backend rule = Some a.

(** [delbackend] has refused: it returned 1 and the list of proxies is
    the one of [w]. *)
Definition refused (r : option (Z * world)) (w : world) : Prop :=
  exists w', r = Some (1, w') /\ proxies w' = proxies w.

(** In the words of the specification: refusal exactly when some other
    proxy holds a reference. *)
Definition refuses_iff_other_refers (fuel : nat) (px : address) (w : world)
  : Prop :=
  refused (delbackend fuel px w) w <->
  exists q, In q (proxies w) /\ px_addr q <> px /\ refers_to px q.

(** The reasons [maintain_proxies] finds to block a frontend: it is
    full, or, when it is not, its session rate limit asks for a delay. *)
Definition full (p : proxy) : Prop := px_feconn p >= px_maxconn p.

Definition rate_wait (p : proxy) : Z :=
  next_event_delay (px_fe_sess_per_sec p) (px_fe_sps_lim p) 1.

Definition rate_limited (p : proxy) : Prop :=
  px_fe_sps_lim p <> 0 /\ rate_wait p <> 0.

(** [p'] is [p] after blocking: a running proxy has every listener
    disabled and is idle, any other keeps its state and its listeners;
    nothing else changes. *)
Definition blocked (p p' : proxy) : Prop :=
  same_but_state p p' /\
  (px_state p = PR_STRUN ->
   px_state p' = PR_STIDLE /\
   px_listen p' = map disable_listener (px_listen p)) /\
  (px_state p <> PR_STRUN ->
   px_state p' = px_state p /\ px_listen p' = px_listen p).

(** [p'] is [p] after unblocking: an idle proxy has every listener
    enabled and is running, any other keeps its state and its
    listeners; nothing else changes. *)
Definition unblocked (p p' : proxy) : Prop :=
  same_but_state p p' /\
  (px_state p = PR_STIDLE ->
   px_state p' = PR_STRUN /\
   px_listen p' = map enable_listener (px_listen p)) /\
  (px_state p <> PR_STIDLE ->
   px_state p' = px_state p /\ px_listen p' = px_listen p).

(** The wake-up tick [n] once [p] has been visited: a proxy that is
    below its [maxconn] and whose session rate limit asks for a delay
    brings it to [tick_first(n, tick_add(now_ms, wait))]; any other
    proxy, a full one included, leaves it as it is. *)
Definition wakeup (now : Z) (n : Z) (p : proxy) : Z :=
  if (px_feconn p <? px_maxconn p) && negb (px_fe_sps_lim p =? 0)
     && negb (rate_wait p =? 0)
  then tick_first n (tick_add now (rate_wait p))
  else n.

(** The proxies that the second part of [maintain_proxies] does not
    stop: all of them while [stopping] is 0; otherwise those that are
    stopped already and those whose [stop_time] has not run out. *)
Definition spared (w : world) (p : proxy) : Prop :=
  stopping w = 0 \/ px_state p = PR_STSTOPPED \/
  tick_remain (now_ms w) (px_stop_time p) <> 0.

(** The wake-up tick [n] once the second part has visited [p]: under
    [stopping], a proxy that is not stopped and whose [stop_time] has
    not run out brings it to [tick_first(n, stop_time)]. *)
Definition stop_tick (w : world) (n : Z) (p : proxy) : Z :=
  if negb (stopping w =? 0)
     && negb (pr_state_eqb (px_state p) PR_STSTOPPED)
     && negb (tick_remain (now_ms w) (px_stop_time p) =? 0)
  then tick_first n (px_stop_time p)
  else n.

(** In the words of the specification, for every call with [actconn]
    below [global.maxconn]: a running proxy that is full or at its rate
    limit has its listeners disabled and becomes idle. *)
Definition blocks_on_every_call (next : Z) (w : world) : Prop :=
  actconn w < global_maxconn w ->
  Forall2 (fun p p' =>
             full p \/ rate_limited p -> px_state p = PR_STRUN ->
             px_state p' = PR_STIDLE /\
             px_listen p' = map disable_listener (px_listen p))
          (proxies w) (proxies (snd (maintain_proxies next w))).

(** In the words of the specification: in the rate-limit case the tick
    is clamped to now + wait; here for a single proxy. *)
Definition clamps_when_limited (next : Z) (w : world) : Prop :=
  actconn w < global_maxconn w ->
  forall p, proxies w = [p] -> rate_limited p ->
    fst (maintain_proxies next w) =
      tick_first next (tick_add (now_ms w) (rate_wait p)).

(** In the words of the specification: a failed [session_set_backend]
    leaves the session and the backend as they were. *)
Definition fails_without_effect (s : session) (be : proxy) : Prop :=
  let r := session_set_backend None s be in
  ssb_ret r = 0 /\ ssb_session r = s /\ ssb_be r = be.

End Vocabulary.

(** ** Vocabulary of the further statements *)

(** A mask [m] of one flag: [x & m] is all or nothing. *)
Definition one_flag (m : Z) : Prop :=
  m <> 0 /\ forall x, Z.land x m = 0 \/ Z.land x m = m.

(** The calls that are alerts or releases of memory. *)
Definition alert_or_free (e : event) : Prop :=
  match e with
  | Alert _ _ | free _ => True
  | _ => False
  end.

Section Vocabulary_further.

Context `{Env}.

(** The test of [findproxy] on a proxy, and the proxies that pass it. *)
Definition bears (name : string) (cap : Z) (p : proxy) : bool :=
  (Z.land (px_cap p) cap =? cap) && streq (px_id p) name.

Definition candidates (name : string) (cap : Z) (l : list proxy) : list proxy :=
  filter (bears name cap) l.

(** The listeners [stop_proxy] deletes: those still assigned once
    unbound. *)
Definition deleted_listeners (l : list listener) : list listener :=
  filter (fun li => li_state (unbind_listener li) >=? LI_ASSIGNED) l.

End Vocabulary_further.

Section Vocabulary_rest.

Context `{Env} `{Sys}.

(** A bind that reports nothing that counts as an error. *)
Definition binds_cleanly (li : listener) : Prop :=
  let lerr := fst (fst (tcp_bind_listener li)) in
  Z.land lerr (Z.lor ERR_ABORT ERR_FATAL) = 0 /\ Z.land lerr ERR_CODE = 0.

(** What [start_proxies] does to a listener that binds cleanly. *)
Definition bound (li : listener) : listener :=
  if li_state li =? LI_ASSIGNED then snd (fst (tcp_bind_listener li)) else li.

(** [p] has listeners and each of them goes through the three calls of
    [pause_proxy]. *)
Definition pauses (p : proxy) : Prop :=
  px_listen p <> [] /\ Forall (fun li => half_closes p li = true) (px_listen p).

(** Every listener [start_proxies] would bind for [p] binds cleanly. *)
Definition starts_cleanly (p : proxy) : Prop :=
  Forall (fun li => li_state li = LI_ASSIGNED -> binds_cleanly li)
         (px_listen p).

(** What [start_proxies] may do to a listener: nothing, or, if it is
    assigned, hand it to [tcp_bind_listener]. *)
Definition started_listener (li li' : listener) : Prop :=
  li' = li \/
  li_state li = LI_ASSIGNED /\ li' = snd (fst (tcp_bind_listener li)).

(** What [start_proxies] may do to a proxy. *)
Definition started (p p' : proxy) : Prop :=
  same_but_state p p' /\
  (px_state p <> PR_STNEW -> p' = p) /\
  (px_state p' = px_state p \/ px_state p' = PR_STIDLE) /\
  Forall2 started_listener (px_listen p) (px_listen p').

(** The proxy [start_proxies] leaves when all goes well. *)
Definition start_of (p : proxy) : proxy :=
  if pr_state_eqb (px_state p) PR_STNEW
  then set_px_state PR_STIDLE (set_px_listen (map bound (px_listen p)) p)
  else p.

(** The proxy [pause_proxies] leaves when all goes well. *)
Definition pause_of (p : proxy) : proxy :=
  if to_pause p then set_px_state PR_STPAUSED p else p.

End Vocabulary_rest.

(** ** A concrete environment, to run the model on examples *)

Fixpoint first_outside (ok : ascii -> bool) (s : string) : option ascii :=
  match s with
  | EmptyString => None
  | String c r => if ok c then first_outside ok r else Some c
  end.

Definition name_char (c : ascii) : bool :=
  let n := N_of_ascii c in
  (isdigit c || (N.leb 65 n && N.leb n 90) || (N.leb 97 n && N.leb n 122)
   || N.eqb n 95 || N.eqb n 58 || N.eqb n 46 || N.eqb n 45)%bool.

(** The port after the last ':' of "host:port", 0 without one. *)
Fixpoint port_of (s : string) : Z :=
  match s with
  | EmptyString => 0
  | String c r =>
      if Ascii.eqb c ":"%char then
        (if existsb (Ascii.eqb ":"%char) (list_ascii_of_string r)
         then port_of r else atoi r)
      else port_of r
  end.

Definition swap16 (x : Z) : Z := (x mod 256) * 256 + (x / 256) mod 256.

Definition sample_env : Env := {|
  PR_CAP_FE := 1; PR_CAP_BE := 2; PR_CAP_RS := 4; PR_CAP_LISTEN := 7;
  SRV_MAINTAIN := 128; SRV_CHECKED := 16; HCHK_STATUS_INI := 1;
  BE_WEIGHT_SCALE := 16;
  DEF_CHKINTR := 2000; DEF_RISETIME := 2; DEF_FALLTIME := 3;
  DEF_HANA_ONERR := 1; DEF_HANA_ERRLIMIT := 10;
  CONN_RETRIES := 3; cfg_maxpconn := 2000; global_tune_chksize := 16384;
  PR_O_COOK_ANY := 7; PR_O_COOK_INS := 2; PR_O_COOK_IND := 32;
  PR_O2_COOK_PSV := 1024; PR_O2_INDEPSTR := 512; PR_O2_RSPBUG_OK := 64;
  PR_O2_RDPC_PRST := 128;
  BE_LB_ALGO_RR := 65537; BE_LB_LKUP := 7340032; BE_LB_PROP_DYN := 8388608;
  BE_LB_KIND := 458752; BE_LB_KIND_RR := 65536; BE_LB_KIND_LC := 131072;
  BE_LB_KIND_HI := 196608; BE_LB_PARM := 255; BE_LB_RR_STATIC := 2;
  BE_LB_HASH_TYPE := 3145728; BE_LB_HASH_CONS := 1048576;
  BE_LB_LKUP_MAP := 1048576; BE_LB_LKUP_RRTREE := 2097152;
  BE_LB_LKUP_LCTREE := 3145728; BE_LB_LKUP_CHTREE := 4194304;
  ACL_USE_L7_ANY := 96; AN_REQ_WAIT_HTTP := 4; AN_REQ_HTTP_INNER := 64;
  AN_REQ_HTTP_PROCESS_BE := 16; AN_REQ_PRST_RDP_COOKIE := 256;
  AN_RES_WAIT_HTTP := 65536; AN_RES_HTTP_PROCESS_BE := 262144;
  SN_BE_ASSIGNED := 8; SI_FL_INDEP_STR := 64; MAX_HTTP_HDR := 101;
  LI_ASSIGNED := 2; TIME_UNIT_MS := 0;
  MS_TO_TICKS := fun ms => ms;
  tick_add := fun now timeout => now + timeout;
  tick_first := fun t1 t2 =>
    if t1 =? 0 then t2 else if t2 =? 0 then t1 else Z.min t1 t2;
  tick_remain := fun now exp => if exp <=? now then 0 else exp - now;
  next_event_delay := fun ctr freq pend =>
    if curr_ctr ctr + pend <=? freq then 0 else 1000 / freq;
  parse_time_err := fun text unit =>
    match first_outside isdigit text with
    | Some c => inl c
    | None => inr (read_digits 0 text)
    end;
  invalid_char := first_outside name_char;
  str2sa := fun text =>
    match text with
    | EmptyString => None
    | _ => Some {| sin_addr := 167772161; sin_port := swap16 (port_of text) |}
    end;
  htons := swap16;
  ntohs := swap16;
  srv_getinter := fun s =>
    if sv_fastinter s =? 0 then sv_inter s else sv_fastinter s;
  get_next_id := fun used from => Z.max from (fold_right Z.max 0 used + 1);
  init_new_proxy := fun p => p;
  proxy_type_str := fun p =>
    if Z.land (px_cap p) 1 =? 1 then "frontend" else "backend";
  enable_listener := fun l => {| li_fd := li_fd l; li_state := 4 |};
  disable_listener := fun l => {| li_fd := li_fd l; li_state := 3 |};
  unbind_listener := fun l => {| li_fd := li_fd l; li_state := 2 |};
  delete_listener := fun l => {| li_fd := li_fd l; li_state := 1 |}
|}.

Definition sample_world (l : list proxy) : world :=
  {| proxies := l; listeners := 0;
     used_proxy_id :=
       map (fun p => {| node_of := px_addr p; node_key := px_uuid p |}) l;
     actconn := 0; global_maxconn := 100; stopping := 0;
     now_ms := 5000; now_tv_sec := 5; now_tv_usec := 0; trace := [] |}.

Definition sample_server (a : address) (id : string) (puid : Z) : server :=
  {| sv_addr := a; sv_id := id; sv_puid := puid; sv_proxy := None;
     sv_state := 0; sv_prev_state := 0; sv_last_change := 0;
     sv_sockaddr := {| sin_addr := 0; sin_port := 0 |};
     sv_cookie := EmptyString; sv_cklen := 0; sv_check_port := 0;
     sv_inter := 2000; sv_fastinter := 0; sv_downinter := 0; sv_rise := 2;
     sv_fall := 3; sv_maxqueue := 0; sv_minconn := 0; sv_maxconn := 0;
     sv_slowstart := 0; sv_onerror := 1; sv_consecutive_errors_limit := 10;
     sv_uweight := 1; sv_iweight := 1; sv_eweight := 16;
     sv_prev_eweight := 16; sv_curfd := -1; sv_health := 2;
     sv_check_status := 1; sv_check := None; sv_check_start := (0, 0);
     sv_check_data := None |}.

Definition sample_proxy (a : address) (id : string) (uuid cap : Z)
    (srv : list server) : proxy :=
  {| px_addr := a; px_id := id; px_uuid := uuid; px_cap := cap;
     px_mode := PR_MODE_HTTP; px_state := PR_STIDLE; px_maxconn := 2000;
     px_fullconn := 2000; px_backlog := 0; px_conn_retries := 3;
     px_feconn := 0; px_beconn := 0; px_beconn_max := 0; px_cum_feconn := 0;
     px_cum_beconn := 0; px_fe_sps_lim := 0;
     px_fe_sess_per_sec := {| curr_sec := 0; curr_ctr := 0; prev_ctr := 0 |};
     px_listen := []; px_srv := srv; px_switching_rules := [];
     px_defbe := None; px_defsrv := sample_server a "default-server" 0;
     px_timeout :=
       {| to_client := 0; to_tarpit := 0; to_queue := 0; to_connect := 0;
          to_server := 0; to_httpreq := 0; to_httpka := 0; to_check := 0 |};
     px_stop_time := 0; px_grace := 0; px_last_change := 0; px_options := 0;
     px_options2 := 0; px_acl_requires := 96; px_be_req_ana := 0;
     px_be_rsp_ana := 0; px_hdr_idx_pool := None; px_logfac1 := 0;
     px_logfac2 := 0; px_cookie_name := None; px_cookie_len := 0;
     px_cookie_domain := None; px_cookie_maxidle := 0;
     px_cookie_maxlife := 0; px_lbprm_algo := 0; px_lbprm_wmult := 0;
     px_lbprm_wdiv := 0 |}.

(** A frontend with [sessions] sessions counted in the current second. *)
Definition sample_frontend (a : address) (id : string) (cap : Z)
    (state : pr_state) (feconn maxconn lim sessions : Z)
    (listen : list listener) (defbe : option address) : proxy :=
  {| px_addr := a; px_id := id; px_uuid := Z.pos a; px_cap := cap;
     px_mode := PR_MODE_HTTP; px_state := state; px_maxconn := maxconn;
     px_fullconn := 0; px_backlog := 0; px_conn_retries := 3;
     px_feconn := feconn; px_beconn := 0; px_beconn_max := 0;
     px_cum_feconn := 0; px_cum_beconn := 0; px_fe_sps_lim := lim;
     px_fe_sess_per_sec := {| curr_sec := 5; curr_ctr := sessions; prev_ctr := 0 |};
     px_listen := listen; px_srv := []; px_switching_rules := [];
     px_defbe := defbe; px_defsrv := sample_server a "default-server" 0;
     px_timeout :=
       {| to_client := 0; to_tarpit := 0; to_queue := 0; to_connect := 0;
          to_server := 0; to_httpreq := 0; to_httpka := 0; to_check := 0 |};
     px_stop_time := 0; px_grace := 0; px_last_change := 0; px_options := 0;
     px_options2 := 0; px_acl_requires := 0; px_be_req_ana := 0;
     px_be_rsp_ana := 0; px_hdr_idx_pool := None; px_logfac1 := 0;
     px_logfac2 := 0; px_cookie_name := None; px_cookie_len := 0;
     px_cookie_domain := None; px_cookie_maxidle := 0;
     px_cookie_maxlife := 0; px_lbprm_algo := 0; px_lbprm_wmult := 0;
     px_lbprm_wdiv := 0 |}.

Definition sample_session : session :=
  {| sn_flags := 0; sn_fe := Some 1%positive; sn_be := None;
     sn_rep_rto := 30000; sn_req_wto := 30000; sn_req_cto := 5000;
     sn_req_analysers := 0; sn_conn_retries := 3; sn_si1_flags := 0;
     sn_txn_rsp_err_pos := -2; sn_hdr_idx_v := None; sn_hdr_idx_size := 0;
     sn_listener_analysers := 0 |}.

Definition sample_mem : addserver_mem :=
  {| mem_server := Some 20%positive;
     mem_check_data := Some 21%positive;
     mem_task := Some 22%positive |}.

Definition api : proxy := sample_proxy 1 "api" 1 6 [].

Definition sample_registry : world := sample_world [api].

(** A backend whose [defsrv] has two different weights. *)
Definition with_uweight (v : Z) (s : server) : server :=
  {| sv_addr := sv_addr s; sv_id := sv_id s; sv_puid := sv_puid s;
     sv_proxy := sv_proxy s; sv_state := sv_state s;
     sv_prev_state := sv_prev_state s; sv_last_change := sv_last_change s;
     sv_sockaddr := sv_sockaddr s; sv_cookie := sv_cookie s;
     sv_cklen := sv_cklen s; sv_check_port := sv_check_port s;
     sv_inter := sv_inter s; sv_fastinter := sv_fastinter s;
     sv_downinter := sv_downinter s; sv_rise := sv_rise s;
     sv_fall := sv_fall s; sv_maxqueue := sv_maxqueue s;
     sv_minconn := sv_minconn s; sv_maxconn := sv_maxconn s;
     sv_slowstart := sv_slowstart s; sv_onerror := sv_onerror s;
     sv_consecutive_errors_limit := sv_consecutive_errors_limit s;
     sv_uweight := v; sv_iweight := sv_iweight s; sv_eweight := sv_eweight s;
     sv_prev_eweight := sv_prev_eweight s; sv_curfd := sv_curfd s;
     sv_health := sv_health s; sv_check_status := sv_check_status s;
     sv_check := sv_check s; sv_check_start := sv_check_start s;
     sv_check_data := sv_check_data s |}.

Definition with_defsrv (d : server) (p : proxy) : proxy :=
  {| px_addr := px_addr p; px_id := px_id p; px_uuid := px_uuid p;
     px_cap := px_cap p; px_mode := px_mode p; px_state := px_state p;
     px_maxconn := px_maxconn p; px_fullconn := px_fullconn p;
     px_backlog := px_backlog p; px_conn_retries := px_conn_retries p;
     px_feconn := px_feconn p; px_beconn := px_beconn p;
     px_beconn_max := px_beconn_max p; px_cum_feconn := px_cum_feconn p;
     px_cum_beconn := px_cum_beconn p; px_fe_sps_lim := px_fe_sps_lim p;
     px_fe_sess_per_sec := px_fe_sess_per_sec p; px_listen := px_listen p;
     px_srv := px_srv p; px_switching_rules := px_switching_rules p;
     px_defbe := px_defbe p; px_defsrv := d; px_timeout := px_timeout p;
     px_stop_time := px_stop_time p; px_grace := px_grace p;
     px_last_change := px_last_change p; px_options := px_options p;
     px_options2 := px_options2 p; px_acl_requires := px_acl_requires p;
     px_be_req_ana := px_be_req_ana p; px_be_rsp_ana := px_be_rsp_ana p;
     px_hdr_idx_pool := px_hdr_idx_pool p; px_logfac1 := px_logfac1 p;
     px_logfac2 := px_logfac2 p; px_cookie_name := px_cookie_name p;
     px_cookie_len := px_cookie_len p;
     px_cookie_domain := px_cookie_domain p;
     px_cookie_maxidle := px_cookie_maxidle p;
     px_cookie_maxlife := px_cookie_maxlife p;
     px_lbprm_algo := px_lbprm_algo p; px_lbprm_wmult := px_lbprm_wmult p;
     px_lbprm_wdiv := px_lbprm_wdiv p |}.

Definition lopsided : proxy :=
  with_defsrv (with_uweight 3 (sample_server 3 "default-server" 0))
    (sample_proxy 3 "lopsided" 3 6 []).

(** A backend that already holds two servers of one name. *)
Definition twice : proxy :=
  sample_proxy 1 "api" 1 6 [sample_server 10 "s" 1; sample_server 11 "s" 2].

Definition sample_ambiguous : world := sample_world [twice].

(** Two backends of one name, the server being in the second. *)
Definition sample_twins : world :=
  sample_world [sample_proxy 1 "a" 1 6 [];
                sample_proxy 2 "a" 2 6 [sample_server 10 "s" 1]].

(** A backend whose numeric id is 0. *)
Definition sample_unnumbered : world :=
  sample_world [sample_proxy 1 "x" 0 6 [sample_server 10 "s" 1]].

Definition two_listeners : list listener :=
  [{| li_fd := 7; li_state := 4 |}; {| li_fd := 8; li_state := 4 |}].

(** A full frontend, a frontend at its session rate limit and an idle
    frontend with nothing against it. *)
Definition fe_full : proxy :=
  sample_frontend 1 "full" 1 PR_STRUN 5 5 0 0 two_listeners None.

Definition fe_limited : proxy :=
  sample_frontend 2 "limited" 1 PR_STRUN 0 10 10 10 two_listeners None.

Definition fe_idle : proxy :=
  sample_frontend 3 "idle" 1 PR_STIDLE 0 10 0 0
    [{| li_fd := 9; li_state := 3 |}] None.

Definition sample_gate : world := sample_world [fe_full; fe_limited; fe_idle].

(** A frontend that is full and at its session rate limit as well. *)
Definition fe_both : proxy :=
  sample_frontend 7 "both" 1 PR_STRUN 5 5 10 10 two_listeners None.

(** A backend with two servers, alone and as the default backend of a
    frontend, and a proxy that is its own default backend. *)
Definition be2 : proxy :=
  sample_proxy 2 "be" 2 6 [sample_server 10 "s1" 1; sample_server 11 "s2" 2].

Definition sample_free : world := sample_world [be2].

Definition sample_guarded : world :=
  sample_world [sample_frontend 1 "fe" 5 PR_STRUN 0 10 0 0 [] (Some 2%positive);
                be2].

Definition self_default : proxy :=
  sample_frontend 1 "loop" 3 PR_STRUN 0 10 0 0 [] (Some 1%positive).

Definition sample_loop : world := sample_world [self_default].

Fixpoint skip_digits (s : string) : string :=
  match s with
  | String c r => if isdigit c then skip_digits r else s
  | EmptyString => s
  end.

(** Descriptors below 0 do not bind; those from 1000 on refuse to be
    shut down. *)
Definition sample_sys : Sys := {|
  ERR_NONE := 0; ERR_FATAL := 2; ERR_ABORT := 4; ERR_WARN := 8;
  ERR_ALERT := 16; ERR_CODE := 7;
  SHUT_RD := 0; SHUT_WR := 1;
  tcp_bind_listener := fun li =>
    if li_fd li <? 0 then (18, li, "cannot bind socket")
    else (0, {| li_fd := li_fd li; li_state := 3 |}, EmptyString);
  shutdown := fun fd how => if fd <? 1000 then 0 else -1;
  listen := fun fd backlog => 0;
  strtoul := fun text base => (read_digits 0 text, skip_digits text)
|}.

Definition fe_new : proxy :=
  sample_frontend 4 "fresh" 1 PR_STNEW 0 10 0 0
    [{| li_fd := 7; li_state := 2 |}; {| li_fd := 8; li_state := 2 |}] None.

Definition fe_bare : proxy :=
  sample_frontend 5 "bare" 1 PR_STRUN 0 10 0 0 [] None.

Definition later : date := {| d_ms := 6000; d_sec := 6; d_usec := 0 |}.

Definition much_later : date := {| d_ms := 7000; d_sec := 7; d_usec := 0 |}.

(** A frontend and a backend that nothing links. *)
Definition sample_switch : world :=
  sample_world [sample_frontend 1 "fe" 5 PR_STRUN 0 10 0 0 [] None; be2].

(** A frontend one of whose listeners refuses to be shut down. *)
Definition fe_stuck : proxy :=
  sample_frontend 6 "stuck" 1 PR_STRUN 0 10 0 0
    [{| li_fd := 7; li_state := 4 |}; {| li_fd := 1000; li_state := 4 |}] None.

(** * Properties *)

(** ** Scanning a list for its first match *)

Lemma find_first_such {A : Type} (f : A -> bool) (l : list A) (x : A) :
  find f l = Some x <-> first_such f l x.
Proof.
  split.
  - induction l as [|a l IH]; simpl; [discriminate|].
    destruct (f a) eqn:Fa.
    + intros [= ->]. exists [], l. repeat split; auto.
    + intros Hx. destruct (IH Hx) as (pre & post & -> & Fx & Hpre).
      exists (a :: pre), post. repeat split; auto.
  - intros (pre & post & -> & Fx & Hpre).
    induction pre as [|a pre IH]; simpl.
    + now rewrite Fx.
    + inversion Hpre as [|? ? Fa Hrest]; subst. rewrite Fa. now apply IH.
Qed.

Lemma find_none_such {A : Type} (f : A -> bool) (l : list A) :
  find f l = None <-> none_such f l.
Proof.
  unfold none_such. induction l as [|a l IH]; simpl.
  - split; auto.
  - destruct (f a) eqn:Fa; split.
    + discriminate.
    + intros Hl. inversion Hl; congruence.
    + intros Hn. constructor; [assumption | now apply IH].
    + intros Hl. inversion Hl; subst. now apply IH.
Qed.

Lemma first_such_unique {A : Type} (f : A -> bool) (l : list A) (x y : A) :
  first_such f l x -> first_such f l y -> x = y.
Proof.
  intros Hx Hy. apply find_first_such in Hx, Hy. congruence.
Qed.

Lemma first_such_not_none {A : Type} (f : A -> bool) (l : list A) (x : A) :
  first_such f l x -> none_such f l -> False.
Proof.
  intros Hx Hn. apply find_first_such in Hx. apply find_none_such in Hn.
  congruence.
Qed.

Lemma Forall2_cons_inv {A B : Type} (R : A -> B -> Prop) (a : A)
    (l : list A) (l2 : list B) :
  Forall2 R (a :: l) l2 ->
  exists b l2', l2 = b :: l2' /\ R a b /\ Forall2 R l l2'.
Proof. intros F. inversion F; subst. eauto. Qed.

Lemma Forall2_compose {A : Type} (P Q R : A -> A -> Prop) (l1 l2 l3 : list A) :
  (forall x y z, P x y -> Q y z -> R x z) ->
  Forall2 P l1 l2 -> Forall2 Q l2 l3 -> Forall2 R l1 l3.
Proof.
  intros HPQ H12. revert l3. induction H12 as [|x y l1 l2 Hxy _ IH];
    intros l3 H23; inversion H23; subst; constructor; eauto.
Qed.

Lemma Forall2_nil_inv {A B : Type} (R : A -> B -> Prop) (l2 : list B) :
  Forall2 R [] l2 -> l2 = [].
Proof. intros F. now inversion F. Qed.

Section Proofs.

Context `{Env}.

Lemma to_int_range (u : Z) : - 2 ^ 31 <= to_int u < 2 ^ 31.
Proof.
  unfold to_int. pose proof (Z.mod_pos_bound u (2 ^ 32) eq_refl) as Hm.
  destruct (Z.ltb_spec (u mod 2 ^ 32) (2 ^ 31)); lia.
Qed.

Lemma has_bits_true (x mask : Z) :
  has_bits x mask = true <-> Z.land x mask <> 0.
Proof.
  unfold has_bits. rewrite negb_true_iff, Z.eqb_neq. tauto.
Qed.

Lemma has_bits_false (x mask : Z) :
  has_bits x mask = false <-> Z.land x mask = 0.
Proof.
  unfold has_bits. rewrite negb_false_iff, Z.eqb_eq. tauto.
Qed.

(** ** get_backend_server *)

Lemma scan_backend_find pid bk_name l :
  scan_backend pid bk_name l = find (backend_matches pid bk_name) l.
Proof.
  induction l as [|p l IH]; simpl; [reflexivity|].
  now rewrite IH.
Qed.

Lemma scan_server_find sid sv_name l :
  scan_server sid sv_name l = find (server_matches sid sv_name) l.
Proof.
  induction l as [|s l IH]; simpl; [reflexivity|].
  now rewrite IH.
Qed.

Lemma backend_matches_spec pid bk_name p :
  backend_matches pid bk_name p = true <->
  Z.land (px_cap p) PR_CAP_BE <> 0 /\
  ((pid <> 0 /\ px_uuid p = pid) \/ (pid = 0 /\ px_id p = bk_name)).
Proof.
  unfold backend_matches, streq.
  rewrite andb_true_iff, orb_true_iff, !andb_true_iff, negb_true_iff,
    has_bits_true, String.eqb_eq, !Z.eqb_eq, Z.eqb_neq.
  tauto.
Qed.

Lemma server_matches_spec sid sv_name s :
  server_matches sid sv_name s = true <->
  (sid <> 0 /\ sv_puid s = sid) \/ (sid = 0 /\ sv_id s = sv_name).
Proof.
  unfold server_matches, streq.
  rewrite orb_true_iff, !andb_true_iff, negb_true_iff,
    String.eqb_eq, !Z.eqb_eq, Z.eqb_neq.
  tauto.
Qed.

Lemma backend_scan_cases w bk_name :
  (exists p, scan_backend (name_id bk_name) bk_name (proxies w) = Some p /\
             first_backend w bk_name p) \/
  (scan_backend (name_id bk_name) bk_name (proxies w) = None /\
   no_backend w bk_name).
Proof.
  unfold first_backend, no_backend. rewrite scan_backend_find.
  destruct (find _ (proxies w)) as [p|] eqn:F.
  - left. exists p. split; [reflexivity|]. now apply find_first_such.
  - right. split; [reflexivity|]. now apply find_none_such.
Qed.

Lemma server_scan_cases p sv_name :
  (exists s, scan_server (name_id sv_name) sv_name (px_srv p) = Some s /\
             first_server p sv_name s) \/
  (scan_server (name_id sv_name) sv_name (px_srv p) = None /\
   no_server p sv_name).
Proof.
  unfold first_server, no_server. rewrite scan_server_find.
  destruct (find _ (px_srv p)) as [s|] eqn:F.
  - left. exists s. split; [reflexivity|]. now apply find_first_such.
  - right. split; [reflexivity|]. now apply find_none_such.
Qed.

Ltac unfold_first :=
  unfold first_backend, no_backend, first_server, no_server in *.

Ltac same_first x y :=
  assert (x = y)
    by (unfold_first;
        match goal with
        | Hx : first_such ?f ?l x, Hy : first_such ?f ?l y |- _ =>
            exact (first_such_unique f l x y Hx Hy)
        end);
  subst x.

Ltac no_first :=
  exfalso; unfold_first;
  match goal with
  | Hf : first_such ?f ?l ?x, Hn : none_such ?f ?l |- _ =>
      exact (first_such_not_none f l x Hf Hn)
  end.

(** C7, as the code has it.  Called with a valid server out-parameter,
    [get_backend_server] returns 1 or 0, and 1 exactly when the first
    proxy of the list that has the BE capability and matches [bk_name]
    exists and the first server of that proxy that matches [sv_name]
    exists.  The number of a name that starts with '#' is what [atoi]
    reads after the '#', an [int]; the number of any other name is 0.
    A name matches by number when its number is not 0: the proxy's
    [uuid], or the server's [puid], is that number.  A name whose
    number is 0, a '#' name that reads as 0 included, matches by
    [strcmp] with the string id, the '#' being part of the name. *)
Theorem get_backend_server_first_match (w : world) (bk_name sv_name : string)
    (bk : out_param) (c : option address) :
  exists r,
    get_backend_server w bk_name sv_name bk (Some c) = Some r /\
    (gbs_ret r = 1 \/ gbs_ret r = 0) /\
    (gbs_ret r = 1 <->
     exists p s, first_backend w bk_name p /\ first_server p sv_name s) /\
    (forall name, starts_with_hash name = true ->
       name_id name = atoi (str_tail name) /\
       - 2 ^ 31 <= name_id name < 2 ^ 31) /\
    (forall name, starts_with_hash name = false -> name_id name = 0) /\
    (forall p, backend_matches (name_id bk_name) bk_name p = true <->
       Z.land (px_cap p) PR_CAP_BE <> 0 /\
       ((name_id bk_name <> 0 /\ px_uuid p = name_id bk_name) \/
        (name_id bk_name = 0 /\ px_id p = bk_name))) /\
    (forall s, server_matches (name_id sv_name) sv_name s = true <->
       (name_id sv_name <> 0 /\ sv_puid s = name_id sv_name) \/
       (name_id sv_name = 0 /\ sv_id s = sv_name)).
Proof.
  assert (Hid1 : forall name, starts_with_hash name = true ->
            name_id name = atoi (str_tail name) /\
            - 2 ^ 31 <= name_id name < 2 ^ 31).
  { intros name Hh. unfold name_id. rewrite Hh. split; [reflexivity|].
    apply to_int_range. }
  assert (Hid0 : forall name, starts_with_hash name = false -> name_id name = 0).
  { intros name Hh. unfold name_id. now rewrite Hh. }
  unfold get_backend_server.
  destruct (backend_scan_cases w bk_name) as [(p & -> & Hp) | (-> & Hnone)].
  - destruct (server_scan_cases p sv_name) as [(s & -> & Hs) | (-> & Hsnone)];
      eexists; (split; [reflexivity|]); simpl;
      (split; [auto|]);
      (split; [|split; [exact Hid1|split; [exact Hid0|
         split; [intros q; apply backend_matches_spec
                |intros q; apply server_matches_spec]]]]).
    + split; [intros _; exists p, s; auto | reflexivity].
    + split; [discriminate|].
      intros (p' & s' & Hp' & Hs').
      same_first p' p.
      no_first.
  - eexists; (split; [reflexivity|]); simpl.
    split; [auto|].
    split; [|split; [exact Hid1|split; [exact Hid0|
       split; [intros q; apply backend_matches_spec
              |intros q; apply server_matches_spec]]]].
    split; [discriminate|].
    intros (p' & s' & Hp' & _).
    no_first.
Qed.

(** C10.  [get_backend_server] dereferences its server out-parameter
    unconditionally, so a NULL one is a fault, while a NULL backend
    out-parameter is accepted and left alone.  Its first store writes
    NULL through the server out-parameter.  When the backend is found
    and the server is not, it returns 0, the backend variable (when
    there is one) holds the found backend and the server variable holds
    NULL; when the backend is missing, it returns 0 and both variables
    (where there is one) hold NULL. *)
Theorem get_backend_server_out_params (w : world) (bk_name sv_name : string)
    (bk : out_param) :
  get_backend_server w bk_name sv_name bk None = None /\
  forall c : option address,
  exists r,
    get_backend_server w bk_name sv_name bk (Some c) = Some r /\
    hd_error (gbs_stores r) = Some (store_sv None) /\
    (bk = None -> gbs_bk r = None) /\
    (forall p, first_backend w bk_name p -> no_server p sv_name ->
       gbs_ret r = 0 /\ gbs_sv r = Some None /\
       (bk <> None -> gbs_bk r = Some (Some (px_addr p)))) /\
    (no_backend w bk_name ->
       gbs_ret r = 0 /\ gbs_sv r = Some None /\
       (bk <> None -> gbs_bk r = Some None)).
Proof.
  split; [reflexivity|].
  intros c. unfold get_backend_server.
  destruct (backend_scan_cases w bk_name) as [(p & -> & Hp) | (-> & Hnone)].
  - destruct (server_scan_cases p sv_name) as [(s & -> & Hs) | (-> & Hsnone)];
      eexists; (split; [reflexivity|]); simpl;
      (split; [reflexivity|]); (split; [now intros ->|]); split.
    + intros p' Hp' Hno.
      same_first p' p.
      no_first.
    + intros Hno. no_first.
    + intros p' Hp' _.
      same_first p' p.
      repeat split. destruct bk; [reflexivity|congruence].
    + intros Hno. no_first.
  - eexists; (split; [reflexivity|]); simpl.
    split; [reflexivity|]. split; [now intros ->|]. split.
    + intros p' Hp' _. no_first.
    + intros _. repeat split. destruct bk; [reflexivity|congruence].
Qed.

(** ** proxy_parse_timeout *)

Lemma timeout_keyword_none (a0 : string) :
  timeout_keyword a0 = None <-> ~ In a0 timeout_names.
Proof.
  unfold timeout_keyword, timeout_names, streq.
  repeat match goal with
         | |- context [String.eqb a0 ?s] =>
             destruct (String.eqb_spec a0 s); simpl
         end;
    split; try discriminate; try reflexivity;
    try (intros Hn; exfalso; apply Hn; subst a0; simpl; tauto).
  simpl. intros _ Hin.
  repeat (destruct Hin as [Hin|Hin]; [symmetry in Hin; contradiction|]).
  exact Hin.
Qed.

Lemma get_set_timeout (f : timeout_field) (v : Z) (t : timeouts) :
  get_timeout f (set_timeout f v t) = v /\
  forall g, g <> f -> get_timeout g (set_timeout f v t) = get_timeout g t.
Proof.
  split.
  - now destruct f.
  - intros g Hg. destruct f, g; try reflexivity; now elim Hg.
Qed.

(** C8.  With [args'] the words after an optional leading "timeout":
    [proxy_parse_timeout] returns -1 and leaves the proxy as it was
    when [args'[0]] is none of the timeout names, when [args'[1]] is
    empty, or when [parse_time_err] rejects [args'[1]].  In every other
    case the parsed value, through [MS_TO_TICKS] and the conversion to
    [int], is stored in the timeout the name selects and in no other;
    the return value is then 1 when the proxy has none of the
    capabilities of that timeout, or when a default proxy is given and
    the proxy's current value differs from the default's, and 0
    otherwise.  The last equation is the table of the names: the field
    and the capabilities each one stands for. *)
Theorem proxy_parse_timeout_result (args : list string) (section : Z)
    (px : proxy) (defpx : option proxy) :
  let args' := if streq (arg 0 args) "timeout" then tl args else args in
  let r := proxy_parse_timeout args section px defpx in
  (~ In (arg 0 args') timeout_names -> pr_ret r = -1 /\ pr_proxy r = px) /\
  (In (arg 0 args') timeout_names ->
   exists name f cap,
     timeout_keyword (arg 0 args') = Some (name, f, cap) /\
     (arg 1 args' = EmptyString -> pr_ret r = -1 /\ pr_proxy r = px) /\
     (forall c, arg 1 args' <> EmptyString ->
        parse_time_err (arg 1 args') TIME_UNIT_MS = inl c ->
        pr_ret r = -1 /\ pr_proxy r = px) /\
     (forall timeout, arg 1 args' <> EmptyString ->
        parse_time_err (arg 1 args') TIME_UNIT_MS = inr timeout ->
        let ticks := to_int (MS_TO_TICKS timeout) in
        let overridden :=
          exists d, defpx = Some d /\
                    get_timeout f (px_timeout px) <> get_timeout f (px_timeout d) in
        pr_proxy r = set_px_timeout (set_timeout f ticks (px_timeout px)) px /\
        get_timeout f (px_timeout (pr_proxy r)) = ticks /\
        (forall g, g <> f ->
           get_timeout g (px_timeout (pr_proxy r)) = get_timeout g (px_timeout px)) /\
        (Z.land (px_cap px) cap = 0 \/ overridden -> pr_ret r = 1) /\
        (~ (Z.land (px_cap px) cap = 0 \/ overridden) -> pr_ret r = 0))) /\
  map timeout_keyword timeout_names =
    [Some ("client", tf_client, PR_CAP_FE);
     Some ("client", tf_client, PR_CAP_FE);
     Some ("tarpit", tf_tarpit, Z.lor PR_CAP_FE PR_CAP_BE);
     Some ("http-keep-alive", tf_httpka, Z.lor PR_CAP_FE PR_CAP_BE);
     Some ("http-request", tf_httpreq, Z.lor PR_CAP_FE PR_CAP_BE);
     Some ("server", tf_server, PR_CAP_BE);
     Some ("server", tf_server, PR_CAP_BE);
     Some ("connect", tf_connect, PR_CAP_BE);
     Some ("connect", tf_connect, PR_CAP_BE);
     Some ("check", tf_check, PR_CAP_BE);
     Some ("queue", tf_queue, PR_CAP_BE)].
Proof.
  intros args' r. subst r. unfold proxy_parse_timeout. fold args'.
  split; [|split; [|reflexivity]].
  - intros Hname. apply timeout_keyword_none in Hname. rewrite Hname.
    split; reflexivity.
  - intros Hname.
    destruct (timeout_keyword (arg 0 args')) as [[[name f] cap]|] eqn:K.
    2: { apply timeout_keyword_none in K. contradiction. }
    exists name, f, cap. split; [reflexivity|].
    unfold streq.
    destruct (String.eqb_spec (arg 1 args') EmptyString) as [E|E].
    + split; [intros _; split; reflexivity|].
      split; intros; contradiction.
    + split; [intros E'; contradiction|].
      split.
      * intros c _ P. rewrite P. split; reflexivity.
      * intros timeout _ P. cbv zeta. rewrite P.
        pose proof (get_set_timeout f (to_int (MS_TO_TICKS timeout))
                      (px_timeout px)) as [Hget Hother].
        destruct (has_bits (px_cap px) cap) eqn:Hcap; simpl.
        -- apply has_bits_true in Hcap.
           destruct defpx as [d|].
           ++ destruct (Z.eqb_spec (get_timeout f (px_timeout px))
                                   (get_timeout f (px_timeout d))) as [Q|Q]; simpl;
                (split; [reflexivity|]); (split; [exact Hget|]);
                (split; [exact Hother|]); split; try reflexivity.
              ** intros [Z0|(d' & [= <-] & Hd)]; contradiction.
              ** intros Hno. elim Hno. right. exists d. auto.
           ++ (split; [reflexivity|]); (split; [exact Hget|]);
                (split; [exact Hother|]); split; try reflexivity.
              intros [Z0|(d' & D & _)]; [contradiction|discriminate].
        -- apply has_bits_false in Hcap.
           (split; [reflexivity|]); (split; [exact Hget|]);
             (split; [exact Hother|]); split; try reflexivity.
           intros Hno. elim Hno. now left.
Qed.

(** ** addbackend *)

Lemma name_clash_spec (cap : Z) (id : string) (q : proxy) :
  name_clash cap id q = true <->
  px_id q = id /\
  ~ (cap = Z.lor PR_CAP_FE PR_CAP_RS /\ px_cap q = Z.lor PR_CAP_BE PR_CAP_RS) /\
  ~ (cap = Z.lor PR_CAP_BE PR_CAP_RS /\ px_cap q = Z.lor PR_CAP_FE PR_CAP_RS).
Proof.
  unfold name_clash, streq.
  rewrite !andb_true_iff, !orb_true_iff, !negb_true_iff, String.eqb_eq,
    !Z.eqb_neq.
  destruct (Z.eq_dec cap (Z.lor PR_CAP_FE PR_CAP_RS));
    destruct (Z.eq_dec (px_cap q) (Z.lor PR_CAP_BE PR_CAP_RS));
    destruct (Z.eq_dec cap (Z.lor PR_CAP_BE PR_CAP_RS));
    destruct (Z.eq_dec (px_cap q) (Z.lor PR_CAP_FE PR_CAP_RS)); tauto.
Qed.

(** With the capability set of a new backend, a proxy clashes exactly
    when it bears the name and is not a FE+RS proxy. *)
Lemma backend_clash_spec (id : string) (q : proxy) :
  name_clash (Z.lor PR_CAP_BE PR_CAP_RS) id q = true <->
  px_id q = id /\ px_cap q <> Z.lor PR_CAP_FE PR_CAP_RS.
Proof.
  rewrite name_clash_spec.
  destruct (Z.eq_dec (Z.lor PR_CAP_BE PR_CAP_RS) (Z.lor PR_CAP_FE PR_CAP_RS))
    as [E|E].
  - rewrite E. intuition congruence.
  - intuition congruence.
Qed.

Lemma find_clash_find (cap : Z) (id : string) (l : list proxy) :
  find_clash cap id l = find (name_clash cap id) l.
Proof.
  induction l as [|q l IH]; simpl; [reflexivity|]. now rewrite IH.
Qed.

Lemma find_clash_some (id : string) (l : list proxy) (q : proxy) :
  In q l -> px_id q = id -> px_cap q <> Z.lor PR_CAP_FE PR_CAP_RS ->
  exists q', find_clash (Z.lor PR_CAP_BE PR_CAP_RS) id l = Some q'.
Proof.
  intros Hin Hid Hcap. rewrite find_clash_find.
  destruct (find _ l) as [q'|] eqn:F; [now exists q'|].
  apply find_none_such in F. unfold none_such in F.
  rewrite Forall_forall in F. specialize (F q Hin).
  assert (T : name_clash (Z.lor PR_CAP_BE PR_CAP_RS) id q = true)
    by (apply backend_clash_spec; auto).
  congruence.
Qed.

Lemma find_clash_none (id : string) (l : list proxy) :
  (forall q, In q l -> px_id q = id -> px_cap q = Z.lor PR_CAP_FE PR_CAP_RS) ->
  find_clash (Z.lor PR_CAP_BE PR_CAP_RS) id l = None.
Proof.
  intros Hall. rewrite find_clash_find. apply find_none_such.
  unfold none_such. rewrite Forall_forall. intros q Hin.
  destruct (name_clash _ id q) eqn:C; [|reflexivity].
  apply backend_clash_spec in C. destruct C as [Hid Hcap].
  elim Hcap. now apply Hall.
Qed.

(** C3.  [addbackend] returns 1 and leaves the list of proxies as it
    was when the name is empty, when [invalid_char] finds a character
    in it, or when a proxy of the list has that name and a capability
    set other than FE+RS.  The test it makes on each proxy lets a pair
    of equal names pass exactly when one side is FE+RS and the other
    BE+RS; a new backend being BE+RS, a name that is non-empty, valid
    and borne by FE+RS proxies only is accepted: given memory, 0 is
    returned and a BE+RS proxy of that name is put in front of the
    list.  After a successful call a second call with the same name
    returns 1 and adds nothing, as long as FE+RS and BE+RS are
    different capability sets. *)
Theorem addbackend_name_checks (m : addbackend_mem) (id : string) (w : world) :
  let r := addbackend m id w in
  (id = EmptyString -> fst r = 1 /\ proxies (snd r) = proxies w) /\
  (forall c, invalid_char id = Some c ->
     fst r = 1 /\ proxies (snd r) = proxies w) /\
  (forall q, In q (proxies w) -> px_id q = id ->
     px_cap q <> Z.lor PR_CAP_FE PR_CAP_RS ->
     fst r = 1 /\ proxies (snd r) = proxies w) /\
  (forall cap q,
     name_clash cap id q = false <->
     px_id q <> id \/
     (cap = Z.lor PR_CAP_FE PR_CAP_RS /\ px_cap q = Z.lor PR_CAP_BE PR_CAP_RS) \/
     (cap = Z.lor PR_CAP_BE PR_CAP_RS /\ px_cap q = Z.lor PR_CAP_FE PR_CAP_RS)) /\
  (forall a, id <> EmptyString -> invalid_char id = None ->
     (forall q, In q (proxies w) -> px_id q = id ->
                px_cap q = Z.lor PR_CAP_FE PR_CAP_RS) ->
     mem_proxy m = Some a ->
     fst r = 0 /\
     exists p, proxies (snd r) = p :: proxies w /\ px_addr p = a /\
               px_id p = id /\ px_cap p = Z.lor PR_CAP_BE PR_CAP_RS) /\
  (Z.lor PR_CAP_FE PR_CAP_RS <> Z.lor PR_CAP_BE PR_CAP_RS ->
   fst r = 0 ->
   forall m', fst (addbackend m' id (snd r)) = 1 /\
              proxies (snd (addbackend m' id (snd r))) = proxies (snd r)).
Proof.
  intros r.
  assert (Hfail : forall q, In q (proxies w) -> px_id q = id ->
            px_cap q <> Z.lor PR_CAP_FE PR_CAP_RS ->
            forall m0, fst (addbackend m0 id w) = 1 /\
                       proxies (snd (addbackend m0 id w)) = proxies w).
  { intros q Hin Hid Hcap m0. unfold addbackend, streq.
    destruct (String.eqb id EmptyString); [split; reflexivity|].
    destruct (invalid_char id); [split; reflexivity|].
    destruct (find_clash_some id (proxies w) q Hin Hid Hcap) as [q' ->].
    split; reflexivity. }
  assert (Hok : forall a, id <> EmptyString -> invalid_char id = None ->
            (forall q, In q (proxies w) -> px_id q = id ->
                       px_cap q = Z.lor PR_CAP_FE PR_CAP_RS) ->
            mem_proxy m = Some a ->
            fst r = 0 /\
            exists p, proxies (snd r) = p :: proxies w /\ px_addr p = a /\
                      px_id p = id /\ px_cap p = Z.lor PR_CAP_BE PR_CAP_RS).
  { intros a Hne Hvalid Hall Hmem. subst r. unfold addbackend, streq.
    destruct (String.eqb_spec id EmptyString) as [E|_]; [contradiction|].
    rewrite Hvalid, (find_clash_none id (proxies w) Hall), Hmem. simpl.
    split; [reflexivity|]. eexists. split; [reflexivity|].
    repeat split; reflexivity. }
  split; [|split; [|split; [|split; [|split]]]].
  - intros ->. split; reflexivity.
  - intros c Hc. subst r. unfold addbackend.
    destruct (streq id EmptyString); [split; reflexivity|].
    rewrite Hc. split; reflexivity.
  - intros q Hin Hid Hcap. now apply (Hfail q).
  - intros cap q.
    pose proof (name_clash_spec cap id q) as S.
    destruct (name_clash cap id q).
    + split; [discriminate|]. intros Hd. exfalso.
      destruct S as [S _]. specialize (S eq_refl). tauto.
    + split; [|reflexivity]. intros _.
      destruct (string_dec (px_id q) id) as [E|E]; [|now left].
      destruct (Z.eq_dec cap (Z.lor PR_CAP_FE PR_CAP_RS)) as [C1|C1];
        destruct (Z.eq_dec (px_cap q) (Z.lor PR_CAP_BE PR_CAP_RS)) as [C2|C2];
        destruct (Z.eq_dec cap (Z.lor PR_CAP_BE PR_CAP_RS)) as [C3|C3];
        destruct (Z.eq_dec (px_cap q) (Z.lor PR_CAP_FE PR_CAP_RS)) as [C4|C4];
        try tauto;
        exfalso; assert (F : false = true) by (apply S; tauto); discriminate F.
  - exact Hok.
  - intros Hdiff Hret m'.
    assert (Hsucc : exists p, proxies (snd r) = p :: proxies w /\
              px_id p = id /\ px_cap p = Z.lor PR_CAP_BE PR_CAP_RS).
    { subst r. revert Hret. unfold addbackend.
      destruct (streq id EmptyString); [discriminate|].
      destruct (invalid_char id); [discriminate|].
      destruct (find_clash _ id (proxies w)); [discriminate|].
      destruct (mem_proxy m); [|discriminate].
      intros _. simpl. eexists. split; [reflexivity|]. split; reflexivity. }
    destruct Hsucc as (p & Hl & Hid & Hcap).
    assert (Hin : In p (proxies (snd r))) by (rewrite Hl; now left).
    assert (Hne : px_cap p <> Z.lor PR_CAP_FE PR_CAP_RS) by congruence.
    unfold addbackend, streq.
    destruct (String.eqb id EmptyString); [split; reflexivity|].
    destruct (invalid_char id); [split; reflexivity|].
    destruct (find_clash_some id (proxies (snd r)) p Hin Hid Hne) as [q' ->].
    split; reflexivity.
Qed.

(** ** findproxy, findserver, addserver *)

Lemma findproxy_loop_in target name cap l p :
  findproxy_loop target name cap l = Some p -> target = Some p \/ In p l.
Proof.
  revert target. induction l as [|q l IH]; simpl; intros target.
  - auto.
  - destruct (negb _ || negb _).
    + intros Hf. destruct (IH _ Hf); auto.
    + destruct target as [t|]; [discriminate|].
      intros Hf. destruct (IH _ Hf) as [[= ->]|]; auto.
Qed.

Lemma findproxy_in name cap w p :
  findproxy name cap w = Some p -> In p (proxies w).
Proof.
  unfold findproxy. intros Hf.
  destruct (findproxy_loop_in _ _ _ _ _ Hf); [discriminate|assumption].
Qed.

Lemma addr_eqb_refl (a : address) : addr_eqb a a = true.
Proof. apply Pos.eqb_refl. Qed.

Lemma update_proxy_in (f : proxy -> proxy) (l : list proxy) (p : proxy) :
  In p l -> In (f p) (update_proxy (px_addr p) f l).
Proof.
  intros Hin. unfold update_proxy.
  apply in_map_iff. exists p. now rewrite addr_eqb_refl.
Qed.

(** With a target already found, any further match makes the name
    ambiguous. *)
Lemma findserver_loop_found px t name l :
  findserver_loop px (Some t) name l =
  match named name l with
  | [] => (Some t, [])
  | _ => (None, [duplicate_alert px name])
  end.
Proof.
  unfold named. induction l as [|s l IH]; simpl; [reflexivity|].
  destruct (streq (sv_id s) name); simpl; [reflexivity|exact IH].
Qed.

Lemma findserver_loop_fresh px name l :
  findserver_loop px None name l =
  match named name l with
  | [] => (None, [])
  | [s] => (Some s, [])
  | _ => (None, [duplicate_alert px name])
  end.
Proof.
  unfold named. induction l as [|s l IH]; simpl; [reflexivity|].
  destruct (streq (sv_id s) name); simpl; [|exact IH].
  rewrite findserver_loop_found. unfold named.
  now destruct (filter _ l).
Qed.

Lemma findserver_unique px name :
  fst (findserver (Some px) name) =
  match named name (px_srv px) with
  | [s] => Some s
  | _ => None
  end.
Proof.
  simpl. rewrite findserver_loop_fresh.
  now destruct (named name (px_srv px)) as [|s [|s' l]].
Qed.

(** What [addserver] does once its checks have passed. *)
Lemma addserver_goes_through m pxid svid addr cookie w px a cd t sk :
  addserver_ready m pxid svid addr w px a cd t sk ->
  let newsrv :=
    new_server a cd t px sk svid cookie
      (emit_all (snd (findserver (Some px) svid)) w) in
  exists w1,
    addserver m pxid svid addr cookie w = (Some a, w1) /\
    proxies w1 =
      update_proxy (px_addr px) (fun p => set_px_srv (newsrv :: px_srv p) p)
        (proxies w) /\
    trace w1 =
      trace w ++ snd (findserver (Some px) svid)
      ++ [task_queue {| t_addr := t; t_process := Some process_chk;
                        t_context := Some a;
                        t_expire := tick_add (now_ms w) (srv_getinter newsrv) |};
          set_server_up newsrv].
Proof.
  intros (Hpx & Hdup & Ha & Hcd & Ht & Hsk) newsrv. subst newsrv.
  unfold addserver. rewrite Hpx.
  destruct (findserver (Some px) svid) as [dup alerts]. simpl in Hdup.
  subst dup. rewrite Ha, Hsk, Hcd, Ht.
  eexists. split; [reflexivity|]. split; [reflexivity|].
  simpl. rewrite <- !app_assoc. reflexivity.
Qed.

Lemma findproxy_loop_map (g : proxy -> proxy) target name cap l :
  (forall q, px_cap (g q) = px_cap q /\ px_id (g q) = px_id q) ->
  findproxy_loop (option_map g target) name cap (map g l) =
  option_map g (findproxy_loop target name cap l).
Proof.
  intros Hg. revert target. induction l as [|q l IH]; simpl; intros target.
  - reflexivity.
  - destruct (Hg q) as [-> ->].
    destruct (negb _ || negb _); [apply IH|].
    destruct target as [t|]; simpl; [reflexivity|].
    apply (IH (Some q)).
Qed.

(** An update of the proxy at [a] that keeps names and capabilities
    shows through [findproxy]. *)
Lemma findproxy_update (a : address) (f : proxy -> proxy) name cap w w1 :
  (forall q, px_cap (f q) = px_cap q /\ px_id (f q) = px_id q) ->
  proxies w1 = update_proxy a f (proxies w) ->
  findproxy name cap w1 =
  option_map (fun q => if addr_eqb (px_addr q) a then f q else q)
             (findproxy name cap w).
Proof.
  intros Hf Hl. unfold findproxy. rewrite Hl. unfold update_proxy.
  change (@None proxy)
    with (option_map (fun q => if addr_eqb (px_addr q) a then f q else q) None)
    at 1.
  apply findproxy_loop_map.
  intros q. destruct (addr_eqb (px_addr q) a); [apply Hf|split; reflexivity].
Qed.

Lemma update_proxy_linked (a : address) (newsrv : server) (l : list proxy) :
  Forall2 (linked_at a newsrv) l
    (update_proxy a (fun p => set_px_srv (newsrv :: px_srv p) p) l).
Proof.
  unfold update_proxy, addr_eqb. induction l as [|q l IH]; simpl;
    constructor; [|exact IH].
  destruct (Pos.eqb_spec (px_addr q) a) as [E|E]; split; intros; try reflexivity;
    contradiction.
Qed.

Lemma addserver_success_ready m pxid svid addr cookie w a w1 :
  addserver m pxid svid addr cookie w = (Some a, w1) ->
  exists px cd t sk, addserver_ready m pxid svid addr w px a cd t sk.
Proof.
  unfold addserver, addserver_ready.
  destruct (findproxy pxid PR_CAP_BE w) as [px|]; [|discriminate].
  destruct (findserver (Some px) svid) as [[dup|] alerts] eqn:F; [discriminate|].
  destruct (mem_server m) as [a'|]; [|discriminate].
  destruct (str2sa addr) as [sk|]; [|discriminate].
  destruct (mem_check_data m) as [cd|]; [|discriminate].
  destruct (mem_task m) as [t|]; [|discriminate].
  intros [= <- _]. exists px, cd, t, sk. rewrite F. repeat split; reflexivity.
Qed.

(** C2, as the code has it.  [addserver] returns a server exactly when
    the named backend is found, [findserver] reports no server of the
    name, the allocations succeed and the address is understood.  It
    then returns the new server [newsrv].  The backend that [findproxy]
    designates afterwards is the same struct, and its list of servers
    is [newsrv] followed by the servers it had; the other proxies are
    as they were.  [newsrv] has the name, the cookie, the address and
    the back-pointer given; the port is [htons(80)] when the address
    has port 0, and [check_port] is that port in host order.  The check
    intervals, rise, fall, queue limit, minconn, slowstart, error
    action and limit come from the fields of the same name of the
    backend's [defsrv]; both weights come from [defsrv.iweight];
    maxconn comes from the backend's own maxconn.  [newsrv] has state
    MAINTAIN | CHECKED, health = rise and
    eweight = uweight * BE_WEIGHT_SCALE.  The check task has
    [process_chk] as processor, the server as context and
    [tick_add(now_ms, srv_getinter(newsrv))] as expiry; it is queued,
    and [set_server_up(newsrv)] is the last call made. *)
Theorem addserver_new_server (m : addserver_mem)
    (pxid svid addr cookie : string) (w : world) :
  (forall a w1, addserver m pxid svid addr cookie w = (Some a, w1) ->
     exists px cd t sk, addserver_ready m pxid svid addr w px a cd t sk) /\
  (forall px a cd t sk, addserver_ready m pxid svid addr w px a cd t sk ->
     exists newsrv w1 px',
       addserver m pxid svid addr cookie w = (Some a, w1) /\
       findproxy pxid PR_CAP_BE w1 = Some px' /\
       px_addr px' = px_addr px /\
       px_srv px' = newsrv :: px_srv px /\
       Forall2 (linked_at (px_addr px) newsrv) (proxies w) (proxies w1) /\
       sv_addr newsrv = a /\ sv_id newsrv = svid /\ sv_cookie newsrv = cookie /\
       sv_proxy newsrv = Some (px_addr px) /\
       sin_addr (sv_sockaddr newsrv) = sin_addr sk /\
       sin_port (sv_sockaddr newsrv) =
         (if sin_port sk =? 0 then htons 80 else sin_port sk) /\
       sv_check_port newsrv = ntohs (sin_port (sv_sockaddr newsrv)) /\
       from_defsrv newsrv (px_defsrv px) /\
       sv_uweight newsrv = sv_iweight (px_defsrv px) /\
       sv_iweight newsrv = sv_iweight (px_defsrv px) /\
       sv_maxconn newsrv = px_maxconn px /\
       sv_state newsrv = Z.lor SRV_MAINTAIN SRV_CHECKED /\
       sv_health newsrv = sv_rise newsrv /\
       sv_eweight newsrv = sv_uweight newsrv * BE_WEIGHT_SCALE /\
       sv_check newsrv = Some t /\
       trace w1 =
         trace w ++ snd (findserver (Some px) svid)
         ++ [task_queue {| t_addr := t; t_process := Some process_chk;
                           t_context := Some (sv_addr newsrv);
                           t_expire :=
                             tick_add (now_ms w) (srv_getinter newsrv) |};
             set_server_up newsrv]).
Proof.
  split.
  - intros a w1. apply addserver_success_ready.
  - intros px a cd t sk Hready.
    destruct (addserver_goes_through m pxid svid addr cookie w px a cd t sk Hready)
      as (w1 & Hrun & Hlist & Htrace).
    set (newsrv := new_server a cd t px sk svid cookie
                     (emit_all (snd (findserver (Some px) svid)) w)) in *.
    assert (Hfind : findproxy pxid PR_CAP_BE w1 =
                    Some (set_px_srv (newsrv :: px_srv px) px)).
    { rewrite (findproxy_update (px_addr px)
                 (fun p => set_px_srv (newsrv :: px_srv p) p) pxid PR_CAP_BE w w1)
        by (auto; intros q; split; reflexivity).
      destruct Hready as (Hpx & _). rewrite Hpx. simpl.
      now rewrite addr_eqb_refl. }
    exists newsrv, w1, (set_px_srv (newsrv :: px_srv px) px).
    split; [exact Hrun|]. split; [exact Hfind|].
    split; [reflexivity|]. split; [reflexivity|].
    split; [rewrite Hlist; apply update_proxy_linked|].
    repeat split; try reflexivity. exact Htrace.
Qed.

(** C9.  [findserver] returns a server only when exactly one server of
    the proxy bears the name; two or more, like none, give NULL.  So
    when the backend already holds two or more servers named [svid],
    [addserver] passes its duplicate check and, given memory and a
    valid address, returns a further server of that name: the backend
    that [findproxy] designates afterwards has it at the head of its
    list, before the servers it had, and so holds one more server of
    that name, three at least; [findserver] still reports none.  The
    duplicate check stops [addserver] exactly when one server bears the
    name. *)
Theorem addserver_ambiguous_name (m : addserver_mem)
    (pxid svid addr cookie : string) (w : world) (px : proxy) :
  findproxy pxid PR_CAP_BE w = Some px ->
  (fst (findserver (Some px) svid) <> None <->
   List.length (named svid (px_srv px)) = 1%nat) /\
  ((2 <= List.length (named svid (px_srv px)))%nat ->
   fst (findserver (Some px) svid) = None /\
   forall a cd t sk,
     mem_server m = Some a -> mem_check_data m = Some cd ->
     mem_task m = Some t -> str2sa addr = Some sk ->
     exists newsrv w1 px',
       addserver m pxid svid addr cookie w = (Some a, w1) /\
       sv_addr newsrv = a /\ sv_id newsrv = svid /\
       findproxy pxid PR_CAP_BE w1 = Some px' /\
       px_addr px' = px_addr px /\
       px_srv px' = newsrv :: px_srv px /\
       List.length (named svid (px_srv px')) =
         S (List.length (named svid (px_srv px))) /\
       (3 <= List.length (named svid (px_srv px')))%nat /\
       fst (findserver (Some px') svid) = None).
Proof.
  intros Hpx. rewrite findserver_unique.
  split.
  - destruct (named svid (px_srv px)) as [|s [|s' l]]; simpl;
      split; try congruence; try discriminate; try lia.
  - intros Hlen.
    assert (Hnone : match named svid (px_srv px) with
                    | [s] => Some s
                    | _ => None
                    end = None).
    { destruct (named svid (px_srv px)) as [|s [|s' l]]; simpl in *;
        try reflexivity; lia. }
    split; [exact Hnone|].
    intros a cd t sk Ha Hcd Ht Hsk.
    assert (Hready : addserver_ready m pxid svid addr w px a cd t sk).
    { unfold addserver_ready. rewrite findserver_unique. auto 10. }
    destruct (addserver_goes_through m pxid svid addr cookie w px a cd t sk Hready)
      as (w1 & Hrun & Hlist & _).
    set (newsrv := new_server a cd t px sk svid cookie
                     (emit_all (snd (findserver (Some px) svid)) w)) in *.
    set (px' := set_px_srv (newsrv :: px_srv px) px).
    assert (Hfind : findproxy pxid PR_CAP_BE w1 = Some px').
    { rewrite (findproxy_update (px_addr px)
                 (fun p => set_px_srv (newsrv :: px_srv p) p) pxid PR_CAP_BE w w1)
        by (auto; intros q; split; reflexivity).
      rewrite Hpx. simpl. now rewrite addr_eqb_refl. }
    assert (Hsrv : px_srv px' = newsrv :: px_srv px) by reflexivity.
    exists newsrv, w1, px'.
    split; [exact Hrun|].
    split; [reflexivity|]. split; [reflexivity|].
    split; [exact Hfind|]. split; [reflexivity|]. split; [exact Hsrv|].
    assert (Hone : List.length (named svid (px_srv px')) =
                   S (List.length (named svid (px_srv px)))).
    { rewrite Hsrv. unfold named. simpl. unfold streq at 1.
      rewrite String.eqb_refl. reflexivity. }
    split; [exact Hone|]. split; [lia|].
    rewrite findserver_unique.
    destruct (named svid (px_srv px')) as [|s [|s' l]]; simpl in *;
      try reflexivity; lia.
Qed.

(** ** delserver, delbackend *)

Lemma streq_refl (a : string) : streq a a = true.
Proof. apply String.eqb_refl. Qed.

Lemma addr_eqb_eq (a b : address) : addr_eqb a b = true <-> a = b.
Proof. apply Pos.eqb_eq. Qed.

Lemma ptr_eqb_some (q : option address) (a : address) :
  ptr_eqb q (Some a) = true <-> q = Some a.
Proof.
  destruct q as [b|]; simpl.
  - rewrite addr_eqb_eq. split; congruence.
  - split; discriminate.
Qed.

Lemma reference_to_spec (p q : proxy) :
  reference_to p q <> None <-> refers_to (px_addr p) q.
Proof.
  unfold reference_to, refers_to.
  destruct (ptr_eqb (px_defbe q) (Some (px_addr p))) eqn:D.
  - apply ptr_eqb_some in D. split; [auto|discriminate].
  - destruct (existsb _ (px_switching_rules q)) eqn:E.
    + apply existsb_exists in E. destruct E as (rule & Hin & Hr).
      apply ptr_eqb_some in Hr. split; [|discriminate].
      intros _. right. now exists rule.
    + split; [congruence|]. intros [Hd|(rule & Hin & Hr)].
      * apply ptr_eqb_some in Hd. congruence.
      * assert (T : existsb (fun rule => ptr_eqb (sr_backend rule)
                                             (Some (px_addr p)))
                      (px_switching_rules q) = true).
        { apply existsb_exists. exists rule. split; [assumption|].
          now apply ptr_eqb_some. }
        congruence.
Qed.

Lemma find_reference_spec (p : proxy) (l : list proxy) :
  find_reference p l <> None <->
  exists q, In q l /\ refers_to (px_addr p) q.
Proof.
  induction l as [|q l IH]; simpl.
  - split; [congruence|]. intros (q & [] & _).
  - pose proof (reference_to_spec p q) as R.
    destruct (reference_to p q) as [ev|].
    + split; [|discriminate]. intros _. exists q. split; [now left|].
      apply R. discriminate.
    + rewrite IH. split.
      * intros (q' & Hin & Hr). exists q'. auto.
      * intros (q' & [<-|Hin] & Hr).
        -- exfalso. apply R in Hr. congruence.
        -- exists q'. auto.
Qed.

Lemma proxy_at_addr (a : address) (w : world) (p : proxy) :
  proxy_at a w = Some p -> px_addr p = a /\ In p (proxies w).
Proof.
  unfold proxy_at. intros Hf. apply find_some in Hf.
  destruct Hf as [Hin Ha]. apply addr_eqb_eq in Ha. auto.
Qed.

Lemma set_px_srv_same (p : proxy) : set_px_srv (px_srv p) p = p.
Proof. now destruct p. Qed.

Lemma set_px_srv_twice (l l' : list server) (p : proxy) :
  set_px_srv l (set_px_srv l' p) = set_px_srv l p.
Proof. reflexivity. Qed.

(** Updating the proxy at [a] changes what [a] designates accordingly. *)
Lemma find_update_proxy (a : address) (f : proxy -> proxy) (l : list proxy) :
  (forall q, px_addr (f q) = px_addr q) ->
  find (fun p => addr_eqb (px_addr p) a) (update_proxy a f l) =
  option_map f (find (fun p => addr_eqb (px_addr p) a) l).
Proof.
  intros Hf. unfold update_proxy. induction l as [|q l IH]; simpl; [reflexivity|].
  destruct (addr_eqb (px_addr q) a) eqn:E.
  - rewrite Hf, E. reflexivity.
  - rewrite E. exact IH.
Qed.

(** An update that keeps names and capabilities commutes with
    [findproxy]. *)
Lemma update_proxy_absent (a : address) (f : proxy -> proxy) (l : list proxy) :
  ~ In a (map px_addr l) -> update_proxy a f l = l.
Proof.
  unfold update_proxy. induction l as [|q l IH]; simpl; [reflexivity|].
  intros Hn. destruct (addr_eqb (px_addr q) a) eqn:E.
  - apply addr_eqb_eq in E. tauto.
  - rewrite IH; tauto.
Qed.

Lemma unlink_update_proxy (a : address) (f : proxy -> proxy) (l : list proxy) :
  (forall q, px_addr (f q) = px_addr q) ->
  NoDup (map px_addr l) ->
  unlink_proxy a (update_proxy a f l) = unlink_proxy a l.
Proof.
  intros Hf. induction l as [|q l IH]; simpl; [reflexivity|].
  intros Hnd. inversion Hnd as [|? ? Hq Hl]; subst.
  destruct (addr_eqb (px_addr q) a) eqn:E.
  - rewrite Hf, E. apply addr_eqb_eq in E. subst a.
    now apply update_proxy_absent.
  - rewrite E. f_equal. now apply IH.
Qed.

Lemma update_proxy_twice (a : address) (f g : proxy -> proxy) (l : list proxy) :
  (forall q, px_addr (f q) = px_addr q) ->
  update_proxy a g (update_proxy a f l) = update_proxy a (fun q => g (f q)) l.
Proof.
  intros Hf. unfold update_proxy. rewrite map_map. apply map_ext.
  intros q. destruct (addr_eqb (px_addr q) a) eqn:E.
  - now rewrite Hf, E.
  - now rewrite E.
Qed.

(** [delserver] on the first server of a backend whose name designates
    it and whose servers have distinct names. *)
Lemma delserver_head (w : world) (p : proxy) (s : server) (rest : list server) :
  findproxy (px_id p) PR_CAP_BE w = Some p ->
  px_srv p = s :: rest ->
  ~ In (sv_id s) (map sv_id rest) ->
  let w1 := snd (delserver (px_id p) (sv_id s) w) in
  fst (delserver (px_id p) (sv_id s) w) = 0 /\
  proxies w1 =
    update_proxy (px_addr p)
      (fun q => set_px_srv (unlink_server (sv_addr s) (px_srv q)) q) (proxies w) /\
  trace w1 = trace w ++ delserver_calls s.
Proof.
  intros Hpx Hsrv Hfresh. cbv zeta.
  assert (Hnone : filter (fun s0 => streq (sv_id s0) (sv_id s)) rest = []).
  { clear Hsrv. induction rest as [|s' rest IH]; simpl; [reflexivity|].
    simpl in Hfresh. unfold streq at 1.
    destruct (String.eqb_spec (sv_id s') (sv_id s)) as [E|E].
    - exfalso. apply Hfresh. left. exact E.
    - apply IH. tauto. }
  unfold delserver. rewrite Hpx.
  unfold findserver. rewrite findserver_loop_fresh, Hsrv.
  unfold named. simpl filter. rewrite streq_refl, Hnone.
  simpl. repeat split. now rewrite app_nil_r.
Qed.

Lemma delete_servers_done (fuel : nat) (px : address) (w w1 : world) :
  delete_servers fuel px w = Some w1 ->
  exists p1, proxy_at px w1 = Some p1 /\ px_srv p1 = [].
Proof.
  revert w. induction fuel as [|fuel IH]; simpl; intros w; [discriminate|].
  destruct (proxy_at px w) as [p|] eqn:P; [|discriminate].
  destruct (px_srv p) as [|s rest] eqn:S.
  - intros [= <-]. exists p. auto.
  - apply IH.
Qed.

(** The loop of [delbackend] ends, with every server deleted in turn. *)
Lemma delete_servers_total (px : address) (srv : list server) :
  forall (fuel : nat) (w : world) (p : proxy),
    proxy_at px w = Some p ->
    px_srv p = srv ->
    findproxy (px_id p) PR_CAP_BE w = Some p ->
    NoDup (map sv_id srv) ->
    (List.length srv < fuel)%nat ->
    exists w1 F,
      delete_servers fuel px w = Some w1 /\
      (forall q, px_addr (F q) = px_addr q) /\
      proxies w1 = update_proxy px F (proxies w) /\
      trace w1 = trace w ++ flat_map delserver_calls srv.
Proof.
  induction srv as [|s rest IH]; intros fuel w p Hat Hsrv Hfind Hnd Hfuel;
    (destruct fuel as [|fuel]; [simpl in Hfuel; lia|]); simpl; rewrite Hat, Hsrv.
  - exists w, (fun q => q). split; [reflexivity|]. split; [reflexivity|].
    split.
    + unfold update_proxy. rewrite <- (map_id (proxies w)) at 1.
      apply map_ext. intros q. now destruct (addr_eqb _ _).
    + now rewrite app_nil_r.
  - inversion Hnd as [|? ? Hfresh Hnd']; subst.
    destruct (proxy_at_addr _ _ _ Hat) as [Ha _].
    destruct (delserver_head w p s rest Hfind Hsrv Hfresh) as (_ & Hl & Ht).
    set (w1 := snd (delserver (px_id p) (sv_id s) w)) in *.
    set (f := fun q => set_px_srv (unlink_server (sv_addr s) (px_srv q)) q) in *.
    assert (Hf : forall q, px_addr (f q) = px_addr q) by reflexivity.
    assert (Hp' : f p = set_px_srv rest p).
    { unfold f. rewrite Hsrv. simpl. now rewrite addr_eqb_refl. }
    rewrite Ha in Hl.
    assert (Hat' : proxy_at px w1 = Some (set_px_srv rest p)).
    { unfold proxy_at. rewrite Hl, find_update_proxy by exact Hf.
      unfold proxy_at in Hat. rewrite Hat. simpl. now rewrite Hp'. }
    assert (Hfind' : findproxy (px_id (set_px_srv rest p)) PR_CAP_BE w1
                     = Some (set_px_srv rest p)).
    { unfold findproxy. rewrite Hl. unfold update_proxy.
      change (@None proxy)
        with (option_map (fun q => if addr_eqb (px_addr q) px then f q else q)
                         None).
      rewrite findproxy_loop_map.
      - unfold findproxy in Hfind. simpl. rewrite Hfind. simpl.
        rewrite Ha, addr_eqb_refl. now rewrite Hp'.
      - intros q. destruct (addr_eqb (px_addr q) px); split; reflexivity. }
    destruct (IH fuel w1 (set_px_srv rest p) Hat' eq_refl Hfind' Hnd')
      as (w2 & F & Hrun & HF & Hl2 & Ht2).
    { simpl in Hfuel. lia. }
    exists w2, (fun q => F (f q)). split; [exact Hrun|].
    split; [intros q; now rewrite HF|].
    split.
    + rewrite Hl2, Hl. now apply update_proxy_twice.
    + rewrite Ht2, Ht. now rewrite <- app_assoc.
Qed.

(** C4, as the code has it.  For [px] a proxy of the global list:
    [delbackend] refuses, returning 1 with the list of proxies as it
    was, exactly when some proxy of the list, [px] itself included,
    has [px] as its default backend or as the backend of one of its
    switching rules.  When it returns 0, the loop of [delserver] calls
    has emptied the server list of [px], after which [px] has been
    unlinked from the list and freed.  And it does return 0 when no
    proxy refers to [px], [px] is the backend its name designates, its
    servers bear distinct names and the proxies of the list are
    distinct objects: every server is then deleted in list order, and
    the list of proxies is the former one without [px]. *)
Theorem delbackend_guard (fuel : nat) (px : address) (w : world) (p : proxy) :
  proxy_at px w = Some p ->
  (refused (delbackend fuel px w) w <->
   exists q, In q (proxies w) /\ refers_to px q) /\
  (forall w', delbackend fuel px w = Some (0, w') ->
     exists w1 p1,
       delete_servers fuel px w = Some w1 /\
       proxy_at px w1 = Some p1 /\ px_srv p1 = [] /\
       proxies w' = unlink_proxy px (proxies w1) /\
       trace w' = trace w1 ++ [free px]) /\
  ((~ exists q, In q (proxies w) /\ refers_to px q) ->
   findproxy (px_id p) PR_CAP_BE w = Some p ->
   NoDup (map sv_id (px_srv p)) ->
   NoDup (map px_addr (proxies w)) ->
   (List.length (px_srv p) < fuel)%nat ->
   exists w',
     delbackend fuel px w = Some (0, w') /\
     proxies w' = unlink_proxy px (proxies w) /\
     trace w' = trace w ++ flat_map delserver_calls (px_srv p) ++ [free px]).
Proof.
  intros Hat. destruct (proxy_at_addr _ _ _ Hat) as [Ha Hin].
  pose proof (find_reference_spec p (proxies w)) as R. rewrite Ha in R.
  unfold delbackend, refused. rewrite Hat.
  split; [|split].
  - destruct (find_reference p (proxies w)) as [ev|].
    + split.
      * intros _. apply R. discriminate.
      * intros _. eexists. split; reflexivity.
    + split.
      * intros (w' & Hr & _). exfalso.
        destruct (delete_servers fuel px w); discriminate.
      * intros Hq. apply R in Hq. congruence.
  - intros w'. destruct (find_reference p (proxies w)); [discriminate|].
    destruct (delete_servers fuel px w) as [w1|] eqn:D; [|discriminate].
    intros [= <-]. destruct (delete_servers_done _ _ _ _ D) as (p1 & Hp1 & Hs1).
    exists w1, p1. repeat split; assumption.
  - intros Hnone Hfind Hnames Haddrs Hfuel.
    destruct (find_reference p (proxies w)) as [ev|].
    { exfalso. apply Hnone. apply R. discriminate. }
    destruct (delete_servers_total px (px_srv p) fuel w p Hat eq_refl Hfind
                Hnames Hfuel) as (w1 & F & -> & HF & Hl & Ht).
    eexists. split; [reflexivity|]. simpl. split.
    + rewrite Hl. now apply unlink_update_proxy.
    + rewrite Ht. now rewrite <- app_assoc.
Qed.

(** ** maintain_proxies *)

Lemma pr_state_eqb_eq (a b : pr_state) : pr_state_eqb a b = true <-> a = b.
Proof. destruct a, b; simpl; split; congruence. Qed.

Lemma same_but_state_refl (p : proxy) : same_but_state p p.
Proof. split; [now destruct p|reflexivity]. Qed.

Lemma do_block_same (p : proxy) : same_but_state p (do_block p).
Proof.
  unfold do_block. destruct (pr_state_eqb _ _); [|apply same_but_state_refl].
  split; [reflexivity|]. simpl. now rewrite length_map.
Qed.

Lemma do_unblock_same (p : proxy) : same_but_state p (do_unblock p).
Proof.
  unfold do_unblock. destruct (pr_state_eqb _ _); [|apply same_but_state_refl].
  split; [reflexivity|]. simpl. now rewrite length_map.
Qed.

Lemma do_block_blocked (p : proxy) : blocked p (do_block p).
Proof.
  split; [apply do_block_same|]. unfold do_block.
  destruct (pr_state_eqb (px_state p) PR_STRUN) eqn:E.
  - split; [intros _; split; reflexivity|].
    apply pr_state_eqb_eq in E. congruence.
  - split; [|intros _; split; reflexivity].
    intros R. apply pr_state_eqb_eq in R. congruence.
Qed.

Lemma do_unblock_unblocked (p : proxy) : unblocked p (do_unblock p).
Proof.
  split; [apply do_unblock_same|]. unfold do_unblock.
  destruct (pr_state_eqb (px_state p) PR_STIDLE) eqn:E.
  - split; [intros _; split; reflexivity|].
    apply pr_state_eqb_eq in E. congruence.
  - split; [|intros _; split; reflexivity].
    intros R. apply pr_state_eqb_eq in R. congruence.
Qed.

(** The three ways through one iteration of the admission loop. *)
Lemma gate_proxy_cases (now : Z) (p : proxy) (n : Z) :
  (full p -> gate_proxy now p n = (do_block p, n)) /\
  (~ full p -> rate_limited p ->
   gate_proxy now p n =
     (do_block p, tick_first n (tick_add now (rate_wait p)))) /\
  (~ full p -> ~ rate_limited p -> gate_proxy now p n = (do_unblock p, n)).
Proof.
  unfold full, rate_limited, rate_wait, gate_proxy.
  destruct (Z.geb_spec (px_feconn p) (px_maxconn p)) as [G|G].
  - repeat split; intros; try reflexivity; lia.
  - destruct (Z.eqb_spec (px_fe_sps_lim p) 0) as [L|L]; simpl.
    + repeat split; intros; try reflexivity; try lia; tauto.
    + destruct (Z.eqb_spec (next_event_delay (px_fe_sess_per_sec p)
                                             (px_fe_sps_lim p) 1) 0) as [W|W];
        simpl; repeat split; intros; try reflexivity; try lia; tauto.
Qed.

Lemma gate_loop_app (now : Z) (pre : list proxy) (p : proxy)
    (post : list proxy) (next : Z) :
  gate_loop now (pre ++ p :: post) next =
  (fst (gate_loop now pre next)
   ++ fst (gate_proxy now p (snd (gate_loop now pre next)))
   :: fst (gate_loop now post
             (snd (gate_proxy now p (snd (gate_loop now pre next))))),
   snd (gate_loop now post
          (snd (gate_proxy now p (snd (gate_loop now pre next)))))).
Proof.
  revert next. induction pre as [|q pre IH]; intros next; simpl.
  - destruct (gate_proxy now p next) as [p1 n1]. simpl.
    now destruct (gate_loop now post n1).
  - destruct (gate_proxy now q next) as [q1 n1]. rewrite IH.
    destruct (gate_loop now pre n1) as [pre1 n2]. simpl.
    reflexivity.
Qed.

Lemma gate_loop_length (now : Z) (l : list proxy) (next : Z) :
  List.length (fst (gate_loop now l next)) = List.length l.
Proof.
  revert next. induction l as [|q l IH]; intros next; simpl; [reflexivity|].
  destruct (gate_proxy now q next) as [q1 n1]. specialize (IH n1).
  destruct (gate_loop now l n1). simpl in *. now rewrite IH.
Qed.

Lemma gate_proxy_wakeup (now : Z) (p : proxy) (n : Z) :
  snd (gate_proxy now p n) = wakeup now n p.
Proof.
  unfold gate_proxy, wakeup, rate_wait.
  destruct (Z.geb_spec (px_feconn p) (px_maxconn p)) as [G|G];
    destruct (Z.ltb_spec (px_feconn p) (px_maxconn p)) as [L|L]; try lia;
    simpl; [reflexivity|].
  destruct (px_fe_sps_lim p =? 0); simpl; [reflexivity|].
  now destruct (next_event_delay _ _ _ =? 0).
Qed.

Lemma gate_proxy_gated (now : Z) (p : proxy) (n : Z) :
  ((full p \/ rate_limited p -> blocked p (fst (gate_proxy now p n))) /\
   (~ full p -> ~ rate_limited p -> unblocked p (fst (gate_proxy now p n)))) /\
  (blocked p (fst (gate_proxy now p n)) \/
   unblocked p (fst (gate_proxy now p n))).
Proof.
  destruct (gate_proxy_cases now p n) as (Cfull & Crate & Cfree).
  assert (Hfull : full p \/ ~ full p) by (unfold full; lia).
  assert (Hrate : rate_limited p \/ ~ rate_limited p).
  { unfold rate_limited.
    destruct (Z.eq_dec (px_fe_sps_lim p) 0), (Z.eq_dec (rate_wait p) 0);
      tauto. }
  split; [split|].
  - intros Hwhy. destruct Hfull as [Hf|Hf].
    + rewrite (Cfull Hf). apply do_block_blocked.
    + destruct Hwhy as [Hf'|Hr]; [contradiction|].
      rewrite (Crate Hf Hr). apply do_block_blocked.
  - intros Hf Hr. rewrite (Cfree Hf Hr). apply do_unblock_unblocked.
  - destruct Hfull as [Hf|Hf].
    + left. rewrite (Cfull Hf). apply do_block_blocked.
    + destruct Hrate as [Hr|Hr].
      * left. rewrite (Crate Hf Hr). apply do_block_blocked.
      * right. rewrite (Cfree Hf Hr). apply do_unblock_unblocked.
Qed.

Lemma gate_loop_gated (now : Z) (l : list proxy) (next : Z) :
  Forall2 (fun p p' =>
             ((full p \/ rate_limited p -> blocked p p') /\
              (~ full p -> ~ rate_limited p -> unblocked p p')) /\
             (blocked p p' \/ unblocked p p'))
          l (fst (gate_loop now l next)) /\
  snd (gate_loop now l next) = fold_left (wakeup now) l next.
Proof.
  revert next. induction l as [|p l IH]; intros next; simpl.
  - split; [constructor|reflexivity].
  - pose proof (gate_proxy_gated now p next) as Hp.
    pose proof (gate_proxy_wakeup now p next) as Hn.
    destruct (gate_proxy now p next) as [p1 n1]. simpl in Hp, Hn.
    destruct (IH n1) as [Hl Ht].
    destruct (gate_loop now l n1) as [l1 n2]. simpl in *.
    split; [now constructor|]. now rewrite Ht, Hn.
Qed.

(** What the first part keeps of a proxy it blocks or unblocks. *)
Lemma blocked_keeps (p p1 : proxy) :
  blocked p p1 \/ unblocked p p1 ->
  (px_state p1 = PR_STSTOPPED <-> px_state p = PR_STSTOPPED) /\
  px_stop_time p1 = px_stop_time p.
Proof.
  assert (Htime : same_but_state p p1 -> px_stop_time p1 = px_stop_time p).
  { intros [E _]. rewrite E. reflexivity. }
  intros [(Hsame & Hrun & Hother)|(Hsame & Hidle & Hother)];
    (split; [|now apply Htime]).
  - destruct (pr_state_eqb (px_state p) PR_STRUN) eqn:E.
    + apply pr_state_eqb_eq in E. destruct (Hrun E) as [S1 _].
      rewrite S1, E. split; discriminate.
    + assert (Hn : px_state p <> PR_STRUN)
        by (intros D; apply pr_state_eqb_eq in D; congruence).
      destruct (Hother Hn) as [-> _]. tauto.
  - destruct (pr_state_eqb (px_state p) PR_STIDLE) eqn:E.
    + apply pr_state_eqb_eq in E. destruct (Hidle E) as [S1 _].
      rewrite S1, E. split; discriminate.
    + assert (Hn : px_state p <> PR_STIDLE)
        by (intros D; apply pr_state_eqb_eq in D; congruence).
      destruct (Hother Hn) as [-> _]. tauto.
Qed.

(** The loop under [stopping]: what it does to each proxy and to the
    wake-up tick. *)
Lemma drain_loop_spared (now : Z) (l : list proxy) (next count : Z) :
  Forall2 (fun p1 p' =>
             (px_state p1 = PR_STSTOPPED \/
              tick_remain now (px_stop_time p1) <> 0 -> p' = p1) /\
             (px_state p1 <> PR_STSTOPPED ->
              tick_remain now (px_stop_time p1) = 0 ->
              px_state p' = PR_STSTOPPED))
          l (fst (fst (fst (drain_loop now l next count)))) /\
  snd (fst (fst (drain_loop now l next count))) =
    fold_left (fun n p =>
                 if negb (pr_state_eqb (px_state p) PR_STSTOPPED)
                    && negb (tick_remain now (px_stop_time p) =? 0)
                 then tick_first n (px_stop_time p) else n) l next.
Proof.
  revert next count. induction l as [|p l IH]; intros next count; simpl.
  - split; [constructor|reflexivity].
  - destruct (pr_state_eqb (px_state p) PR_STSTOPPED) eqn:S; simpl.
    + apply pr_state_eqb_eq in S. destruct (IH next count) as [Hl Ht].
      destruct (drain_loop now l next count) as [[[l1 n1] c1] e1].
      simpl in *. split; [|exact Ht].
      constructor; [|exact Hl]. split; [reflexivity|]. intros; contradiction.
    + destruct (Z.eqb_spec (tick_remain now (px_stop_time p)) 0) as [T|T];
        simpl.
      * assert (Hst : px_state (fst (stop_proxy p count)) = PR_STSTOPPED)
          by (unfold stop_proxy; now destruct (stop_listeners _ _)).
        destruct (stop_proxy p count) as [p1 c1]. simpl in Hst.
        destruct (IH next c1) as [Hl Ht].
        destruct (drain_loop now l next c1) as [[[l1 n1] c2] e1].
        simpl in *. split; [|exact Ht].
        constructor; [|exact Hl]. split; [|intros _ _; exact Hst].
        intros [D|D]; [|contradiction].
        apply pr_state_eqb_eq in D. congruence.
      * destruct (IH (tick_first next (px_stop_time p)) count) as [Hl Ht].
        destruct (drain_loop now l (tick_first next (px_stop_time p)) count)
          as [[[l1 n1] c1] e1].
        simpl in *. split; [|exact Ht].
        constructor; [|exact Hl]. split; [reflexivity|].
        intros; contradiction.
Qed.

Lemma fold_left_Forall2 {A B : Type} (f g : A -> B -> A) (l l1 : list B)
    (R : B -> B -> Prop) :
  (forall b b1, R b b1 -> forall n, f n b1 = g n b) ->
  Forall2 R l l1 -> forall n, fold_left f l1 n = fold_left g l n.
Proof.
  intros Hfg F. induction F as [|b b1 l l1 Hb _ IH]; intros n; simpl;
    [reflexivity|].
  now rewrite (Hfg b b1 Hb), IH.
Qed.

Lemma stop_tick_idle (w : world) (l : list proxy) (n : Z) :
  stopping w = 0 -> fold_left (stop_tick w) l n = n.
Proof.
  intros Hs. revert n. induction l as [|p l IH]; intros n; simpl;
    [reflexivity|].
  unfold stop_tick at 2. rewrite Hs. simpl. apply IH.
Qed.

(** C1, as the code has it.  On every call to [maintain_proxies], for
    every proxy that the call does not stop (it stops the proxies that
    are not stopped yet and whose [stop_time] has run out, when
    [stopping] is set).  With [actconn] below [global.maxconn]: a proxy
    that is full ([feconn >= maxconn]), or whose session rate limit is
    set and asks for a non-zero [wait], is blocked, any other proxy is
    unblocked.  With [actconn] at [global.maxconn] or above, the proxy
    is blocked.  Blocking a running proxy disables all its listeners
    and makes it idle; unblocking an idle proxy enables all its
    listeners and makes it running; in the other states, and in every
    other field, the proxy is left alone.  A proxy that the call stops
    is STOPPED afterwards.  The wake-up tick goes through the proxies
    in turn: when [actconn] is below [global.maxconn], a proxy that is
    below its [maxconn] and asks for a [wait] brings it to
    [tick_first(tick, tick_add(now_ms, wait))], and a full proxy leaves
    it as it is; then, under [stopping], every proxy that is not
    stopped and whose [stop_time] has not run out brings it to
    [tick_first(tick, stop_time)].  While [stopping] is 0 no message is
    issued. *)
Theorem maintain_proxies_admission (next : Z) (w : world) :
  let r := maintain_proxies next w in
  Forall2 (fun p p' =>
             (spared w p ->
              (actconn w < global_maxconn w ->
               full p \/ rate_limited p -> blocked p p') /\
              (actconn w < global_maxconn w ->
               ~ full p -> ~ rate_limited p -> unblocked p p') /\
              (actconn w >= global_maxconn w -> blocked p p')) /\
             (~ spared w p -> px_state p' = PR_STSTOPPED))
          (proxies w) (proxies (snd r)) /\
  fst r =
    fold_left (stop_tick w) (proxies w)
      (if actconn w <? global_maxconn w
       then fold_left (wakeup (now_ms w)) (proxies w) next
       else next) /\
  (stopping w = 0 -> trace (snd r) = trace w).
Proof.
  intros r. subst r. unfold maintain_proxies.
  set (G := fun p p1 : proxy =>
              ((actconn w < global_maxconn w ->
                full p \/ rate_limited p -> blocked p p1) /\
               (actconn w < global_maxconn w ->
                ~ full p -> ~ rate_limited p -> unblocked p p1) /\
               (actconn w >= global_maxconn w -> blocked p p1)) /\
              (blocked p p1 \/ unblocked p p1)).
  assert (Hadm : Forall2 G (proxies w) (proxies (snd (admission next w))) /\
                 fst (admission next w) =
                   (if actconn w <? global_maxconn w
                    then fold_left (wakeup (now_ms w)) (proxies w) next
                    else next) /\
                 now_ms (snd (admission next w)) = now_ms w /\
                 stopping (snd (admission next w)) = stopping w /\
                 trace (snd (admission next w)) = trace w).
  { unfold admission.
    destruct (Z.ltb_spec (actconn w) (global_maxconn w)) as [Hfree|Hfull].
    - destruct (gate_loop_gated (now_ms w) (proxies w) next) as [Hl Ht].
      destruct (gate_loop (now_ms w) (proxies w) next) as [l n]. simpl in *.
      split; [|repeat split; exact Ht].
      eapply Forall2_impl; [|exact Hl]. unfold G.
      intros p p1 ((Hb & Hu) & Hor). split; [|exact Hor].
      split; [intros _; exact Hb|]. split; [intros _; exact Hu|]. lia.
    - simpl. split; [|repeat split].
      induction (proxies w) as [|q l IH]; simpl; constructor; [|exact IH].
      unfold G. pose proof (do_block_blocked q) as Hq.
      split; [|now left]. split; [lia|]. split; [lia|]. intros _. exact Hq. }
  destruct (admission next w) as [n1 w1]. simpl in Hadm.
  destruct Hadm as (Hl & Hn & Hnow & Hstop & Htrace).
  unfold drain. rewrite Hstop.
  destruct (Z.eqb_spec (stopping w) 0) as [Hs|Hs]; simpl.
  - split; [|split].
    + eapply Forall2_impl; [|exact Hl]. unfold G.
      intros p p1 (Hg & _). split; [intros _; exact Hg|].
      intros Hno. elim Hno. left. exact Hs.
    + rewrite (stop_tick_idle w _ _ Hs). exact Hn.
    + intros _. exact Htrace.
  - destruct (drain_loop_spared (now_ms w1) (proxies w1) n1 (listeners w1))
      as [Hd Ht].
    destruct (drain_loop (now_ms w1) (proxies w1) n1 (listeners w1))
      as [[[l2 n2] c2] e2]. simpl in *.
    rewrite Hnow in Hd, Ht.
    split; [|split; [|intros; contradiction]].
    + eapply Forall2_compose; [|exact Hl|exact Hd]. simpl.
      intros p p1 p' (Hg & Hor) (Hkeep & Hgo).
      destruct (blocked_keeps p p1 Hor) as [Hst Htime].
      rewrite Htime in Hkeep, Hgo. split.
      * intros [Hz|Hsp]; [contradiction|].
        rewrite (Hkeep (or_ind (fun D => or_introl (proj2 Hst D))
                               (fun D => or_intror D) Hsp)).
        exact Hg.
      * intros Hno.
        destruct (Z.eq_dec (tick_remain (now_ms w) (px_stop_time p)) 0)
          as [T|T].
        -- apply Hgo; [|exact T]. intros D. apply Hno. right. left.
           now apply Hst.
        -- elim Hno. right. right. exact T.
    + rewrite Ht, <- Hn.
      apply (fold_left_Forall2 _ (stop_tick w) (proxies w) (proxies w1)
               (fun p p1 => blocked p p1 \/ unblocked p p1)).
      * intros p p1 Hor n. destruct (blocked_keeps p p1 Hor) as [Hst Htime].
        unfold stop_tick. rewrite Htime.
        destruct (Z.eqb_spec (stopping w) 0) as [|_]; [contradiction|].
        simpl.
        assert (Hsame : pr_state_eqb (px_state p1) PR_STSTOPPED
                        = pr_state_eqb (px_state p) PR_STSTOPPED).
        { destruct (pr_state_eqb (px_state p) PR_STSTOPPED) eqn:E.
          - apply pr_state_eqb_eq. apply Hst. now apply pr_state_eqb_eq.
          - destruct (pr_state_eqb (px_state p1) PR_STSTOPPED) eqn:E1;
              [|reflexivity].
            apply pr_state_eqb_eq in E1. apply Hst in E1.
            apply pr_state_eqb_eq in E1. congruence. }
        now rewrite Hsame.
      * eapply Forall2_impl; [|exact Hl]. unfold G. tauto.
Qed.

(** ** session_set_backend *)

Lemma land_lor_same (f c : Z) : Z.land (Z.lor f c) c = c.
Proof.
  apply Z.bits_inj'. intros n _. rewrite Z.land_spec, Z.lor_spec.
  now destruct (Z.testbit f n), (Z.testbit c n).
Qed.

Lemma session_set_backend_bound (mem : option address) (s : session)
    (be : proxy) :
  Z.land (sn_flags s) SN_BE_ASSIGNED <> 0 ->
  session_set_backend mem s be =
  {| ssb_ret := 1; ssb_session := s; ssb_be := be; ssb_calls := [] |}.
Proof.
  intros Hf. unfold session_set_backend.
  apply has_bits_true in Hf. now rewrite Hf.
Qed.

Lemma session_set_backend_first (mem : option address) (s : session)
    (be : proxy) :
  Z.land (sn_flags s) SN_BE_ASSIGNED = 0 ->
  let r := session_set_backend mem s be in
  ssb_be r = count_session be /\
  sn_flags (ssb_session r) = Z.lor (sn_flags s) SN_BE_ASSIGNED /\
  sn_be (ssb_session r) = Some (px_addr be).
Proof.
  intros Hf. unfold session_set_backend.
  apply has_bits_false in Hf. rewrite Hf.
  destruct (sn_hdr_idx_v (bind_session s be));
    [|destruct (has_bits _ ACL_USE_L7_ANY); [destruct mem|]];
    repeat split.
Qed.

Lemma count_session_beconn (be : proxy) :
  px_beconn (count_session be) = px_beconn be + 1 /\
  px_cum_beconn (count_session be) = px_cum_beconn be + 1 /\
  px_beconn_max (count_session be) = Z.max (px_beconn_max be) (px_beconn be + 1).
Proof.
  unfold count_session, proxy_inc_be_ctr. simpl.
  destruct (Z.gtb_spec (px_beconn be + 1) (px_beconn_max be)); simpl;
    repeat split; lia.
Qed.

(** C5.  With a non-zero SN_BE_ASSIGNED bit: on a session that has the
    bit set, [session_set_backend] returns 1 and changes neither the
    session nor the backend, and makes no call.  So on a session that
    does not have it yet, a first call, whatever it returns, counts the
    session on the backend once and sets the bit, and a second call
    with the same backend returns 1 and changes nothing: after both,
    [beconn] is the initial one plus one. *)
Theorem session_set_backend_idempotent (mem mem' : option address)
    (s : session) (be : proxy) :
  SN_BE_ASSIGNED <> 0 ->
  (Z.land (sn_flags s) SN_BE_ASSIGNED <> 0 ->
   session_set_backend mem s be =
   {| ssb_ret := 1; ssb_session := s; ssb_be := be; ssb_calls := [] |}) /\
  (Z.land (sn_flags s) SN_BE_ASSIGNED = 0 ->
   let r1 := session_set_backend mem s be in
   let r2 := session_set_backend mem' (ssb_session r1) (ssb_be r1) in
   px_beconn (ssb_be r1) = px_beconn be + 1 /\
   ssb_ret r2 = 1 /\
   ssb_session r2 = ssb_session r1 /\
   ssb_be r2 = ssb_be r1 /\
   ssb_calls r2 = [] /\
   px_beconn (ssb_be r2) = px_beconn be + 1).
Proof.
  intros Hbit. split.
  - apply session_set_backend_bound.
  - intros Hf r1 r2.
    destruct (session_set_backend_first mem s be Hf) as (Hbe & Hflags & _).
    fold r1 in Hbe, Hflags.
    assert (Hset : Z.land (sn_flags (ssb_session r1)) SN_BE_ASSIGNED <> 0)
      by (rewrite Hflags, land_lor_same; exact Hbit).
    assert (H2 : r2 = {| ssb_ret := 1; ssb_session := ssb_session r1;
                         ssb_be := ssb_be r1; ssb_calls := [] |})
      by (apply session_set_backend_bound; exact Hset).
    rewrite H2. simpl. rewrite Hbe.
    destruct (count_session_beconn be) as (Hc & _).
    repeat split; assumption.
Qed.

(** C6, as the code has it.  When the backend needs the header index,
    the session has none and the pool has no memory left,
    [session_set_backend] returns 0 after it has bound the session to
    the backend: the session points to the backend, carries its
    timeouts and retries and has the SN_BE_ASSIGNED bit; the backend
    has [beconn] and [cum_beconn] one higher and its peak updated.
    What the failure leaves undone is the header index, which stays
    NULL, the transaction set-up calls and the merge of the backend's
    request analysers. *)
Theorem session_set_backend_no_memory (s : session) (be : proxy) :
  Z.land (sn_flags s) SN_BE_ASSIGNED = 0 ->
  sn_hdr_idx_v s = None ->
  Z.land (px_acl_requires be) ACL_USE_L7_ANY <> 0 ->
  let r := session_set_backend None s be in
  ssb_ret r = 0 /\
  ssb_calls r = [] /\
  ssb_session r = bind_session s be /\
  ssb_be r = count_session be /\
  sn_be (ssb_session r) = Some (px_addr be) /\
  sn_flags (ssb_session r) = Z.lor (sn_flags s) SN_BE_ASSIGNED /\
  sn_rep_rto (ssb_session r) = to_server (px_timeout be) /\
  sn_req_wto (ssb_session r) = to_server (px_timeout be) /\
  sn_req_cto (ssb_session r) = to_connect (px_timeout be) /\
  sn_conn_retries (ssb_session r) = px_conn_retries be /\
  sn_hdr_idx_v (ssb_session r) = None /\
  sn_req_analysers (ssb_session r) = sn_req_analysers s /\
  px_beconn (ssb_be r) = px_beconn be + 1 /\
  px_cum_beconn (ssb_be r) = px_cum_beconn be + 1 /\
  px_beconn_max (ssb_be r) = Z.max (px_beconn_max be) (px_beconn be + 1).
Proof.
  intros Hf Hidx Hacl r. subst r. unfold session_set_backend.
  apply has_bits_false in Hf. rewrite Hf.
  assert (Hidx' : sn_hdr_idx_v (bind_session s be) = None) by exact Hidx.
  rewrite Hidx'.
  assert (Hacl' : has_bits (px_acl_requires (count_session be)) ACL_USE_L7_ANY
                  = true).
  { apply has_bits_true.
    unfold count_session, proxy_inc_be_ctr.
    destruct (_ >? _); exact Hacl. }
  rewrite Hacl'. simpl ssb_ret. simpl ssb_calls. simpl ssb_session.
  simpl ssb_be.
  destruct (count_session_beconn be) as (Hc & Hcum & Hmax).
  repeat split; try assumption.
Qed.

End Proofs.

(** * Further properties *)

Section Further.

Context `{Env}.

(** ** findproxy *)

Lemma findproxy_loop_found t name cap l :
  findproxy_loop (Some t) name cap l =
  match candidates name cap l with
  | [] => Some t
  | _ => None
  end.
Proof.
  unfold candidates, bears. induction l as [|q l IH]; simpl; [reflexivity|].
  destruct (Z.land (px_cap q) cap =? cap); simpl; [|exact IH].
  destruct (streq (px_id q) name); simpl; [reflexivity|exact IH].
Qed.

Lemma findproxy_loop_fresh name cap l :
  findproxy_loop None name cap l =
  match candidates name cap l with
  | [p] => Some p
  | _ => None
  end.
Proof.
  unfold candidates, bears. induction l as [|q l IH]; simpl; [reflexivity|].
  destruct (Z.land (px_cap q) cap =? cap); simpl; [|exact IH].
  destruct (streq (px_id q) name); simpl; [|exact IH].
  rewrite findproxy_loop_found. unfold candidates, bears.
  now destruct (filter _ l).
Qed.

(** X1.  [findproxy] returns a proxy exactly when one proxy of the list
    has all the capabilities asked for and the name; it returns NULL
    when there is none and when there are two or more. *)
Theorem findproxy_single (name : string) (cap : Z) (w : world) :
  (forall p, findproxy name cap w = Some p <->
             candidates name cap (proxies w) = [p]) /\
  (findproxy name cap w = None <->
   List.length (candidates name cap (proxies w)) <> 1%nat) /\
  (forall p, findproxy name cap w = Some p ->
     In p (proxies w) /\ px_id p = name /\ Z.land (px_cap p) cap = cap).
Proof.
  unfold findproxy. rewrite findproxy_loop_fresh.
  assert (Hmem : forall p, candidates name cap (proxies w) = [p] ->
            In p (proxies w) /\ px_id p = name /\ Z.land (px_cap p) cap = cap).
  { intros p Hc. assert (Hin : In p (candidates name cap (proxies w)))
      by (rewrite Hc; now left).
    apply filter_In in Hin. destruct Hin as [Hin Hb]. unfold bears in Hb.
    apply andb_true_iff in Hb. destruct Hb as [Hcap Hid].
    apply Z.eqb_eq in Hcap. apply String.eqb_eq in Hid. auto. }
  destruct (candidates name cap (proxies w)) as [|q [|q' l]] eqn:C; simpl.
  - repeat split; try discriminate; try lia; intros; discriminate.
  - split; [|split].
    + intros p. split; congruence.
    + split; [discriminate|]. intros Hn. now elim Hn.
    + intros p [= <-]. now apply Hmem.
  - repeat split; try discriminate; try lia; intros; discriminate.
Qed.

Lemma findproxy_candidates name cap w p :
  findproxy name cap w = Some p ->
  candidates name cap (proxies w) = [p] /\
  In p (proxies w) /\ px_id p = name /\ Z.land (px_cap p) cap = cap.
Proof.
  unfold findproxy. rewrite findproxy_loop_fresh. intros Hf.
  assert (Hc : candidates name cap (proxies w) = [p])
    by (destruct (candidates name cap (proxies w)) as [|q [|q' l]]; congruence).
  split; [exact Hc|].
  assert (Hin : In p (candidates name cap (proxies w)))
    by (rewrite Hc; now left).
  apply filter_In in Hin. destruct Hin as [Hin Hb]. unfold bears in Hb.
  apply andb_true_iff in Hb. destruct Hb as [Hcap Hid].
  apply Z.eqb_eq in Hcap. apply String.eqb_eq in Hid. auto.
Qed.

Lemma update_proxy_same (a : address) (f : proxy -> proxy) (l : list proxy) :
  (forall q, f q = q) -> update_proxy a f l = l.
Proof.
  intros Hf. unfold update_proxy. rewrite <- (map_id l) at 2.
  apply map_ext. intros q. destruct (addr_eqb _ _); [apply Hf|reflexivity].
Qed.

Lemma findserver_alerts px name :
  Forall alert_or_free (snd (findserver px name)).
Proof.
  destruct px as [p|]; simpl; [|constructor].
  rewrite findserver_loop_fresh.
  destruct (named name (px_srv p)) as [|s [|s' l]]; simpl;
    repeat constructor.
Qed.

Lemma findserver_absent px name :
  named name (px_srv px) = [] -> findserver (Some px) name = (None, []).
Proof.
  intros Hn. simpl. now rewrite findserver_loop_fresh, Hn.
Qed.

Lemma findserver_one px name s :
  named name (px_srv px) = [s] -> findserver (Some px) name = (Some s, []).
Proof.
  intros Hn. simpl. now rewrite findserver_loop_fresh, Hn.
Qed.

(** ** addserver, delserver *)

(** X2.  When [addserver] returns NULL the list of proxies is as it
    was, and the calls it has made are alerts and releases only: no
    task is queued and no server is set up.  The server struct, once
    allocated, is freed on every later failure, and so is the check
    buffer. *)
Theorem addserver_failure_releases (m : addserver_mem)
    (pxid svid addr cookie : string) (w : world) :
  fst (addserver m pxid svid addr cookie w) = None ->
  exists calls,
    trace (snd (addserver m pxid svid addr cookie w)) = trace w ++ calls /\
    proxies (snd (addserver m pxid svid addr cookie w)) = proxies w /\
    Forall alert_or_free calls /\
    (forall px a, findproxy pxid PR_CAP_BE w = Some px ->
       fst (findserver (Some px) svid) = None ->
       mem_server m = Some a -> In (free a) calls) /\
    (forall px sk cd, findproxy pxid PR_CAP_BE w = Some px ->
       fst (findserver (Some px) svid) = None ->
       mem_server m <> None -> str2sa addr = Some sk ->
       mem_check_data m = Some cd -> In (free cd) calls).
Proof.
  unfold addserver.
  destruct (findproxy pxid PR_CAP_BE w) as [px|] eqn:Hpx.
  2: { intros _. eexists. split; [reflexivity|]. split; [reflexivity|].
       split; [repeat constructor|]. split; intros; discriminate. }
  pose proof (findserver_alerts (Some px) svid) as Halerts.
  destruct (findserver (Some px) svid) as [dup alerts] eqn:F.
  simpl in Halerts.
  assert (Hsame : forall px', Some px = Some px' ->
            fst (findserver (Some px') svid) = dup)
    by (intros px' [= <-]; now rewrite F).
  destruct dup as [s|].
  { intros _. exists (alerts ++ [Alert "add server %s failed. a server named %s already exist." [Str svid; Str svid]]).
    split; [simpl; now rewrite app_assoc|]. split; [reflexivity|].
    split; [apply Forall_app; split; [exact Halerts|repeat constructor]|].
    split.
    - intros px' a' Hpx' Hnone. rewrite (Hsame px' Hpx') in Hnone.
      discriminate.
    - intros px' sk' cd' Hpx' Hnone. rewrite (Hsame px' Hpx') in Hnone.
      discriminate. }
  destruct (mem_server m) as [a|].
  2: { intros _. eexists. split; [simpl; rewrite <- app_assoc; reflexivity|].
       split; [reflexivity|].
       split; [apply Forall_app; split; [exact Halerts|repeat constructor]|].
       split; intros; [discriminate|congruence]. }
  destruct (str2sa addr) as [sk|].
  2: { intros _. eexists.
       split; [simpl; rewrite <- !app_assoc; reflexivity|].
       split; [reflexivity|].
       split; [apply Forall_app; split; [exact Halerts|repeat constructor]|].
       split.
       - intros px' a' _ _ [= <-]. apply in_or_app. right. simpl. auto.
       - intros; discriminate. }
  destruct (mem_check_data m) as [cd|].
  2: { intros _. eexists.
       split; [simpl; rewrite <- !app_assoc; reflexivity|].
       split; [reflexivity|].
       split; [apply Forall_app; split; [exact Halerts|repeat constructor]|].
       split.
       - intros px' a' _ _ [= <-]. apply in_or_app. right. simpl. auto.
       - intros; discriminate. }
  destruct (mem_task m) as [t|]; [discriminate|].
  intros _. eexists.
  split; [simpl; rewrite <- !app_assoc; reflexivity|].
  split; [reflexivity|].
  split; [apply Forall_app; split; [exact Halerts|repeat constructor]|].
  split.
  - intros px' a' _ _ [= <-]. apply in_or_app. right. simpl. auto.
  - intros px' sk' cd' _ _ _ _ [= <-]. apply in_or_app. right. simpl. auto.
Qed.

Lemma named_head_fresh (s : server) (rest : list server) :
  named (sv_id s) rest = [] -> named (sv_id s) (s :: rest) = [s].
Proof.
  unfold named. simpl. rewrite streq_refl. now intros ->.
Qed.

Lemma named_absent_not_in (name : string) (l : list server) :
  named name l = [] -> ~ In name (map sv_id l).
Proof.
  unfold named. induction l as [|s l IH]; simpl; [tauto|].
  unfold streq at 1. destruct (String.eqb_spec (sv_id s) name) as [E|E].
  - discriminate.
  - intros Hn [Hs|Hin]; [contradiction|now apply IH].
Qed.

(** X3.  After [addserver] has added a server under a name that no
    server of the backend bore, [findproxy] still designates the
    backend, now with the new server at the head of its list,
    [findserver] finds the new server without any alert, and the list
    holds exactly one server of that name. *)
Theorem addserver_then_findserver (m : addserver_mem)
    (pxid svid addr cookie : string) (w : world) (px : proxy)
    (a cd t : address) (sk : sockaddr_in) :
  addserver_ready m pxid svid addr w px a cd t sk ->
  named svid (px_srv px) = [] ->
  exists newsrv w1,
    addserver m pxid svid addr cookie w = (Some a, w1) /\
    sv_addr newsrv = a /\ sv_id newsrv = svid /\
    findproxy pxid PR_CAP_BE w1 = Some (set_px_srv (newsrv :: px_srv px) px) /\
    findserver (Some (set_px_srv (newsrv :: px_srv px) px)) svid
      = (Some newsrv, []) /\
    named svid (newsrv :: px_srv px) = [newsrv].
Proof.
  intros Hready Hfresh.
  destruct (addserver_goes_through m pxid svid addr cookie w px a cd t sk Hready)
    as (w1 & Hrun & Hl & _).
  destruct Hready as (Hpx & _).
  set (newsrv := new_server a cd t px sk svid cookie
                   (emit_all (snd (findserver (Some px) svid)) w)) in *.
  exists newsrv, w1. split; [exact Hrun|].
  split; [reflexivity|]. split; [reflexivity|].
  assert (Hone : named svid (newsrv :: px_srv px) = [newsrv])
    by (apply (named_head_fresh newsrv); exact Hfresh).
  split; [|split; [|exact Hone]].
  - rewrite (findproxy_update (px_addr px)
               (fun p => set_px_srv (newsrv :: px_srv p) p) pxid PR_CAP_BE w w1)
      by (auto; intros q; split; reflexivity).
    rewrite Hpx. simpl. now rewrite addr_eqb_refl.
  - apply findserver_one. exact Hone.
Qed.

Lemma filter_single_find {A : Type} (f : A -> bool) (l : list A) (x : A) :
  filter f l = [x] -> find f l = Some x.
Proof.
  induction l as [|y l IH]; simpl; [discriminate|].
  destruct (f y); [now intros [= ->]|exact IH].
Qed.

Lemma find_ext_bool {A : Type} (f g : A -> bool) (l : list A) :
  (forall x, f x = g x) -> find f l = find g l.
Proof.
  intros E. induction l as [|y l IH]; simpl; [reflexivity|].
  now rewrite E, IH.
Qed.

(** With a BE mask of one flag, the backend test of
    [get_backend_server] on a plain name is the test of [findproxy]. *)
Lemma backend_matches_bears (name : string) (q : proxy) :
  one_flag PR_CAP_BE ->
  backend_matches 0 name q = bears name PR_CAP_BE q.
Proof.
  intros [Hne Hall]. unfold backend_matches, bears, has_bits.
  change (0 =? 0) with true. cbn [negb andb orb]. f_equal.
  destruct (Hall (px_cap q)) as [E|E]; rewrite E.
  - destruct (Z.eqb_spec 0 0) as [_|N]; [|now elim N].
    destruct (Z.eqb_spec 0 PR_CAP_BE) as [Z0|_]; [congruence|reflexivity].
  - rewrite Z.eqb_refl.
    destruct (Z.eqb_spec PR_CAP_BE 0) as [Z0|_]; [congruence|reflexivity].
Qed.

Lemma scan_backend_map (g : proxy -> proxy) pid name l :
  (forall q, px_cap (g q) = px_cap q /\ px_uuid (g q) = px_uuid q /\
             px_id (g q) = px_id q) ->
  scan_backend pid name (map g l) = option_map g (scan_backend pid name l).
Proof.
  intros Hg. induction l as [|q l IH]; simpl; [reflexivity|].
  unfold backend_matches at 1. destruct (Hg q) as (-> & -> & ->).
  fold (backend_matches pid name q).
  destruct (backend_matches pid name q); [reflexivity|exact IH].
Qed.

(** X4.  With a BE mask of one flag and plain names (no numeric
    reference): after [addserver] has added a server under a name that
    no server of the backend bore, [get_backend_server] with the two
    names returns 1, the server variable holds the new server and the
    backend variable, when there is one, holds the backend. *)
Theorem addserver_then_get_backend_server (m : addserver_mem)
    (pxid svid addr cookie : string) (w : world) (px : proxy)
    (a cd t : address) (sk : sockaddr_in) :
  one_flag PR_CAP_BE ->
  name_id pxid = 0 -> name_id svid = 0 ->
  addserver_ready m pxid svid addr w px a cd t sk ->
  forall (bk : out_param) (c : option address),
  exists r,
    get_backend_server (snd (addserver m pxid svid addr cookie w))
      pxid svid bk (Some c) = Some r /\
    gbs_ret r = 1 /\
    gbs_sv r = Some (Some a) /\
    (bk <> None -> gbs_bk r = Some (Some (px_addr px))).
Proof.
  intros Hflag Hpid Hsid Hready bk c.
  destruct (addserver_goes_through m pxid svid addr cookie w px a cd t sk Hready)
    as (w1 & Hrun & Hl & _).
  destruct Hready as (Hpx & _).
  set (newsrv := new_server a cd t px sk svid cookie
                   (emit_all (snd (findserver (Some px) svid)) w)) in *.
  rewrite Hrun. simpl snd.
  destruct (findproxy_candidates _ _ _ _ Hpx) as (Hc & _).
  assert (Hscan : scan_backend 0 pxid (proxies w) = Some px).
  { rewrite scan_backend_find.
    rewrite (find_ext_bool _ (bears pxid PR_CAP_BE))
      by (intros q; now apply backend_matches_bears).
    now apply filter_single_find. }
  unfold get_backend_server. rewrite Hpid, Hsid, Hl. unfold update_proxy.
  rewrite scan_backend_map, Hscan
    by (intros q; destruct (addr_eqb _ _); repeat split; reflexivity).
  simpl option_map. rewrite addr_eqb_refl.
  assert (Hsrv : scan_server 0 svid
                   (px_srv (set_px_srv (newsrv :: px_srv px) px))
                 = Some newsrv).
  { simpl. unfold server_matches. simpl. now rewrite streq_refl. }
  rewrite Hsrv. eexists. split; [reflexivity|]. simpl.
  split; [reflexivity|]. split; [reflexivity|].
  destruct bk; [reflexivity|congruence].
Qed.

(** X5.  [delserver] undoes [addserver]: after a server has been added
    under a name that no server of the backend bore, [delserver] with
    the same names returns 0 and the list of proxies is the one from
    before the addition; the task that was queued is deleted and freed,
    and the check buffer and the server are freed. *)
Theorem addserver_then_delserver (m : addserver_mem)
    (pxid svid addr cookie : string) (w : world) (px : proxy)
    (a cd t : address) (sk : sockaddr_in) :
  addserver_ready m pxid svid addr w px a cd t sk ->
  named svid (px_srv px) = [] ->
  let w1 := snd (addserver m pxid svid addr cookie w) in
  exists newsrv,
    fst (delserver pxid svid w1) = 0 /\
    proxies (snd (delserver pxid svid w1)) = proxies w /\
    trace (snd (delserver pxid svid w1)) =
      trace w1
      ++ [set_server_down
            (set_sv_state (Z.lor (sv_state newsrv) SRV_MAINTAIN) newsrv);
          task_delete (Some t); task_free (Some t); free cd; free a] /\
    In (task_queue {| t_addr := t; t_process := Some process_chk;
                      t_context := Some a;
                      t_expire := tick_add (now_ms w) (srv_getinter newsrv) |})
       (trace w1).
Proof.
  intros Hready Hfresh w1.
  destruct (addserver_goes_through m pxid svid addr cookie w px a cd t sk Hready)
    as (w1' & Hrun & Hl & Ht).
  assert (Hw1 : w1 = w1') by (unfold w1; now rewrite Hrun). clearbody w1.
  subst w1'.
  destruct Hready as (Hpx & _).
  set (newsrv := new_server a cd t px sk svid cookie
                   (emit_all (snd (findserver (Some px) svid)) w)) in *.
  destruct (findproxy_candidates _ _ _ _ Hpx) as (_ & _ & Hid & _).
  set (px1 := set_px_srv (newsrv :: px_srv px) px).
  assert (Hpx1 : findproxy (px_id px1) PR_CAP_BE w1 = Some px1).
  { change (px_id px1) with (px_id px). rewrite Hid.
    rewrite (findproxy_update (px_addr px)
               (fun p => set_px_srv (newsrv :: px_srv p) p) pxid PR_CAP_BE w w1)
      by (auto; intros q; split; reflexivity).
    rewrite Hpx. simpl. now rewrite addr_eqb_refl. }
  assert (Hnot : ~ In (sv_id newsrv) (map sv_id (px_srv px)))
    by (apply named_absent_not_in; exact Hfresh).
  destruct (delserver_head w1 px1 newsrv (px_srv px) Hpx1 eq_refl Hnot)
    as (Hret & Hl2 & Ht2).
  change (px_id px1) with (px_id px) in Hret, Hl2, Ht2. rewrite Hid in *.
  change (sv_id newsrv) with svid in Hret, Hl2, Ht2.
  exists newsrv. split; [exact Hret|]. split; [|split].
  - rewrite Hl2, Hl. change (px_addr px1) with (px_addr px).
    rewrite update_proxy_twice by reflexivity.
    apply update_proxy_same. intros q. simpl.
    rewrite addr_eqb_refl.
    transitivity (set_px_srv (px_srv q) q);
      [reflexivity|apply set_px_srv_same].
  - rewrite Ht2. reflexivity.
  - rewrite Ht. apply in_or_app. right. apply in_or_app. right.
    left. reflexivity.
Qed.






(** ** delbackend *)

(** Whether [delserver] succeeds, and the list it leaves, depend on the
    list of proxies only. *)
Lemma delserver_frame (pxid svid : string) (w w' : world) :
  proxies w = proxies w' ->
  fst (delserver pxid svid w) = fst (delserver pxid svid w') /\
  proxies (snd (delserver pxid svid w)) = proxies (snd (delserver pxid svid w')).
Proof.
  intros Hl. unfold delserver, findproxy. rewrite Hl.
  destruct (findproxy_loop None pxid PR_CAP_BE (proxies w')) as [px|];
    [|simpl; auto].
  destruct (findserver (Some px) svid) as [[s|] alerts]; simpl;
    [|auto].
  now rewrite Hl.
Qed.

Lemma delserver_globals (pxid svid : string) (w : world) :
  used_proxy_id (snd (delserver pxid svid w)) = used_proxy_id w /\
  listeners (snd (delserver pxid svid w)) = listeners w.
Proof.
  unfold delserver.
  destruct (findproxy pxid PR_CAP_BE w) as [px|]; [|split; reflexivity].
  destruct (findserver (Some px) svid) as [[s|] alerts]; split; reflexivity.
Qed.

Lemma delserver_failure_keeps (pxid svid : string) (w : world) :
  fst (delserver pxid svid w) <> 0 ->
  proxies (snd (delserver pxid svid w)) = proxies w.
Proof.
  unfold delserver.
  destruct (findproxy pxid PR_CAP_BE w) as [px|]; [|reflexivity].
  destruct (findserver (Some px) svid) as [[s|] alerts]; simpl;
    [intros Hn; now elim Hn|reflexivity].
Qed.

Lemma delete_servers_stuck (px : address) (p : proxy) (s : server)
    (rest : list server) (w0 : world) :
  proxy_at px w0 = Some p ->
  px_srv p = s :: rest ->
  fst (delserver (px_id p) (sv_id s) w0) <> 0 ->
  forall fuel w, proxies w = proxies w0 -> delete_servers fuel px w = None.
Proof.
  intros Hat Hsrv Hfail. induction fuel as [|fuel IH]; intros w Hl; simpl.
  - reflexivity.
  - unfold proxy_at in *. rewrite Hl, Hat, Hsrv. apply IH.
    destruct (delserver_frame (px_id p) (sv_id s) w w0 Hl) as [Hf Hp].
    rewrite Hp. now apply delserver_failure_keeps.
Qed.

(** X7.  [delbackend] does not return when nothing refers to [px] and
    [delserver] cannot delete its first server: the name of [px] does
    not designate one backend, or the name of that server is borne by
    no or by several servers of the backend designated (which
    [addserver] allows).  The loop then calls [delserver] on the same server
    for ever: whatever the bound on the iterations, it is reached. *)
Theorem delbackend_never_returns (px : address) (w : world) (p : proxy)
    (s : server) (rest : list server) :
  proxy_at px w = Some p ->
  (~ exists q, In q (proxies w) /\ refers_to px q) ->
  px_srv p = s :: rest ->
  (findproxy (px_id p) PR_CAP_BE w = None \/
   exists q, findproxy (px_id p) PR_CAP_BE w = Some q /\
             List.length (named (sv_id s) (px_srv q)) <> 1%nat) ->
  forall fuel, delbackend fuel px w = None.
Proof.
  intros Hat Hnone Hsrv Hcause fuel.
  assert (Hfail : fst (delserver (px_id p) (sv_id s) w) <> 0).
  { unfold delserver. destruct Hcause as [->|(q & -> & Hlen)];
      [simpl; discriminate|].
    unfold findserver. rewrite findserver_loop_fresh.
    destruct (named (sv_id s) (px_srv q)) as [|s1 [|s2 l]]; simpl in *;
      try discriminate. now elim Hlen. }
  destruct (proxy_at_addr _ _ _ Hat) as [Ha _].
  unfold delbackend. rewrite Hat.
  destruct (find_reference p (proxies w)) as [ev|] eqn:R.
  - exfalso. apply Hnone. rewrite <- Ha. apply find_reference_spec.
    congruence.
  - now rewrite (delete_servers_stuck px p s rest w Hat Hsrv Hfail fuel w eq_refl).
Qed.

Lemma delete_servers_globals (fuel : nat) (px : address) (w w1 : world) :
  delete_servers fuel px w = Some w1 ->
  used_proxy_id w1 = used_proxy_id w /\ listeners w1 = listeners w.
Proof.
  revert w. induction fuel as [|fuel IH]; simpl; intros w; [discriminate|].
  destruct (proxy_at px w) as [p|]; [|discriminate].
  destruct (px_srv p) as [|s rest].
  - intros [= <-]. split; reflexivity.
  - intros Hd. destruct (IH _ Hd) as [Hu Hc].
    destruct (delserver_globals (px_id p) (sv_id s) w) as [Hu' Hc'].
    split; congruence.
Qed.

(** X8.  [delbackend] frees the proxy struct and leaves the tree of
    ids as it was: every node of the tree is still linked once
    [delbackend] has returned 0 and [free(px)] has been called.  So
    after [addbackend] has created a backend at [px] and linked its
    [conf.id], and [delbackend] has deleted that backend, the tree
    still links a node that lies in the freed struct. *)
Theorem delbackend_leaves_id_node (fuel : nat) (px : address) (w w' : world) :
  delbackend fuel px w = Some (0, w') ->
  In (free px) (trace w') /\
  used_proxy_id w' = used_proxy_id w /\
  forall m id w0,
    addbackend m id w0 = (0, w) -> mem_proxy m = Some px ->
    In {| node_of := px;
          node_key := get_next_id (map node_key (used_proxy_id w0)) 1 |}
       (used_proxy_id w').
Proof.
  unfold delbackend.
  destruct (proxy_at px w) as [p|]; [|discriminate].
  assert (Hadd : forall m id w0, addbackend m id w0 = (0, w) ->
            mem_proxy m = Some px ->
            In {| node_of := px;
                  node_key := get_next_id (map node_key (used_proxy_id w0)) 1 |}
               (used_proxy_id w)).
  { intros m id w0. unfold addbackend.
    destruct (streq id EmptyString); [discriminate|].
    destruct (invalid_char id); [discriminate|].
    destruct (find_clash _ id (proxies w0)); [discriminate|].
    destruct (mem_proxy m) as [a|]; [|discriminate].
    intros [= <-] [= ->]. left. reflexivity. }
  destruct (find_reference p (proxies w)) as [ev|]; [discriminate|].
  destruct (delete_servers fuel px w) as [w1|] eqn:D; [|discriminate].
  intros [= <-]. simpl.
  destruct (delete_servers_globals _ _ _ _ D) as [Hu Hc].
  split; [apply in_or_app; right; now left|]. split; [exact Hu|].
  intros m id w0 Ha Hm. rewrite Hu. now apply (Hadd m id w0).
Qed.

(** ** addbackend *)

Lemma land_lor_left (a b : Z) : Z.land (Z.lor a b) a = a.
Proof.
  apply Z.bits_inj'. intros n _. rewrite Z.land_spec, Z.lor_spec.
  now destruct (Z.testbit a n), (Z.testbit b n).
Qed.

(** X9.  When a FE+RS capability set does not contain the BE mask:
    after a successful [addbackend], [findproxy] with the name and the
    BE capability returns the new proxy, which is at the head of the
    list, bears the name and has the BE capability. *)
Theorem addbackend_then_findproxy (m : addbackend_mem) (id : string)
    (w w1 : world) :
  Z.land (Z.lor PR_CAP_FE PR_CAP_RS) PR_CAP_BE <> PR_CAP_BE ->
  addbackend m id w = (0, w1) ->
  exists p,
    proxies w1 = p :: proxies w /\
    findproxy id PR_CAP_BE w1 = Some p /\
    px_id p = id /\
    px_cap p = Z.lor PR_CAP_BE PR_CAP_RS /\
    Z.land (px_cap p) PR_CAP_BE = PR_CAP_BE.
Proof.
  intros Hfe. unfold addbackend.
  destruct (streq id EmptyString); [discriminate|].
  destruct (invalid_char id); [discriminate|].
  destruct (find_clash _ id (proxies w)) eqn:C; [discriminate|].
  destruct (mem_proxy m) as [a|]; [|discriminate].
  intros [= <-]. eexists. split; [reflexivity|].
  split; [|split; [reflexivity|split; [reflexivity|apply land_lor_left]]].
  unfold findproxy. rewrite findproxy_loop_fresh. unfold candidates.
  simpl filter.
  assert (Hnew : bears id PR_CAP_BE
                   (new_backend a (mem_hdr_idx_pool m) id
                      (Z.lor PR_CAP_BE PR_CAP_RS) w) = true).
  { unfold bears. simpl. now rewrite land_lor_left, Z.eqb_refl, streq_refl. }
  rewrite Hnew.
  assert (Hold : filter (bears id PR_CAP_BE) (proxies w) = []).
  { rewrite find_clash_find in C. apply find_none_such in C.
    unfold none_such in C. rewrite Forall_forall in C.
    clear Hnew. induction (proxies w) as [|q l IH]; simpl; [reflexivity|].
    rewrite IH by (intros x Hx; apply C; now right).
    destruct (bears id PR_CAP_BE q) eqn:B; [|reflexivity].
    exfalso. unfold bears in B. apply andb_true_iff in B.
    destruct B as [Bcap Bid]. apply Z.eqb_eq in Bcap.
    apply String.eqb_eq in Bid.
    assert (Hq : name_clash (Z.lor PR_CAP_BE PR_CAP_RS) id q = false)
      by (apply C; now left).
    destruct (Z.eq_dec (px_cap q) (Z.lor PR_CAP_FE PR_CAP_RS)) as [E|E].
    - rewrite E in Bcap. contradiction.
    - assert (T : name_clash (Z.lor PR_CAP_BE PR_CAP_RS) id q = true)
        by (apply backend_clash_spec; auto).
      congruence. }
  now rewrite Hold.
Qed.

(** ** maintain_proxies, stop_proxy *)

Lemma do_block_not_running (p : proxy) : px_state (do_block p) <> PR_STRUN.
Proof.
  unfold do_block. destruct (pr_state_eqb (px_state p) PR_STRUN) eqn:E.
  - discriminate.
  - intros R. apply pr_state_eqb_eq in R. congruence.
Qed.

Lemma do_block_reasons (p : proxy) :
  px_feconn (do_block p) = px_feconn p /\
  px_maxconn (do_block p) = px_maxconn p /\
  px_fe_sps_lim (do_block p) = px_fe_sps_lim p /\
  px_fe_sess_per_sec (do_block p) = px_fe_sess_per_sec p.
Proof.
  unfold do_block. destruct (pr_state_eqb _ _); repeat split.
Qed.

Lemma do_unblock_reasons (p : proxy) :
  px_feconn (do_unblock p) = px_feconn p /\
  px_maxconn (do_unblock p) = px_maxconn p /\
  px_fe_sps_lim (do_unblock p) = px_fe_sps_lim p /\
  px_fe_sess_per_sec (do_unblock p) = px_fe_sess_per_sec p.
Proof.
  unfold do_unblock. destruct (pr_state_eqb _ _); repeat split.
Qed.

Lemma do_block_twice (p : proxy) : do_block (do_block p) = do_block p.
Proof.
  unfold do_block at 1.
  destruct (pr_state_eqb (px_state (do_block p)) PR_STRUN) eqn:E;
    [|reflexivity].
  apply pr_state_eqb_eq in E. now apply do_block_not_running in E.
Qed.

Lemma do_unblock_twice (p : proxy) : do_unblock (do_unblock p) = do_unblock p.
Proof.
  unfold do_unblock at 1.
  destruct (pr_state_eqb (px_state (do_unblock p)) PR_STIDLE) eqn:E;
    [|reflexivity].
  exfalso. apply pr_state_eqb_eq in E. revert E. unfold do_unblock.
  destruct (pr_state_eqb (px_state p) PR_STIDLE) eqn:E'.
  - discriminate.
  - intros R. apply pr_state_eqb_eq in R. congruence.
Qed.

(** What one iteration of the admission loop leaves running. *)
Lemma gate_proxy_running (now : Z) (p : proxy) (n : Z) :
  px_state (fst (gate_proxy now p n)) = PR_STRUN ->
  ~ full (fst (gate_proxy now p n)) /\
  ~ rate_limited (fst (gate_proxy now p n)).
Proof.
  destruct (gate_proxy_cases now p n) as (Cfull & Crate & Cfree).
  assert (Dfull : full p \/ ~ full p) by (unfold full; lia).
  assert (Drate : rate_limited p \/ ~ rate_limited p).
  { unfold rate_limited.
    destruct (Z.eq_dec (px_fe_sps_lim p) 0), (Z.eq_dec (rate_wait p) 0); tauto. }
  destruct Dfull as [F|F].
  { rewrite (Cfull F). simpl. intros R. now apply do_block_not_running in R. }
  destruct Drate as [R|R].
  { rewrite (Crate F R). simpl. intros R'.
    now apply do_block_not_running in R'. }
  rewrite (Cfree F R). simpl. intros _.
  destruct (do_unblock_reasons p) as (E1 & E2 & E3 & E4).
  unfold full, rate_limited, rate_wait in *. rewrite E1, E2, E3, E4. tauto.
Qed.

(** X10.  After the admission part of [maintain_proxies] no frontend
    is left running against the rules: a proxy that is running has
    [actconn] below [global.maxconn], is below its own [maxconn] and
    has no delay to wait for on its session rate limit. *)
Theorem admission_leaves_no_overrun (next : Z) (w : world) :
  Forall (fun p' => px_state p' = PR_STRUN ->
            actconn w < global_maxconn w /\ ~ full p' /\ ~ rate_limited p')
         (proxies (snd (admission next w))).
Proof.
  unfold admission.
  destruct (Z.ltb_spec (actconn w) (global_maxconn w)) as [Hfree|Hsat].
  - assert (Hloop : forall l n,
              Forall (fun p' => px_state p' = PR_STRUN ->
                        ~ full p' /\ ~ rate_limited p')
                     (fst (gate_loop (now_ms w) l n))).
    { induction l as [|p l IH]; intros n; simpl; [constructor|].
      pose proof (gate_proxy_running (now_ms w) p n) as Hp.
      destruct (gate_proxy (now_ms w) p n) as [p1 n1].
      specialize (IH n1). destruct (gate_loop (now_ms w) l n1) as [l1 n2].
      simpl in *. now constructor. }
    specialize (Hloop (proxies w) next).
    destruct (gate_loop (now_ms w) (proxies w) next) as [l1 n1]. simpl in *.
    eapply Forall_impl; [|exact Hloop]. simpl. intros p' Hp' R. auto.
  - simpl. apply Forall_forall. intros p' Hin R. exfalso.
    apply in_map_iff in Hin. destruct Hin as (p & <- & _).
    now apply do_block_not_running in R.
Qed.

Lemma gate_proxy_again (now : Z) (p : proxy) (n n' : Z) :
  fst (gate_proxy now (fst (gate_proxy now p n)) n') = fst (gate_proxy now p n).
Proof.
  unfold gate_proxy.
  destruct (do_block_reasons p) as (B1 & B2 & B3 & B4).
  destruct (do_unblock_reasons p) as (U1 & U2 & U3 & U4).
  destruct (px_feconn p >=? px_maxconn p) eqn:F; simpl.
  - rewrite B1, B2, F. simpl. apply do_block_twice.
  - destruct (px_fe_sps_lim p =? 0) eqn:L; simpl.
    + rewrite U1, U2, U3, F, L. simpl. apply do_unblock_twice.
    + destruct (next_event_delay (px_fe_sess_per_sec p) (px_fe_sps_lim p) 1
                =? 0) eqn:W; simpl.
      * rewrite U1, U2, U3, U4, F, L, W. simpl. apply do_unblock_twice.
      * rewrite B1, B2, B3, B4, F, L, W. simpl. apply do_block_twice.
Qed.

(** X11.  The admission part of [maintain_proxies] settles at once: run
    again on the state it has left, it changes no proxy. *)
Theorem admission_settles (next next' : Z) (w : world) :
  proxies (snd (admission next' (snd (admission next w)))) =
  proxies (snd (admission next w)).
Proof.
  assert (Hloop : forall now l n n',
            fst (gate_loop now (fst (gate_loop now l n)) n')
            = fst (gate_loop now l n)).
  { intros now. induction l as [|p l IH]; intros n n'; simpl; [reflexivity|].
    pose proof (gate_proxy_again now p n n') as Hp.
    destruct (gate_proxy now p n) as [p1 n1]. simpl in Hp.
    specialize (IH n1).
    destruct (gate_loop now l n1) as [l1 n2]. simpl in *.
    destruct (gate_proxy now p1 n') as [p2 n3]. simpl in Hp. subst p2.
    specialize (IH n3).
    destruct (gate_loop now l1 n3) as [l2 n4]. simpl in *. now rewrite IH. }
  unfold admission.
  destruct (actconn w <? global_maxconn w) eqn:A.
  - specialize (Hloop (now_ms w) (proxies w) next next').
    destruct (gate_loop (now_ms w) (proxies w) next) as [l1 n1]. simpl in *.
    rewrite A.
    destruct (gate_loop (now_ms w) l1 next') as [l2 n2]. simpl in *.
    exact Hloop.
  - simpl. rewrite A. simpl. rewrite map_map. apply map_ext.
    intros p. apply do_block_twice.
Qed.

Lemma same_but_state_trans (p p1 p2 : proxy) :
  same_but_state p p1 -> same_but_state p1 p2 -> same_but_state p p2.
Proof.
  intros [E1 L1] [E2 L2]. split; [|congruence].
  assert (G : forall st li st1 li1,
            set_px_state st
              (set_px_listen li (set_px_state st1 (set_px_listen li1 p)))
            = set_px_state st (set_px_listen li p)) by reflexivity.
  remember (px_state p2) as st. remember (px_listen p2) as li.
  remember (px_state p1) as st1. remember (px_listen p1) as li1.
  rewrite E2, E1. apply G.
Qed.

Lemma gate_proxy_same (now : Z) (p : proxy) (n : Z) :
  same_but_state p (fst (gate_proxy now p n)).
Proof.
  unfold gate_proxy.
  destruct (px_feconn p >=? px_maxconn p); [apply do_block_same|].
  destruct (negb (px_fe_sps_lim p =? 0)); [|apply do_unblock_same].
  destruct (negb (_ =? 0)); [apply do_block_same|apply do_unblock_same].
Qed.

Lemma stop_listeners_spec (l : list listener) (count : Z) :
  fst (stop_listeners l count) =
    map (fun li => if li_state (unbind_listener li) >=? LI_ASSIGNED
                   then delete_listener (unbind_listener li)
                   else unbind_listener li) l /\
  snd (stop_listeners l count) =
    count - Z.of_nat (List.length (deleted_listeners l)).
Proof.
  unfold deleted_listeners. revert count.
  induction l as [|li l IH]; intros count; simpl; [split; [reflexivity|lia]|].
  destruct (li_state (unbind_listener li) >=? LI_ASSIGNED).
  - destruct (IH (count - 1)) as [Hl Hc].
    destruct (stop_listeners l (count - 1)) as [l1 c1]. simpl in *.
    split; [now rewrite Hl|]. rewrite Hc. lia.
  - destruct (IH count) as [Hl Hc].
    destruct (stop_listeners l count) as [l1 c1]. simpl in *.
    split; [now rewrite Hl|exact Hc].
Qed.

(** X12.  [stop_proxy] leaves the proxy STOPPED with every listener
    unbound; the listeners still assigned once unbound are deleted as
    well, and the global count of listeners goes down by their number.
    No listener is added or dropped from the proxy's list. *)
Theorem stop_proxy_counts (p : proxy) (count : Z) :
  px_state (fst (stop_proxy p count)) = PR_STSTOPPED /\
  px_listen (fst (stop_proxy p count)) =
    map (fun li => if li_state (unbind_listener li) >=? LI_ASSIGNED
                   then delete_listener (unbind_listener li)
                   else unbind_listener li) (px_listen p) /\
  List.length (px_listen (fst (stop_proxy p count))) =
    List.length (px_listen p) /\
  snd (stop_proxy p count) =
    count - Z.of_nat (List.length (deleted_listeners (px_listen p))) /\
  count - Z.of_nat (List.length (px_listen p)) <= snd (stop_proxy p count)
    <= count.
Proof.
  unfold stop_proxy.
  destruct (stop_listeners_spec (px_listen p) count) as [Hl Hc].
  destruct (stop_listeners (px_listen p) count) as [l1 c1]. simpl in *.
  subst l1 c1. split; [reflexivity|]. split; [reflexivity|].
  split; [apply length_map|]. split; [reflexivity|].
  pose proof (filter_length_le
                (fun li => li_state (unbind_listener li) >=? LI_ASSIGNED)
                (px_listen p)) as Hle.
  unfold deleted_listeners. lia.
Qed.

Lemma stop_proxy_same (p : proxy) (count : Z) :
  same_but_state p (fst (stop_proxy p count)).
Proof.
  unfold stop_proxy.
  destruct (stop_listeners_spec (px_listen p) count) as [Hl _].
  destruct (stop_listeners (px_listen p) count) as [l1 c1]. simpl in *.
  split; [reflexivity|]. simpl. subst l1. apply length_map.
Qed.

(** One iteration of the drain loop, on [p]. *)
Lemma drain_loop_step (now : Z) (p : proxy) (l : list proxy) (next count : Z) :
  exists p1 next1 count1,
    fst (fst (fst (drain_loop now (p :: l) next count))) =
      p1 :: fst (fst (fst (drain_loop now l next1 count1))) /\
    same_but_state p p1 /\
    (px_state p = PR_STSTOPPED -> p1 = p) /\
    px_stop_time p1 = px_stop_time p /\
    (px_state p1 = PR_STSTOPPED \/ tick_remain now (px_stop_time p1) <> 0).
Proof.
  simpl.
  destruct (pr_state_eqb (px_state p) PR_STSTOPPED) eqn:S; simpl.
  - apply pr_state_eqb_eq in S.
    exists p, next, count.
    destruct (drain_loop now l next count) as [[[l1 n1] c1] e1]. simpl.
    split; [reflexivity|]. split; [apply same_but_state_refl|].
    split; [reflexivity|]. split; [reflexivity|now left].
  - assert (Hns : px_state p <> PR_STSTOPPED)
      by (intros E; apply pr_state_eqb_eq in E; congruence).
    destruct (Z.eqb_spec (tick_remain now (px_stop_time p)) 0) as [T|T].
    + pose proof (stop_proxy_same p count) as Hsame.
      assert (Hst : px_state (fst (stop_proxy p count)) = PR_STSTOPPED)
        by (unfold stop_proxy; now destruct (stop_listeners _ _)).
      assert (Htime : px_stop_time (fst (stop_proxy p count)) = px_stop_time p)
        by (unfold stop_proxy; now destruct (stop_listeners _ _)).
      destruct (stop_proxy p count) as [p1 c1]. simpl in *.
      exists p1, next, c1.
      destruct (drain_loop now l next c1) as [[[l1 n1] c2] e1]. simpl.
      split; [reflexivity|].
      split; [exact Hsame|]. split; [intros E; contradiction|].
      split; [exact Htime|now left].
    + exists p, (tick_first next (px_stop_time p)), count.
      destruct (drain_loop now l (tick_first next (px_stop_time p)) count)
        as [[[l1 n1] c1] e1]. simpl.
      split; [reflexivity|].
      split; [apply same_but_state_refl|]. split; [reflexivity|].
      split; [reflexivity|now right].
Qed.

Lemma drain_loop_all (P : proxy -> proxy -> Prop) (now : Z) :
  (forall p p1, same_but_state p p1 ->
     (px_state p = PR_STSTOPPED -> p1 = p) ->
     px_stop_time p1 = px_stop_time p ->
     (px_state p1 = PR_STSTOPPED \/ tick_remain now (px_stop_time p1) <> 0) ->
     P p p1) ->
  forall l next count,
    Forall2 P l (fst (fst (fst (drain_loop now l next count)))).
Proof.
  intros HP. induction l as [|p l IH]; intros next count.
  - simpl. constructor.
  - destruct (drain_loop_step now p l next count)
      as (p1 & n1 & c1 & -> & H1 & H2 & H3 & H4).
    constructor; [now apply HP|apply IH].
Qed.

Lemma gate_loop_all (P : proxy -> proxy -> Prop) (now : Z) :
  (forall p n, P p (fst (gate_proxy now p n))) ->
  forall l next, Forall2 P l (fst (gate_loop now l next)).
Proof.
  intros HP. induction l as [|p l IH]; intros next; simpl; [constructor|].
  pose proof (HP p next) as Hp.
  destruct (gate_proxy now p next) as [p1 n1]. specialize (IH n1).
  destruct (gate_loop now l n1) as [l1 n2]. simpl in *. now constructor.
Qed.

Lemma admission_all (P : proxy -> proxy -> Prop) (next : Z) (w : world) :
  (forall p n, P p (fst (gate_proxy (now_ms w) p n))) ->
  (forall p, P p (do_block p)) ->
  Forall2 P (proxies w) (proxies (snd (admission next w))).
Proof.
  intros Hgate Hblock. unfold admission.
  destruct (actconn w <? global_maxconn w).
  - pose proof (gate_loop_all P (now_ms w) Hgate (proxies w) next) as Hl.
    now destruct (gate_loop (now_ms w) (proxies w) next).
  - simpl. induction (proxies w); simpl; constructor; auto.
Qed.

Lemma admission_globals (next : Z) (w : world) :
  let w1 := snd (admission next w) in
  now_ms w1 = now_ms w /\ stopping w1 = stopping w /\
  listeners w1 = listeners w /\ used_proxy_id w1 = used_proxy_id w /\
  actconn w1 = actconn w /\ global_maxconn w1 = global_maxconn w /\
  trace w1 = trace w.
Proof.
  unfold admission. destruct (actconn w <? global_maxconn w);
    [destruct (gate_loop _ _ _)|]; simpl; repeat split.
Qed.

Lemma maintain_proxies_all (P : proxy -> proxy -> Prop) (next : Z) (w : world) :
  (forall p p1 p2, same_but_state p p1 ->
     (px_state p = PR_STSTOPPED -> p1 = p) ->
     (px_state p <> PR_STRUN -> px_state p <> PR_STIDLE -> p1 = p) ->
     px_stop_time p1 = px_stop_time p ->
     (stopping w = 0 /\ p2 = p1 \/
      stopping w <> 0 /\ same_but_state p1 p2 /\
      (px_state p1 = PR_STSTOPPED -> p2 = p1) /\
      px_stop_time p2 = px_stop_time p1 /\
      (px_state p2 = PR_STSTOPPED \/
       tick_remain (now_ms w) (px_stop_time p2) <> 0)) ->
     P p p2) ->
  Forall2 P (proxies w) (proxies (snd (maintain_proxies next w))).
Proof.
  intros HP.
  set (Q := fun p p1 => same_but_state p p1 /\
              (px_state p = PR_STSTOPPED -> p1 = p) /\
              (px_state p <> PR_STRUN -> px_state p <> PR_STIDLE -> p1 = p) /\
              px_stop_time p1 = px_stop_time p).
  assert (Hblock : forall p, Q p (do_block p)).
  { intros p. split; [apply do_block_same|]. unfold do_block.
    destruct (pr_state_eqb (px_state p) PR_STRUN) eqn:E.
    - apply pr_state_eqb_eq in E. repeat split; congruence.
    - repeat split. }
  assert (Hunblock : forall p, Q p (do_unblock p)).
  { intros p. split; [apply do_unblock_same|]. unfold do_unblock.
    destruct (pr_state_eqb (px_state p) PR_STIDLE) eqn:E.
    - apply pr_state_eqb_eq in E. repeat split; congruence.
    - repeat split. }
  assert (Hgate : forall p n, Q p (fst (gate_proxy (now_ms w) p n))).
  { intros p n. unfold gate_proxy.
    destruct (px_feconn p >=? px_maxconn p); [apply Hblock|].
    destruct (negb (px_fe_sps_lim p =? 0)); [|apply Hunblock].
    destruct (negb (_ =? 0)); [apply Hblock|apply Hunblock]. }
  pose proof (admission_all Q next w Hgate Hblock) as Hadm.
  destruct (admission_globals next w) as (Hnow & Hstop & _).
  unfold maintain_proxies.
  destruct (admission next w) as [n1 w1]. simpl in *.
  unfold drain. destruct (Z.eqb_spec (stopping w1) 0) as [S|S]; simpl.
  - eapply Forall2_impl; [|exact Hadm].
    intros p p1 (H1 & H2 & H3 & H4). apply (HP p p1 p1); auto.
    left. split; [congruence|reflexivity].
  - set (R := fun p1 p2 =>
                stopping w <> 0 /\ same_but_state p1 p2 /\
                (px_state p1 = PR_STSTOPPED -> p2 = p1) /\
                px_stop_time p2 = px_stop_time p1 /\
                (px_state p2 = PR_STSTOPPED \/
                 tick_remain (now_ms w) (px_stop_time p2) <> 0)).
    assert (Hdrain : Forall2 R (proxies w1)
              (fst (fst (fst (drain_loop (now_ms w1) (proxies w1) n1
                                (listeners w1)))))).
    { apply drain_loop_all. intros p p1 A B C D. unfold R.
      rewrite <- Hnow.
      split; [congruence|]. split; [exact A|]. split; [exact B|].
      split; [exact C|exact D]. }
    destruct (drain_loop (now_ms w1) (proxies w1) n1 (listeners w1))
      as [[[l2 n2] c2] e2]. simpl in *.
    eapply Forall2_compose; [|exact Hadm|exact Hdrain].
    intros p p1 p2 (H1 & H2 & H3 & H4) HR. apply (HP p p1 p2); auto.
Qed.

(** X13.  [maintain_proxies] neither adds, removes nor reorders
    proxies, and of a proxy it changes nothing but the state and the
    listeners, which stay as many; [actconn], the date and the set of
    ids in use are as before. *)
Theorem maintain_proxies_keeps_identity (next : Z) (w : world) :
  let w1 := snd (maintain_proxies next w) in
  Forall2 same_but_state (proxies w) (proxies w1) /\
  map px_addr (proxies w1) = map px_addr (proxies w) /\
  map px_id (proxies w1) = map px_id (proxies w) /\
  actconn w1 = actconn w /\ now_ms w1 = now_ms w /\
  used_proxy_id w1 = used_proxy_id w /\ stopping w1 = stopping w.
Proof.
  intros w1.
  assert (Hall : Forall2 same_but_state (proxies w) (proxies w1)).
  { apply maintain_proxies_all. intros p p1 p2 H1 _ _ _ [[_ ->]|(_ & H2 & _)];
      [exact H1|eapply same_but_state_trans; eassumption]. }
  split; [exact Hall|].
  assert (Hmap : forall (A : Type) (f : proxy -> A),
            (forall p p', same_but_state p p' -> f p' = f p) ->
            map f (proxies w1) = map f (proxies w)).
  { intros A f Hf. induction Hall as [|p p' l l' Hp _ IH]; simpl;
      [reflexivity|]. now rewrite (Hf p p' Hp), IH. }
  split; [apply Hmap; intros p p' [-> _]; reflexivity|].
  split; [apply Hmap; intros p p' [-> _]; reflexivity|].
  subst w1. unfold maintain_proxies.
  destruct (admission_globals next w) as (Hn & Hs & _ & Hu & Ha & _).
  destruct (admission next w) as [n1 w0]. simpl in *.
  unfold drain. destruct (negb (stopping w0 =? 0)); [|auto].
  destruct (drain_loop _ _ _ _) as [[[l2 n2] c2] e2]. simpl. auto.
Qed.

(** X14.  [maintain_proxies] never touches a STOPPED proxy; and while
    [stopping] is not set, it touches no proxy outside the IDLE and
    RUNNING states: NEW, PAUSED and ERROR proxies are left as they
    are. *)
Theorem maintain_proxies_leaves_alone (next : Z) (w : world) :
  Forall2 (fun p p' =>
             (px_state p = PR_STSTOPPED -> p' = p) /\
             (stopping w = 0 -> px_state p <> PR_STRUN ->
              px_state p <> PR_STIDLE -> p' = p))
          (proxies w) (proxies (snd (maintain_proxies next w))).
Proof.
  apply maintain_proxies_all.
  intros p p1 p2 _ Hstopped Hother _ [[_ ->]|(Hs & _ & Hkeep & _)].
  - split; [exact Hstopped|]. intros _. exact Hother.
  - split.
    + intros S. pose proof (Hstopped S) as E1. subst p1. now apply Hkeep.
    + intros Z0. contradiction.
Qed.

(** X15.  Once [stopping] is set, [maintain_proxies] leaves no proxy
    behind whose grace has run out: every proxy is STOPPED afterwards,
    or [tick_remain(now_ms, stop_time)] is not 0 for it. *)
Theorem maintain_proxies_drains (next : Z) (w : world) :
  stopping w <> 0 ->
  Forall (fun p' => px_state p' = PR_STSTOPPED \/
                    tick_remain (now_ms w) (px_stop_time p') <> 0)
         (proxies (snd (maintain_proxies next w))).
Proof.
  intros Hs.
  assert (Hall : Forall2 (fun (_ p' : proxy) =>
              px_state p' = PR_STSTOPPED \/
              tick_remain (now_ms w) (px_stop_time p') <> 0)
            (proxies w) (proxies (snd (maintain_proxies next w)))).
  { unfold maintain_proxies.
    destruct (admission_globals next w) as (Hn & Hst & _).
    pose proof (admission_all (fun p p1 => same_but_state p p1) next w
                  (gate_proxy_same (now_ms w)) do_block_same) as Hadm.
    destruct (admission next w) as [n1 w1]. simpl in *.
    unfold drain. rewrite Hst.
    destruct (Z.eqb_spec (stopping w) 0) as [|_]; [contradiction|]. simpl.
    rewrite Hn.
    pose proof (drain_loop_all
                  (fun (_ p' : proxy) =>
                     px_state p' = PR_STSTOPPED \/
                     tick_remain (now_ms w) (px_stop_time p') <> 0)
                  (now_ms w) (fun _ _ _ _ _ D => D) (proxies w1) n1
                  (listeners w1)) as Hd.
    destruct (drain_loop (now_ms w) (proxies w1) n1 (listeners w1))
      as [[[l2 n2] c2] e2]. simpl in *.
    eapply Forall2_compose; [|exact Hadm|exact Hd]. simpl. auto. }
  induction Hall; constructor; auto.
Qed.

End Further.

Section Further_rest.

Context `{Env} `{Sys}.

(** ** proxy_parse_rate_limit *)

(** X16.  With [args'] the words after an optional leading
    "rate-limit": [proxy_parse_rate_limit] returns -1 and leaves the
    proxy as it was when [args'[0]] is not "sessions", when [args'[1]]
    is empty, or when [strtoul] stops before the end of [args'[1]].
    Otherwise the value, as an [unsigned int], is stored in
    [fe_sps_lim]; the return value is then 1 when the proxy has no FE
    capability, or when a default proxy is given and the proxy's
    current limit differs from the default's, and 0 otherwise. *)
Theorem proxy_parse_rate_limit_result (args : list string) (section : Z)
    (px : proxy) (defpx : option proxy) :
  let args' := if streq (arg 0 args) "rate-limit" then tl args else args in
  let r := proxy_parse_rate_limit args section px defpx in
  (arg 0 args' <> "sessions" -> pr_ret r = -1 /\ pr_proxy r = px) /\
  (arg 0 args' = "sessions" ->
   (arg 1 args' = EmptyString -> pr_ret r = -1 /\ pr_proxy r = px) /\
   (forall value c rest, arg 1 args' <> EmptyString ->
      strtoul (arg 1 args') 0 = (value, String c rest) ->
      pr_ret r = -1 /\ pr_proxy r = px) /\
   (forall value, arg 1 args' <> EmptyString ->
      strtoul (arg 1 args') 0 = (value, EmptyString) ->
      pr_proxy r = set_px_fe_sps_lim (value mod 2 ^ 32) px /\
      px_fe_sps_lim (pr_proxy r) = value mod 2 ^ 32 /\
      0 <= px_fe_sps_lim (pr_proxy r) < 2 ^ 32 /\
      (Z.land (px_cap px) PR_CAP_FE = 0 \/
       (exists d, defpx = Some d /\ px_fe_sps_lim px <> px_fe_sps_lim d) ->
       pr_ret r = 1) /\
      (~ (Z.land (px_cap px) PR_CAP_FE = 0 \/
          (exists d, defpx = Some d /\ px_fe_sps_lim px <> px_fe_sps_lim d)) ->
       pr_ret r = 0))).
Proof.
  intros args' r. subst r. unfold proxy_parse_rate_limit. fold args'.
  unfold streq.
  destruct (String.eqb_spec (arg 0 args') "sessions") as [K|K].
  2: { split; [intros _; split; reflexivity|intros; contradiction]. }
  split; [intros; contradiction|]. intros _.
  destruct (String.eqb_spec (arg 1 args') EmptyString) as [E|E].
  { split; [intros _; split; reflexivity|]. split; intros; contradiction. }
  split; [intros; contradiction|].
  split.
  - intros value c rest _ P. rewrite P. split; reflexivity.
  - intros value _ P. rewrite P.
    assert (Hrange : 0 <= value mod 2 ^ 32 < 2 ^ 32)
      by (apply Z.mod_pos_bound; lia).
    destruct (has_bits (px_cap px) PR_CAP_FE) eqn:Hcap; simpl.
    + apply has_bits_true in Hcap.
      destruct defpx as [d|].
      * destruct (Z.eqb_spec (px_fe_sps_lim px) (px_fe_sps_lim d)) as [Q|Q];
          simpl; (split; [reflexivity|]); (split; [reflexivity|]);
          (split; [exact Hrange|]); split; try reflexivity.
        -- intros [Z0|(d' & [= <-] & Hd)]; contradiction.
        -- intros Hno. elim Hno. right. exists d. auto.
      * (split; [reflexivity|]); (split; [reflexivity|]);
          (split; [exact Hrange|]); split; try reflexivity.
        intros [Z0|(d' & D & _)]; [contradiction|discriminate].
    + apply has_bits_false in Hcap.
      (split; [reflexivity|]); (split; [reflexivity|]);
        (split; [exact Hrange|]); split; try reflexivity.
      intros Hno. elim Hno. now left.
Qed.

(** ** findproxy_mode *)

Lemma findproxy_mode_loop_found t name mode cap l :
  (candidates name cap l = [] ->
   findproxy_mode_loop (Some t) name mode cap l = (Some t, [])) /\
  (candidates name cap l <> [] ->
   fst (findproxy_mode_loop (Some t) name mode cap l) = None /\
   snd (findproxy_mode_loop (Some t) name mode cap l) <> []).
Proof.
  unfold candidates, bears. induction l as [|q l IH]; simpl.
  - split; [reflexivity|]. intros Hn. now elim Hn.
  - destruct (Z.land (px_cap q) cap =? cap); simpl; [|exact IH].
    destruct (streq (px_id q) name); simpl; [|exact IH].
    split; [discriminate|]. intros _.
    destruct (mode_fits (px_mode q) mode); simpl; split;
      try reflexivity; discriminate.
Qed.

Lemma findproxy_mode_loop_fresh name mode cap l :
  match candidates name cap l with
  | [] => findproxy_mode_loop None name mode cap l = (None, [])
  | [p] =>
      if mode_fits (px_mode p) mode
      then findproxy_mode_loop None name mode cap l = (Some p, [])
      else fst (findproxy_mode_loop None name mode cap l) = None /\
           snd (findproxy_mode_loop None name mode cap l) <> []
  | _ => fst (findproxy_mode_loop None name mode cap l) = None /\
         snd (findproxy_mode_loop None name mode cap l) <> []
  end.
Proof.
  induction l as [|q l IH]; simpl; [reflexivity|].
  unfold candidates in *. simpl. unfold bears at 1.
  destruct (Z.land (px_cap q) cap =? cap); simpl; [|exact IH].
  destruct (streq (px_id q) name); simpl; [|exact IH].
  destruct (findproxy_mode_loop_found q name mode cap l) as [Hnone Hsome].
  unfold candidates in *.
  destruct (mode_fits (px_mode q) mode); simpl.
  - destruct (filter (bears name cap) l) as [|q' l'].
    + now apply Hnone.
    + apply Hsome. discriminate.
  - destruct (filter (bears name cap) l) as [|q' l'];
      split; try reflexivity; discriminate.
Qed.

(** X17.  [findproxy_mode] returns a proxy exactly when [findproxy]
    returns it and its mode fits: it is the mode asked for, or it is
    HTTP while TCP is asked for; no alert is raised then.  It fails
    without an alert only when no proxy has the capabilities and the
    name. *)
Theorem findproxy_mode_agrees (name : string) (mode : pr_mode) (cap : Z)
    (w : world) :
  (forall p, fst (findproxy_mode name mode cap w) = Some p <->
     findproxy name cap w = Some p /\
     (px_mode p = mode \/ px_mode p = PR_MODE_HTTP /\ mode = PR_MODE_TCP)) /\
  (forall p, fst (findproxy_mode name mode cap w) = Some p ->
     snd (findproxy_mode name mode cap w) = []) /\
  (findproxy_mode name mode cap w = (None, []) <->
   candidates name cap (proxies w) = []).
Proof.
  assert (Hfits : forall a b, mode_fits a b = true <->
            a = b \/ a = PR_MODE_HTTP /\ b = PR_MODE_TCP).
  { intros a b. destruct a, b; simpl; split; intros; try tauto;
      try discriminate;
      repeat match goal with
             | Hx : _ \/ _ |- _ => destruct Hx
             | Hx : _ /\ _ |- _ => destruct Hx
             end; discriminate. }
  unfold findproxy_mode, findproxy. rewrite findproxy_loop_fresh.
  pose proof (findproxy_mode_loop_fresh name mode cap (proxies w)) as L.
  destruct (candidates name cap (proxies w)) as [|q [|q' l]].
  - rewrite L. simpl. split; [|split].
    + intros p. split; [discriminate|]. intros [D _]. discriminate.
    + intros; discriminate.
    + tauto.
  - pose proof (Hfits (px_mode q) mode) as F.
    destruct (mode_fits (px_mode q) mode).
    + rewrite L. simpl. split; [|split].
      * intros p. split.
        -- intros [= <-]. split; [reflexivity|]. now apply F.
        -- intros [[= <-] _]. reflexivity.
      * reflexivity.
      * split; discriminate.
    + destruct L as [L1 L2]. split; [|split].
      * intros p. rewrite L1. split; [discriminate|].
        intros [[= <-] Hm]. apply F in Hm. discriminate.
      * intros p. rewrite L1. discriminate.
      * split; [|discriminate]. intros E. rewrite E in L2. now elim L2.
  - destruct L as [L1 L2]. split; [|split].
    + intros p. rewrite L1. split; [discriminate|]. intros [D _].
      discriminate.
    + intros p. rewrite L1. discriminate.
    + split; [|discriminate]. intros E. rewrite E in L2. now elim L2.
Qed.

(** ** add_switch_entry *)

(** Whether [delbackend] refuses depends on the list of proxies only. *)
Lemma refused_spec (fuel : nat) (px : address) (w : world) :
  refused (delbackend fuel px w) w <->
  exists p, find (fun q => addr_eqb (px_addr q) px) (proxies w) = Some p /\
            find_reference p (proxies w) <> None.
Proof.
  unfold refused, delbackend, proxy_at.
  destruct (find _ (proxies w)) as [p|].
  - destruct (find_reference p (proxies w)) as [ev|] eqn:R.
    + split.
      * intros _. exists p. split; [reflexivity|]. rewrite R. discriminate.
      * intros _. eexists. split; reflexivity.
    + split.
      * intros (w' & D & _). destruct (delete_servers fuel px w); discriminate.
      * intros (p' & [= <-] & Hn). now elim Hn.
  - split.
    + intros (w' & D & _). discriminate.
    + intros (p' & D & _). discriminate.
Qed.

(** X18.  [add_switch_entry] returns 0 exactly when [findproxy]
    designates a frontend and a backend for the two names; it then
    inserts the domain with that backend in the table of that frontend,
    and otherwise inserts nothing.  In no case does it change the list
    of proxies, their default backends or their switching rules: so
    [delbackend] refuses a backend afterwards exactly when it refused
    it before, the new entry of the table does not protect the
    backend. *)
Theorem add_switch_entry_outcome (frontend backend domain : string)
    (w : world) :
  let r := add_switch_entry frontend backend domain w in
  (fst (fst r) = 0 <->
   exists fe be, findproxy frontend PR_CAP_FE w = Some fe /\
                 findproxy backend PR_CAP_BE w = Some be) /\
  (forall fe be, findproxy frontend PR_CAP_FE w = Some fe ->
     findproxy backend PR_CAP_BE w = Some be ->
     snd r = Some (px_addr fe, domain, px_addr be)) /\
  (fst (fst r) <> 0 -> fst (fst r) = 1 /\ snd r = None) /\
  proxies (snd (fst r)) = proxies w /\
  (forall fuel px,
     refused (delbackend fuel px (snd (fst r))) (snd (fst r)) <->
     refused (delbackend fuel px w) w).
Proof.
  intros r.
  assert (Hl : proxies (snd (fst r)) = proxies w).
  { subst r. unfold add_switch_entry.
    destruct (findproxy frontend PR_CAP_FE w); [|reflexivity].
    destruct (findproxy backend PR_CAP_BE w); reflexivity. }
  split; [|split; [|split; [|split; [exact Hl|]]]].
  - subst r. unfold add_switch_entry.
    destruct (findproxy frontend PR_CAP_FE w) as [fe|]; simpl.
    + destruct (findproxy backend PR_CAP_BE w) as [be|]; simpl.
      * split; [|reflexivity]. intros _. exists fe, be. auto.
      * split; [discriminate|]. intros (fe' & be' & _ & D). discriminate.
    + split; [discriminate|]. intros (fe' & be' & D & _). discriminate.
  - intros fe be Hfe Hbe. subst r. unfold add_switch_entry.
    now rewrite Hfe, Hbe.
  - subst r. unfold add_switch_entry.
    destruct (findproxy frontend PR_CAP_FE w) as [fe|]; simpl.
    + destruct (findproxy backend PR_CAP_BE w) as [be|]; simpl.
      * intros Hn. now elim Hn.
      * intros _. split; reflexivity.
    + intros _. split; reflexivity.
  - intros fuel px. rewrite !refused_spec, Hl. reflexivity.
Qed.

(** ** start_proxies *)

Lemma lor_1_nonzero (x : Z) : Z.lor x 1 <> 0.
Proof. rewrite Z.lor_eq_0_iff. intros [_ D]. discriminate. Qed.

Lemma land_lor_zero_l (x a b : Z) :
  Z.land x (Z.lor a b) = 0 -> Z.land x a = 0 /\ Z.land x b = 0.
Proof. rewrite Z.land_lor_distr_r, Z.lor_eq_0_iff. tauto. Qed.

Lemma lor_land_zero (x y m : Z) :
  Z.land x m = 0 -> Z.land y m = 0 -> Z.land (Z.lor x y) m = 0.
Proof. intros A B. rewrite Z.land_lor_distr_l, A, B. reflexivity. Qed.

Lemma Forall2_same {A : Type} (R : A -> A -> Prop) (l : list A) :
  (forall x, R x x) -> Forall2 R l l.
Proof. intros Hr. induction l; constructor; auto. Qed.

Lemma bind_listeners_touch verbose p l err pxerr :
  Forall2 started_listener l
    (fst (fst (fst (bind_listeners verbose p l err pxerr)))).
Proof.
  revert err pxerr. induction l as [|li rest IH]; intros err pxerr; simpl.
  - constructor.
  - destruct (Z.eqb_spec (li_state li) LI_ASSIGNED) as [A|A]; simpl.
    + destruct (tcp_bind_listener li) as [[lerr li1] msg] eqn:T.
      assert (St : started_listener li li1).
      { right. split; [exact A|]. now rewrite T. }
      destruct (has_bits lerr (Z.lor ERR_ABORT ERR_FATAL)).
      * simpl. constructor; [exact St|].
        apply Forall2_same. intros x. now left.
      * specialize (IH (Z.lor err lerr)
                       (if has_bits lerr ERR_CODE then Z.lor pxerr 1
                        else pxerr)).
        destruct (bind_listeners verbose p rest _ _) as [[[r e] px] c].
        simpl in *. constructor; assumption.
    + specialize (IH err pxerr).
      destruct (bind_listeners verbose p rest err pxerr) as [[[r e] px] c].
      simpl in *. constructor; [now left|assumption].
Qed.

Lemma bind_listeners_failed verbose p l err pxerr :
  snd (fst (bind_listeners verbose p l err pxerr)) = 0 ->
  pxerr = 0 /\
  Forall (fun li => li_state li = LI_ASSIGNED -> binds_cleanly li) l.
Proof.
  revert err pxerr. induction l as [|li rest IH]; intros err pxerr; simpl.
  - intros ->. split; [reflexivity|constructor].
  - destruct (Z.eqb_spec (li_state li) LI_ASSIGNED) as [A|A]; simpl.
    + destruct (tcp_bind_listener li) as [[lerr li1] msg] eqn:T. simpl.
      destruct (has_bits lerr (Z.lor ERR_ABORT ERR_FATAL)) eqn:F.
      * simpl. intros D. now apply lor_1_nonzero in D.
      * specialize (IH (Z.lor err lerr)
                       (if has_bits lerr ERR_CODE then Z.lor pxerr 1
                        else pxerr)).
        destruct (bind_listeners verbose p rest _ _) as [[[r e] px] c].
        simpl in *. intros D. destruct (IH D) as [P0 Hall].
        destruct (has_bits lerr ERR_CODE) eqn:C.
        -- now apply lor_1_nonzero in P0.
        -- split; [exact P0|]. constructor; [|exact Hall].
           intros _. apply has_bits_false in F, C. unfold binds_cleanly.
           rewrite T. auto.
    + specialize (IH err pxerr).
      destruct (bind_listeners verbose p rest err pxerr) as [[[r e] px] c].
      simpl in *. intros D. destruct (IH D) as [P0 Hall].
      split; [exact P0|]. constructor; [|exact Hall].
      intros; contradiction.
Qed.

Lemma bind_listeners_clean verbose p l err pxerr :
  Forall (fun li => li_state li = LI_ASSIGNED -> binds_cleanly li) l ->
  Z.land err ERR_ABORT = 0 ->
  fst (fst (fst (bind_listeners verbose p l err pxerr))) = map bound l /\
  Z.land (snd (fst (fst (bind_listeners verbose p l err pxerr)))) ERR_ABORT = 0 /\
  snd (fst (bind_listeners verbose p l err pxerr)) = pxerr.
Proof.
  revert err pxerr. induction l as [|li rest IH]; intros err pxerr Hall He;
    simpl.
  - auto.
  - inversion Hall as [|x y Hli Hrest]; subst. unfold bound at 1.
    destruct (Z.eqb_spec (li_state li) LI_ASSIGNED) as [A|A]; simpl.
    + destruct (Hli A) as [F C]. unfold binds_cleanly in *.
      destruct (tcp_bind_listener li) as [[lerr li1] msg] eqn:T.
      simpl in *.
      pose proof F as F'. apply land_lor_zero_l in F'. destruct F' as [Fa _].
      apply has_bits_false in F, C. rewrite F, C.
      assert (He1 : Z.land (Z.lor err lerr) ERR_ABORT = 0)
        by now apply lor_land_zero.
      specialize (IH (Z.lor err lerr) pxerr Hrest He1).
      destruct (bind_listeners verbose p rest _ _) as [[[r e] px] c].
      simpl in *. destruct IH as (-> & E & ->). auto.
    + specialize (IH err pxerr Hrest He).
      destruct (bind_listeners verbose p rest err pxerr) as [[[r e] px] c].
      simpl in *. destruct IH as (-> & E & ->). auto.
Qed.

Lemma start_proxy_started verbose p err :
  px_state p = PR_STNEW ->
  started p (fst (fst (start_proxy verbose p err))).
Proof.
  intros Hnew. unfold start_proxy.
  pose proof (bind_listeners_touch verbose p (px_listen p) err 0) as Ht.
  destruct (bind_listeners verbose p (px_listen p) err 0) as [[[l e] px] c].
  simpl in Ht.
  assert (Hlen : List.length l = List.length (px_listen p))
    by (symmetry; eapply Forall2_length; eassumption).
  destruct (px =? 0); simpl.
  - split; [split; [reflexivity|exact Hlen]|].
    split; [intros; contradiction|]. split; [now right|exact Ht].
  - split; [split; [now destruct p|exact Hlen]|].
    split; [intros; contradiction|]. split; [now left|exact Ht].
Qed.

Lemma started_refl (p : proxy) : started p p.
Proof.
  split; [apply same_but_state_refl|]. split; [reflexivity|].
  split; [now left|]. apply Forall2_same. intros x. now left.
Qed.

Lemma start_loop_started verbose l err :
  Forall2 started l (fst (fst (start_loop verbose l err))).
Proof.
  revert err. induction l as [|p next IH]; intros err; simpl.
  - constructor.
  - destruct (pr_state_eqb (px_state p) PR_STNEW) eqn:E; simpl.
    + apply pr_state_eqb_eq in E.
      pose proof (start_proxy_started verbose p err E) as Hs.
      destruct (start_proxy verbose p err) as [[p1 e1] c1]. simpl in Hs.
      destruct (has_bits e1 ERR_ABORT).
      * simpl. constructor; [exact Hs|].
        apply Forall2_same, started_refl.
      * specialize (IH e1).
        destruct (start_loop verbose next e1) as [[n2 e2] c2]. simpl in *.
        constructor; assumption.
    + specialize (IH err).
      destruct (start_loop verbose next err) as [[n1 e1] c1]. simpl in *.
      constructor; [apply started_refl|assumption].
Qed.

(** X19.  [start_proxies] touches NEW proxies only, and of a proxy only
    its state and its listeners: the state stays as it was or becomes
    IDLE, and each listener is left alone or, if it was ASSIGNED, is
    what [tcp_bind_listener] made of it; no listener is added or
    removed. *)
Theorem start_proxies_touches_new_only (verbose : Z) (w : world) :
  Forall2 started (proxies w) (proxies (snd (start_proxies verbose w))).
Proof.
  unfold start_proxies.
  pose proof (start_loop_started verbose (proxies w) ERR_NONE) as Hs.
  destruct (start_loop verbose (proxies w) ERR_NONE) as [[l e] c].
  exact Hs.
Qed.

Lemma start_proxy_idle verbose p err :
  px_state p = PR_STNEW ->
  px_state (fst (fst (start_proxy verbose p err))) = PR_STIDLE ->
  starts_cleanly p.
Proof.
  intros Hnew. unfold start_proxy, starts_cleanly.
  pose proof (bind_listeners_failed verbose p (px_listen p) err 0) as Hf.
  destruct (bind_listeners verbose p (px_listen p) err 0) as [[[l e] px] c].
  simpl in Hf.
  destruct (Z.eqb_spec px 0) as [Z0|Z0]; simpl.
  - intros _. now apply Hf.
  - rewrite Hnew. discriminate.
Qed.

Lemma start_loop_idle verbose l err :
  Forall2 (fun p p' => px_state p = PR_STNEW -> px_state p' = PR_STIDLE ->
                       starts_cleanly p)
    l (fst (fst (start_loop verbose l err))).
Proof.
  revert err. induction l as [|p next IH]; intros err; simpl.
  - constructor.
  - destruct (pr_state_eqb (px_state p) PR_STNEW) eqn:E; simpl.
    + pose proof (start_proxy_idle verbose p err) as Hs.
      destruct (start_proxy verbose p err) as [[p1 e1] c1]. simpl in Hs.
      destruct (has_bits e1 ERR_ABORT).
      * simpl. constructor; [exact Hs|].
        apply Forall2_same. intros x Hx Hy. congruence.
      * specialize (IH e1).
        destruct (start_loop verbose next e1) as [[n2 e2] c2]. simpl in *.
        constructor; assumption.
    + specialize (IH err).
      destruct (start_loop verbose next err) as [[n1 e1] c1]. simpl in *.
      constructor; [|assumption]. intros Hx Hy. congruence.
Qed.

(** X20.  After [start_proxies], a proxy that was NEW is IDLE only if
    every one of its ASSIGNED listeners was bound with no bit of
    [ERR_ABORT], [ERR_FATAL] or [ERR_CODE] in the result: one failed
    bind keeps the proxy NEW. *)
Theorem start_proxies_idle_only_if_clean (verbose : Z) (w : world) :
  Forall2 (fun p p' => px_state p = PR_STNEW -> px_state p' = PR_STIDLE ->
                       starts_cleanly p)
    (proxies w) (proxies (snd (start_proxies verbose w))).
Proof.
  unfold start_proxies.
  pose proof (start_loop_idle verbose (proxies w) ERR_NONE) as Hs.
  destruct (start_loop verbose (proxies w) ERR_NONE) as [[l e] c].
  exact Hs.
Qed.

Lemma start_loop_clean verbose l err :
  Forall (fun p => px_state p = PR_STNEW -> starts_cleanly p) l ->
  Z.land err ERR_ABORT = 0 ->
  fst (fst (start_loop verbose l err)) = map start_of l /\
  Z.land (snd (fst (start_loop verbose l err))) ERR_ABORT = 0 /\
  Forall (fun p => px_state p = PR_STNEW ->
            In (send_log (Some (px_addr p)) "Proxy %s started.\n"
                         [Str (px_id p)])
               (snd (start_loop verbose l err))) l.
Proof.
  revert err. induction l as [|p next IH]; intros err Hall He; simpl.
  - auto.
  - inversion Hall as [|x y Hp Hnext]; subst. unfold start_of at 1.
    destruct (pr_state_eqb (px_state p) PR_STNEW) eqn:E; simpl.
    + apply pr_state_eqb_eq in E. unfold start_proxy.
      destruct (bind_listeners_clean verbose p (px_listen p) err 0 (Hp E) He)
        as (Hl & He1 & Hpx).
      destruct (bind_listeners verbose p (px_listen p) err 0)
        as [[[l1 e1] px] c1].
      simpl in *. subst px l1. simpl.
      apply has_bits_false in He1. rewrite He1.
      destruct (IH e1 Hnext) as (Hm & He2 & Hlog);
        [now apply has_bits_false|].
      destruct (start_loop verbose next e1) as [[n2 e2] c2]. simpl in *.
      subst n2. split; [reflexivity|]. split; [exact He2|].
      constructor.
      * intros _. apply in_or_app. left. apply in_or_app. right. now left.
      * eapply Forall_impl; [|exact Hlog]. intros q Hq Hn.
        apply in_or_app. right. auto.
    + destruct (IH err Hnext He) as (Hm & He2 & Hlog).
      destruct (start_loop verbose next err) as [[n1 e1] c1]. simpl in *.
      subst n1. split; [reflexivity|]. split; [exact He2|].
      constructor; [|exact Hlog]. intros D. rewrite D in E. discriminate.
Qed.

(** X21.  If [ERR_NONE] has no bit of [ERR_ABORT] and every ASSIGNED
    listener of every NEW proxy binds cleanly, then after
    [start_proxies] every proxy that was NEW is IDLE and each of its
    listeners that was ASSIGNED is what [tcp_bind_listener] made of it,
    the other listeners being as they were; nothing else has changed in
    it, and the other proxies are as they were.  "Proxy ... started."
    is logged for each NEW proxy, and the value returned has no bit of
    [ERR_ABORT]. *)
Theorem start_proxies_all_started (verbose : Z) (w : world) :
  Z.land ERR_NONE ERR_ABORT = 0 ->
  Forall (fun p => px_state p = PR_STNEW -> starts_cleanly p) (proxies w) ->
  Forall2 (fun p p' =>
             same_but_state p p' /\
             (px_state p = PR_STNEW ->
              px_state p' = PR_STIDLE /\
              px_listen p' = map bound (px_listen p)) /\
             (px_state p <> PR_STNEW -> p' = p))
          (proxies w) (proxies (snd (start_proxies verbose w))) /\
  Z.land (fst (start_proxies verbose w)) ERR_ABORT = 0 /\
  Forall (fun p => px_state p = PR_STNEW ->
            In (send_log (Some (px_addr p)) "Proxy %s started.\n"
                         [Str (px_id p)])
               (trace (snd (start_proxies verbose w)))) (proxies w).
Proof.
  intros Hnone Hall. unfold start_proxies.
  destruct (start_loop_clean verbose (proxies w) ERR_NONE Hall Hnone)
    as (Hl & He & Hlog).
  destruct (start_loop verbose (proxies w) ERR_NONE) as [[l e] c].
  simpl in *. split; [|split; [exact He|]].
  - subst l. clear. induction (proxies w) as [|p l IH]; simpl;
      constructor; [|exact IH].
    unfold start_of.
    destruct (pr_state_eqb (px_state p) PR_STNEW) eqn:E.
    + split; [split; [reflexivity|simpl; now rewrite length_map]|].
      split; [intros _; split; reflexivity|].
      intros Hn. apply pr_state_eqb_eq in E. contradiction.
    + split; [apply same_but_state_refl|].
      split; [|reflexivity].
      intros Hn. apply pr_state_eqb_eq in Hn. congruence.
  - eapply Forall_impl; [|exact Hlog]. intros q Hq Hn.
    apply in_or_app. right. auto.
Qed.

(** ** soft_stop *)

Lemma Forall2_push {A B : Type} (Q : A -> Prop) (R : B -> Prop)
    (l : list A) (l' : list B) :
  Forall2 (fun a b => Q a -> R b) l l' -> Forall Q l -> Forall R l'.
Proof.
  induction 1 as [|a b l l' Hab _ IH]; intros Hq; constructor;
    inversion Hq; subst; auto.
Qed.

Lemma arm_stop_armed (now : Z) (p : proxy) :
  px_state (fst (arm_stop now p)) = px_state p /\
  (px_state p = PR_STSTOPPED -> fst (arm_stop now p) = p) /\
  (px_state p <> PR_STSTOPPED ->
   px_stop_time (fst (arm_stop now p)) = tick_add now (px_grace p) /\
   px_grace (fst (arm_stop now p)) = px_grace p).
Proof.
  unfold arm_stop.
  destruct (pr_state_eqb (px_state p) PR_STSTOPPED) eqn:E; simpl.
  - apply pr_state_eqb_eq in E. repeat split; congruence.
  - split; [reflexivity|]. split; [|auto].
    intros D. apply pr_state_eqb_eq in D. congruence.
Qed.

(** X22.  [soft_stop] sets [stopping] to 1 and arms each proxy that is
    not STOPPED with [stop_time = tick_add(now_ms, grace)].  When
    [maintain_proxies] next runs at a date where each of these stop
    times has run out ([tick_remain] is 0), every proxy is STOPPED
    afterwards. *)
Theorem soft_stop_then_maintain_proxies (d d' : date) (next : Z) (w : world) :
  Forall (fun p => px_state p <> PR_STSTOPPED ->
            tick_remain (d_ms d') (tick_add (d_ms d) (px_grace p)) = 0)
         (proxies w) ->
  stopping (soft_stop d w) = 1 /\
  Forall (fun p => px_state p = PR_STSTOPPED)
    (proxies (snd (maintain_proxies next (set_date d' (soft_stop d w))))).
Proof.
  intros Hall. split; [reflexivity|].
  set (w1 := set_date d' (soft_stop d w)).
  assert (Hs : stopping w1 <> 0) by (simpl; discriminate).
  pose proof (maintain_proxies_all
    (fun p p2 => px_state p = PR_STSTOPPED \/
                 tick_remain (d_ms d') (px_stop_time p) = 0 ->
                 px_state p2 = PR_STSTOPPED) next w1) as Hm.
  eapply Forall2_push; [apply Hm|].
  - intros p p1 p2 _ Hstop _ Ht [[Z0 _]|(_ & _ & Hstop2 & Ht2 & Hfin)];
      [contradiction|].
    intros [Hst|Hr].
    + specialize (Hstop Hst). subst p1. rewrite (Hstop2 Hst). exact Hst.
    + destruct Hfin as [Hfin|Hfin]; [exact Hfin|].
      elim Hfin. change (now_ms w1) with (d_ms d'). now rewrite Ht2, Ht.
  - change (proxies w1)
      with (map (fun p => fst (arm_stop (d_ms d) p)) (proxies w)).
    apply Forall_map. eapply Forall_impl; [|exact Hall].
    intros p Hp. destruct (arm_stop_armed (d_ms d) p) as (Hst & _ & Harm).
    destruct (pr_state_eqb (px_state p) PR_STSTOPPED) eqn:E.
    + left. apply pr_state_eqb_eq in E. congruence.
    + assert (Hn : px_state p <> PR_STSTOPPED).
      { intros D. apply pr_state_eqb_eq in D. congruence. }
      right. destruct (Harm Hn) as [-> _]. auto.
Qed.

(** ** pause_proxy, pause_proxies *)

Lemma pause_listeners_spec (p : proxy) (st : pr_state) (l : list listener) :
  pause_listeners p st l =
  (if forallb (half_closes p) l then
     match l with
     | [] => st
     | _ => if pr_state_eqb st PR_STERROR then PR_STERROR else PR_STPAUSED
     end
   else PR_STERROR,
   map li_fd (filter (half_closes p) l)).
Proof.
  revert st. induction l as [|li rest IH]; intros st; simpl; [reflexivity|].
  destruct (half_closes p li); simpl.
  - rewrite IH. destruct (forallb (half_closes p) rest); [|reflexivity].
    destruct (pr_state_eqb st PR_STERROR) eqn:E; simpl.
    + apply pr_state_eqb_eq in E. subst st. now destruct rest.
    + now destruct rest.
  - rewrite IH. destruct (forallb (half_closes p) rest); [|reflexivity].
    now destruct rest.
Qed.

Lemma forallb_Forall {A : Type} (f : A -> bool) (l : list A) :
  forallb f l = true <-> Forall (fun x => f x = true) l.
Proof.
  induction l as [|x l IH]; simpl.
  - split; [constructor|reflexivity].
  - rewrite andb_true_iff, IH. split.
    + intros [Hx Hl]. now constructor.
    + intros Hf. inversion Hf; subst. auto.
Qed.

Lemma forallb_Exists {A : Type} (f : A -> bool) (l : list A) :
  forallb f l = false <-> Exists (fun x => f x = false) l.
Proof.
  induction l as [|x l IH]; simpl.
  - split; [discriminate|]. intros D. inversion D.
  - rewrite andb_false_iff, IH. split.
    + intros [Hx|Hl]; [now left|now right].
    + intros Hf. inversion Hf; subst; auto.
Qed.

(** X23.  [pause_proxy] changes the state of the proxy only.  Without
    listeners it changes nothing at all; if one listener fails one of
    the three calls the state is ERROR; if they all succeed the state is
    PAUSED, unless it was ERROR, which it then stays.  The descriptors
    taken out of the poller are those of the listeners that succeeded. *)
Theorem pause_proxy_outcome (p : proxy) :
  fst (pause_proxy p) = set_px_state (px_state (fst (pause_proxy p))) p /\
  snd (pause_proxy p) = map li_fd (filter (half_closes p) (px_listen p)) /\
  (px_listen p = [] -> fst (pause_proxy p) = p) /\
  (Exists (fun li => half_closes p li = false) (px_listen p) ->
   px_state (fst (pause_proxy p)) = PR_STERROR) /\
  (pauses p ->
   (px_state p = PR_STERROR -> px_state (fst (pause_proxy p)) = PR_STERROR) /\
   (px_state p <> PR_STERROR -> px_state (fst (pause_proxy p)) = PR_STPAUSED)).
Proof.
  unfold pause_proxy. rewrite pause_listeners_spec. simpl.
  split; [reflexivity|]. split; [reflexivity|]. split; [|split].
  - intros ->. simpl. now destruct p.
  - intros He. apply forallb_Exists in He. now rewrite He.
  - intros [Hne Hall]. apply forallb_Forall in Hall. rewrite Hall.
    destruct (px_listen p) as [|li rest]; [now elim Hne|].
    destruct (pr_state_eqb (px_state p) PR_STERROR) eqn:E; split;
      try reflexivity.
    + intros Hn. apply pr_state_eqb_eq in E. contradiction.
    + intros He. apply pr_state_eqb_eq in He. congruence.
Qed.

Lemma to_pause_spec (p : proxy) :
  to_pause p = true ->
  px_state p <> PR_STERROR /\ px_state p <> PR_STPAUSED.
Proof.
  unfold to_pause. rewrite !andb_true_iff, !negb_true_iff.
  intros [[[_ E] _] P].
  split; intros D; apply pr_state_eqb_eq in D; congruence.
Qed.

Lemma to_pause_pauses (p : proxy) :
  to_pause p = true ->
  (pr_state_eqb (px_state (fst (pause_proxy p))) PR_STPAUSED = true <->
   pauses p).
Proof.
  intros Hp. apply to_pause_spec in Hp. destruct Hp as [He Hpa].
  rewrite pr_state_eqb_eq. unfold pause_proxy, pauses.
  rewrite pause_listeners_spec. simpl. rewrite <- forallb_Forall.
  destruct (forallb (half_closes p) (px_listen p)).
  - destruct (px_listen p) as [|li rest].
    + split; [contradiction|]. intros [Hn _]. now elim Hn.
    + destruct (pr_state_eqb (px_state p) PR_STERROR) eqn:E.
      * apply pr_state_eqb_eq in E. contradiction.
      * split; [|reflexivity]. intros _. split; [discriminate|reflexivity].
  - split; [discriminate|]. intros [_ D]. discriminate.
Qed.

Lemma pause_loop_spec (l : list proxy) (err : Z) :
  fst (fst (fst (pause_loop l err))) =
    map (fun p => if to_pause p then fst (pause_proxy p) else p) l /\
  snd (fst (fst (pause_loop l err))) =
    if existsb (fun p => to_pause p &&
                  negb (pr_state_eqb (px_state (fst (pause_proxy p)))
                                     PR_STPAUSED)) l
    then Z.lor err 1 else err.
Proof.
  revert err. induction l as [|p next IH]; intros err; simpl; [auto|].
  destruct (to_pause p); simpl.
  - destruct (pause_proxy p) as [p1 fds]. simpl.
    destruct (pr_state_eqb (px_state p1) PR_STPAUSED); simpl.
    + specialize (IH err).
      destruct (pause_loop next err) as [[[n e] c] f]. simpl in *.
      destruct IH as [-> ->]. auto.
    + specialize (IH (Z.lor err 1)).
      destruct (pause_loop next (Z.lor err 1)) as [[[n e] c] f]. simpl in *.
      destruct IH as [-> ->]. split; [reflexivity|].
      rewrite <- Z.lor_assoc. change (Z.lor 1 1) with 1.
      now destruct (existsb _ next).
  - specialize (IH err).
    destruct (pause_loop next err) as [[[n e] c] f]. simpl in *.
    destruct IH as [-> ->]. auto.
Qed.

(** X24.  If every proxy that [pause_proxies] has to pause (a frontend
    that is not in ERROR, STOPPED or PAUSED state) has listeners that
    all go through the three calls, then afterwards these proxies are
    PAUSED, the others are as they were, nothing else changed in any
    proxy, and no soft stop is started: [stopping] is as before. *)
Theorem pause_proxies_all_paused (d d' : date) (w : world) :
  Forall (fun p => to_pause p = true -> pauses p) (proxies w) ->
  proxies (fst (pause_proxies d d' w)) = map pause_of (proxies w) /\
  stopping (fst (pause_proxies d d' w)) = stopping w /\
  now_ms (fst (pause_proxies d d' w)) = d_ms d.
Proof.
  intros Hall. unfold pause_proxies.
  change (proxies (set_date d w)) with (proxies w).
  destruct (pause_loop_spec (proxies w) 0) as [Hl He].
  destruct (pause_loop (proxies w) 0) as [[[l e] c] f]. simpl in Hl, He.
  assert (Hno : existsb (fun p => to_pause p &&
                  negb (pr_state_eqb (px_state (fst (pause_proxy p)))
                                     PR_STPAUSED)) (proxies w) = false /\
                map (fun p => if to_pause p then fst (pause_proxy p) else p)
                    (proxies w) = map pause_of (proxies w)).
  { clear Hl He. induction Hall as [|p rest Hp _ IH]; simpl; [auto|].
    destruct IH as [-> ->].
    change (pause_of p)
      with (if to_pause p then set_px_state PR_STPAUSED p else p).
    destruct (to_pause p) eqn:E; simpl; [|auto].
    pose proof (proj2 (to_pause_pauses p E) (Hp eq_refl)) as Hst.
    rewrite Hst. simpl. split; [reflexivity|]. f_equal.
    apply pr_state_eqb_eq in Hst.
    destruct (pause_proxy_outcome p) as (Hfst & _). rewrite Hfst, Hst.
    reflexivity. }
  destruct Hno as [Hex Hmap]. rewrite Hex in He. subst e. simpl.
  rewrite Hl, Hmap. auto.
Qed.

(** X25.  If some proxy that [pause_proxies] has to pause has no
    listener, or a listener that fails one of the three calls, a soft
    stop follows: the refusal is reported, [stopping] is 1 and every
    proxy that is not STOPPED has [stop_time = tick_add(now_ms, grace)],
    [now_ms] being the date of the soft stop. *)
Theorem pause_proxies_refusal_stops (d d' : date) (w : world) :
  Exists (fun p => to_pause p = true /\ ~ pauses p) (proxies w) ->
  stopping (fst (pause_proxies d d' w)) = 1 /\
  now_ms (fst (pause_proxies d d' w)) = d_ms d' /\
  In (Warning "Some proxies refused to pause, performing soft stop now.\n" [])
     (trace (fst (pause_proxies d d' w))) /\
  Forall (fun p => px_state p <> PR_STSTOPPED ->
            px_stop_time p = tick_add (d_ms d') (px_grace p))
         (proxies (fst (pause_proxies d d' w))).
Proof.
  intros Hex. unfold pause_proxies.
  change (proxies (set_date d w)) with (proxies w).
  destruct (pause_loop_spec (proxies w) 0) as [Hl He].
  destruct (pause_loop (proxies w) 0) as [[[l e] c] f]. simpl in Hl, He.
  assert (Hyes : existsb (fun p => to_pause p &&
                  negb (pr_state_eqb (px_state (fst (pause_proxy p)))
                                     PR_STPAUSED)) (proxies w) = true).
  { clear Hl He. apply existsb_exists. apply Exists_exists in Hex.
    destruct Hex as (p & Hin & Hp & Hn). exists p. split; [exact Hin|].
    rewrite Hp. simpl. apply negb_true_iff.
    destruct (pr_state_eqb (px_state (fst (pause_proxy p))) PR_STPAUSED)
      eqn:E; [|reflexivity].
    elim Hn. now apply to_pause_pauses. }
  rewrite Hyes in He. subst e. simpl.
  split; [reflexivity|]. split; [reflexivity|]. split.
  - apply in_or_app. left. apply in_or_app. left. apply in_or_app. right.
    now left.
  - apply Forall_map. apply Forall_forall. intros p _.
    destruct (arm_stop_armed (d_ms d') p) as (Hst & _ & Harm).
    rewrite Hst. intros Hn. destruct (Harm Hn) as [-> ->]. reflexivity.
Qed.

End Further_rest.

(** ** The model at work on concrete states *)

#[local] Existing Instance sample_env.

(** C1 at work: the full frontend and the frontend at its rate limit
    are blocked, the idle one is released, and the wake-up tick is
    100 ms from now. *)
Lemma maintain_proxies_admission_witness :
  let r := maintain_proxies 0 sample_gate in
  fst r = 5100 /\
  map px_state (proxies (snd r)) = [PR_STIDLE; PR_STIDLE; PR_STRUN] /\
  map px_listen (proxies (snd r)) =
    [[{| li_fd := 7; li_state := 3 |}; {| li_fd := 8; li_state := 3 |}];
     [{| li_fd := 7; li_state := 3 |}; {| li_fd := 8; li_state := 3 |}];
     [{| li_fd := 9; li_state := 4 |}]].
Proof.
  intros r.
  destruct (maintain_proxies_admission 0 sample_gate) as (Hall & Htick & _).
  assert (Hact : actconn sample_gate < global_maxconn sample_gate)
    by (simpl; lia).
  split; [exact Htick|].
  change (proxies sample_gate) with [fe_full; fe_limited; fe_idle] in Hall.
  apply Forall2_cons_inv in Hall. destruct Hall as (a & la & Ea & [Ha _] & Hall).
  apply Forall2_cons_inv in Hall. destruct Hall as (b & lb & Eb & [Hb _] & Hall).
  apply Forall2_cons_inv in Hall. destruct Hall as (c & lc & Ec & [Hc _] & Hall).
  apply Forall2_nil_inv in Hall. subst la lb lc.
  unfold r. rewrite Ea.
  assert (Hfull : full fe_full) by (unfold full; simpl; lia).
  assert (Hlim : rate_limited fe_limited)
    by (split; vm_compute; discriminate).
  assert (Hnotfull : ~ full fe_idle) by (unfold full; simpl; lia).
  assert (Hnolim : ~ rate_limited fe_idle)
    by (intros [Hl _]; apply Hl; reflexivity).
  assert (Hsp : forall p, spared sample_gate p) by (intros p; now left).
  destruct (Ha (Hsp _)) as (Hblock_a & _).
  destruct (Hb (Hsp _)) as (Hblock_b & _).
  destruct (Hc (Hsp _)) as (_ & Hfree_c & _).
  destruct (Hblock_a Hact (or_introl Hfull)) as (_ & Hrun_a & _).
  destruct (Hblock_b Hact (or_intror Hlim)) as (_ & Hrun_b & _).
  destruct (Hfree_c Hact Hnotfull Hnolim) as (_ & Hidle_c & _).
  destruct (Hrun_a eq_refl) as [Sa La].
  destruct (Hrun_b eq_refl) as [Sb Lb].
  destruct (Hidle_c eq_refl) as [Sc Lc].
  simpl. rewrite Sa, Sb, Sc, La, Lb, Lc. split; reflexivity.
Defined.

(** C1 as stated fails twice.  Once [soft_stop] has been called and
    the grace has run out, the full running frontend is not idle after
    the call but stopped.  And a frontend that is full and at its rate
    limit as well leaves the wake-up tick as it was: the delay is not
    looked at. *)
Lemma maintain_proxies_admission_counterexample :
  let stopping_now := set_date much_later (soft_stop later sample_gate) in
  stopping stopping_now = 1 /\
  map px_state (proxies stopping_now) = [PR_STRUN; PR_STRUN; PR_STIDLE] /\
  map px_state (proxies (snd (maintain_proxies 0 stopping_now)))
    = [PR_STSTOPPED; PR_STSTOPPED; PR_STSTOPPED] /\
  ~ blocks_on_every_call 0 stopping_now /\
  fst (maintain_proxies 0 (sample_world [fe_both])) = 0 /\
  tick_first 0 (tick_add 5000 (rate_wait fe_both)) = 5100 /\
  ~ clamps_when_limited 0 (sample_world [fe_both]).
Proof.
  intros stopping_now.
  split; [reflexivity|]. split; [reflexivity|]. split; [reflexivity|].
  split; [|split; [reflexivity|split; [reflexivity|]]].
  - intros Hclaim.
    assert (Hact : actconn stopping_now < global_maxconn stopping_now)
      by (simpl; lia).
    specialize (Hclaim Hact).
    apply Forall2_cons_inv in Hclaim.
    destruct Hclaim as (a & la & Ea & Ha & _).
    assert (Hfull : full (fst (arm_stop 6000 fe_full)))
      by (unfold full; simpl; lia).
    destruct (Ha (or_introl Hfull) eq_refl) as [Sa _].
    assert (Hst : option_map px_state
                    (hd_error (proxies (snd (maintain_proxies 0 stopping_now))))
                  = Some PR_STSTOPPED) by reflexivity.
    rewrite Ea in Hst. simpl in Hst. rewrite Sa in Hst. discriminate Hst.
  - intros Hclaim.
    assert (Hact : actconn (sample_world [fe_both])
                   < global_maxconn (sample_world [fe_both]))
      by (simpl; lia).
    assert (Hlim : rate_limited fe_both)
      by (split; vm_compute; discriminate).
    specialize (Hclaim Hact fe_both eq_refl Hlim).
    vm_compute in Hclaim. discriminate Hclaim.
Defined.

(** C2 at work: scenario S1 of the specification. *)
Lemma addserver_new_server_witness :
  exists newsrv w1 px',
    addserver sample_mem "api" "s1" "10.0.0.1:8080" "c1" sample_registry
      = (Some 20%positive, w1) /\
    findproxy "api" PR_CAP_BE w1 = Some px' /\
    px_srv px' = [newsrv] /\
    sv_id newsrv = "s1" /\ sv_cookie newsrv = "c1" /\
    sin_port (sv_sockaddr newsrv) = htons 8080 /\
    sv_check_port newsrv = 8080 /\
    sv_maxconn newsrv = 2000 /\ sv_state newsrv = 144.
Proof.
  destruct (addserver_new_server sample_mem "api" "s1" "10.0.0.1:8080" "c1"
              sample_registry) as [_ Hgo].
  assert (Hready : addserver_ready sample_mem "api" "s1" "10.0.0.1:8080"
                     sample_registry api 20 21 22
                     {| sin_addr := 167772161; sin_port := 36895 |})
    by (repeat split; reflexivity).
  destruct (Hgo _ _ _ _ _ Hready)
    as (newsrv & w1 & px' & Hrun & Hfind & _ & Hsrv & _ & _ & Hid & Hck & _ & _
        & Hport & Hcp & _ & _ & _ & Hmax & Hst & _).
  exists newsrv, w1, px'. split; [exact Hrun|]. split; [exact Hfind|].
  split; [exact Hsrv|]. split; [exact Hid|]. split; [exact Hck|].
  split; [exact Hport|]. split; [|split; [exact Hmax|exact Hst]].
  rewrite Hcp, Hport. reflexivity.
Defined.

(** C2 as stated fails: the connection limit of the new server is the
    backend's [maxconn], 2000, not the 0 of its [defsrv]; its check
    port is the port of its address, 8080, not the 0 of [defsrv]; and
    where the two weights of [defsrv] differ, [uweight] is the
    [iweight] of [defsrv]. *)
Lemma addserver_maxconn_counterexample :
  (exists newsrv w1,
     addserver sample_mem "api" "s1" "10.0.0.1:8080" "c1" sample_registry
       = (Some 20%positive, w1) /\
     option_map px_srv (findproxy "api" PR_CAP_BE w1) = Some [newsrv] /\
     sv_maxconn newsrv = 2000 /\ sv_maxconn (px_defsrv api) = 0 /\
     sv_check_port newsrv = 8080 /\ sv_check_port (px_defsrv api) = 0 /\
     ~ all_from_defsrv newsrv (px_defsrv api)) /\
  (exists newsrv w1,
     addserver sample_mem "lopsided" "s1" "10.0.0.1:8080" "c1"
       (sample_world [lopsided]) = (Some 20%positive, w1) /\
     option_map px_srv (findproxy "lopsided" PR_CAP_BE w1) = Some [newsrv] /\
     sv_uweight newsrv = 1 /\ sv_uweight (px_defsrv lopsided) = 3 /\
     ~ all_from_defsrv newsrv (px_defsrv lopsided)).
Proof.
  split.
  - eexists. eexists. split; [reflexivity|]. split; [reflexivity|].
    split; [reflexivity|]. split; [reflexivity|].
    split; [reflexivity|]. split; [reflexivity|].
    intros (_ & Hmax & _). vm_compute in Hmax. discriminate Hmax.
  - eexists. eexists. split; [reflexivity|]. split; [reflexivity|].
    split; [reflexivity|]. split; [reflexivity|].
    intros (_ & _ & _ & Hw & _). vm_compute in Hw. discriminate Hw.
Defined.

(** C3 at work: the name of an existing backend is refused, a new name
    is accepted once and refused the second time. *)
Lemma addbackend_name_checks_witness :
  let m := {| mem_proxy := Some 5%positive; mem_hdr_idx_pool := Some 6%positive |} in
  fst (addbackend m "api" sample_registry) = 1 /\
  fst (addbackend m "web" sample_registry) = 0 /\
  fst (addbackend m "web" (snd (addbackend m "web" sample_registry))) = 1.
Proof.
  intros m.
  destruct (addbackend_name_checks m "api" sample_registry)
    as (_ & _ & Hclash & _).
  destruct (addbackend_name_checks m "web" sample_registry)
    as (_ & _ & _ & _ & Hnew & Hagain).
  assert (Hcap : px_cap api <> Z.lor PR_CAP_FE PR_CAP_RS)
    by (vm_compute; discriminate).
  assert (Hfresh : forall q, In q (proxies sample_registry) ->
            px_id q = "web" -> px_cap q = Z.lor PR_CAP_FE PR_CAP_RS).
  { intros q [<-|[]] Hid. vm_compute in Hid. discriminate Hid. }
  assert (Hname : "web" <> EmptyString) by discriminate.
  assert (Hdiff : Z.lor PR_CAP_FE PR_CAP_RS <> Z.lor PR_CAP_BE PR_CAP_RS)
    by (vm_compute; discriminate).
  destruct (Hnew 5%positive Hname eq_refl Hfresh eq_refl) as [Hret _].
  split; [|split].
  - apply (Hclash api (or_introl eq_refl) eq_refl Hcap).
  - exact Hret.
  - apply (Hagain Hdiff Hret m).
Defined.

(** C4 at work: a backend that is the default backend of a frontend is
    kept; the same backend alone is deleted with its two servers. *)
Lemma delbackend_guard_witness :
  refused (delbackend 5 2 sample_guarded) sample_guarded /\
  exists w',
    delbackend 5 2 sample_free = Some (0, w') /\
    proxies w' = [] /\
    trace w' = flat_map delserver_calls (px_srv be2) ++ [free 2%positive].
Proof.
  split.
  - destruct (delbackend_guard 5 2 sample_guarded be2 eq_refl) as [[_ Href] _].
    apply Href. eexists. split; [left; reflexivity|]. left. reflexivity.
  - destruct (delbackend_guard 5 2 sample_free be2 eq_refl) as (_ & _ & Hgo).
    assert (Hnone : ~ exists q, In q (proxies sample_free) /\ refers_to 2 q).
    { intros (q & [<-|[]] & [Hd|(rule & [] & _)]). discriminate Hd. }
    assert (Hnames : NoDup (map sv_id (px_srv be2))).
    { simpl. repeat constructor; simpl; intuition discriminate. }
    assert (Haddrs : NoDup (map px_addr (proxies sample_free))).
    { simpl. repeat constructor; simpl; tauto. }
    assert (Hfuel : (List.length (px_srv be2) < 5)%nat) by (simpl; lia).
    destruct (Hgo Hnone eq_refl Hnames Haddrs Hfuel) as (w' & Hrun & Hl & Ht).
    exists w'. split; [exact Hrun|]. split; [exact Hl|exact Ht].
Defined.

(** C4 as stated fails: a proxy that is its own default backend is
    refused although no other proxy refers to it. *)
Lemma delbackend_self_reference_counterexample :
  refused (delbackend 5 1 sample_loop) sample_loop /\
  ~ (exists q, In q (proxies sample_loop) /\ px_addr q <> 1%positive /\
               refers_to 1 q) /\
  ~ refuses_iff_other_refers 5 1 sample_loop.
Proof.
  assert (Hrefused : refused (delbackend 5 1 sample_loop) sample_loop)
    by (eexists; split; reflexivity).
  assert (Hnone : ~ (exists q, In q (proxies sample_loop) /\
                       px_addr q <> 1%positive /\ refers_to 1 q)).
  { intros (q & [<-|[]] & Hne & _). apply Hne. reflexivity. }
  split; [exact Hrefused|]. split; [exact Hnone|].
  intros [Hiff _]. exact (Hnone (Hiff Hrefused)).
Defined.

(** C5 at work: two calls, the first of which runs out of memory. *)
Lemma session_set_backend_idempotent_witness :
  let r1 := session_set_backend None sample_session api in
  let r2 := session_set_backend (Some 9%positive) (ssb_session r1) (ssb_be r1) in
  ssb_ret r1 = 0 /\ ssb_ret r2 = 1 /\ px_beconn (ssb_be r2) = px_beconn api + 1.
Proof.
  intros r1 r2.
  assert (Hbit : SN_BE_ASSIGNED <> 0) by (vm_compute; discriminate).
  destruct (session_set_backend_idempotent None (Some 9%positive)
              sample_session api Hbit) as [_ Htwice].
  destruct (Htwice eq_refl) as (_ & Hret & _ & _ & _ & Hcount).
  split; [reflexivity|]. split; [exact Hret|exact Hcount].
Defined.

(** C6 at work. *)
Lemma session_set_backend_no_memory_witness :
  let r := session_set_backend None sample_session api in
  ssb_ret r = 0 /\ px_beconn (ssb_be r) = 1 /\
  sn_flags (ssb_session r) = 8 /\ sn_be (ssb_session r) = Some 1%positive.
Proof.
  intros r.
  assert (Hacl : Z.land (px_acl_requires api) ACL_USE_L7_ANY <> 0)
    by (vm_compute; discriminate).
  destruct (session_set_backend_no_memory sample_session api eq_refl eq_refl Hacl)
    as (Hret & _ & _ & _ & Hbe & Hflags & _ & _ & _ & _ & _ & _ & Hcount & _).
  split; [exact Hret|]. split; [exact Hcount|]. split; [exact Hflags|exact Hbe].
Defined.

(** C6 as stated fails: after the failed call the backend counts one
    more session and the session has the SN_BE_ASSIGNED bit. *)
Lemma session_set_backend_failure_counterexample :
  let r := session_set_backend None sample_session api in
  ssb_ret r = 0 /\
  px_beconn api = 0 /\ px_beconn (ssb_be r) = 1 /\
  sn_flags sample_session = 0 /\ sn_flags (ssb_session r) = 8 /\
  ~ fails_without_effect sample_session api.
Proof.
  intros r. repeat (split; [reflexivity|]).
  intros (_ & _ & Hbe). apply (f_equal px_beconn) in Hbe.
  vm_compute in Hbe. discriminate Hbe.
Defined.

(** C7 as stated fails.  With two backends of one name, the server
    being in the second, 0 is returned although a backend of that name
    holds the server.  "#0" is not compared with the numeric id 0 but,
    as a string, with the name.  And the number of a '#' name is read
    into an [int]: "#4294967298" designates the backend of id 2,
    although no backend has the id 4294967298. *)
Lemma get_backend_server_counterexample :
  option_map gbs_ret (get_backend_server sample_twins "a" "s" None (Some None))
    = Some 0 /\
  ~ returns_1_iff_some_match sample_twins "a" "s" /\
  option_map gbs_ret
    (get_backend_server sample_unnumbered "#0" "s" None (Some None)) = Some 0 /\
  ~ returns_1_iff_some_match sample_unnumbered "#0" "s" /\
  option_map gbs_ret
    (get_backend_server sample_free "#4294967298" "s1" None (Some None))
    = Some 1 /\
  decimal_id "#4294967298" = 4294967298 /\
  ~ (exists p, In p (proxies sample_free) /\
               px_uuid p = decimal_id "#4294967298").
Proof.
  split; [reflexivity|]. split; [|split; [reflexivity|split; [|split;
    [reflexivity|split; [reflexivity|]]]]].
  3: { intros (p & [<-|[]] & Hid). vm_compute in Hid. discriminate Hid. }
  - intros Hclaim.
    destruct (Hclaim None None _ eq_refl) as [_ Hone].
    assert (Hret : 0 = 1).
    { apply Hone.
      exists (sample_proxy 2 "a" 2 6 [sample_server 10 "s" 1]),
             (sample_server 10 "s" 1).
      split; [right; left; reflexivity|].
      split; [split; [vm_compute; discriminate|reflexivity]|].
      split; [left; reflexivity|reflexivity]. }
    discriminate Hret.
  - intros Hclaim.
    destruct (Hclaim None None _ eq_refl) as [_ Hone].
    assert (Hret : 0 = 1).
    { apply Hone.
      exists (sample_proxy 1 "x" 0 6 [sample_server 10 "s" 1]),
             (sample_server 10 "s" 1).
      split; [left; reflexivity|].
      split; [split; [vm_compute; discriminate|reflexivity]|].
      split; [left; reflexivity|reflexivity]. }
    discriminate Hret.
Defined.

(** C7 at work: the numbers after '#' are read into an [int], so
    "#4294967298" designates the backend of id 2 and "#4294967297" its
    server of id 1, while "#4294967296" reads as 0. *)
Lemma get_backend_server_first_match_witness :
  option_map gbs_ret
    (get_backend_server sample_free "#4294967298" "#4294967297" None (Some None))
    = Some 1 /\
  name_id "#4294967298" = 2 /\ name_id "#4294967296" = 0.
Proof.
  destruct (get_backend_server_first_match sample_free "#4294967298"
              "#4294967297" None None) as (r & Hrun & _ & Hiff & Hid & _).
  split; [|split].
  - rewrite Hrun. simpl. f_equal. apply Hiff.
    exists be2, (sample_server 10 "s1" 1). split.
    + exists [], []. repeat split; constructor.
    + exists [], [sample_server 11 "s2" 2]. repeat split; constructor.
  - destruct (Hid "#4294967298" eq_refl) as [-> _]. reflexivity.
  - destruct (Hid "#4294967296" eq_refl) as [-> _]. reflexivity.
Defined.

(** C8 at work: "timeout connect 5000" on a backend. *)
Lemma proxy_parse_timeout_result_witness :
  let r := proxy_parse_timeout ["timeout"; "connect"; "5000"] 0 api None in
  pr_ret r = 0 /\ to_connect (px_timeout (pr_proxy r)) = 5000.
Proof.
  intros r.
  destruct (proxy_parse_timeout_result ["timeout"; "connect"; "5000"] 0 api None)
    as (_ & Hknown & _).
  destruct Hknown as (name & f & cap & Hkw & _ & _ & Hstore).
  { simpl. tauto. }
  vm_compute in Hkw. injection Hkw as <- <- <-.
  assert (Hvalue : arg 1 ["connect"; "5000"] <> EmptyString) by discriminate.
  destruct (Hstore 5000 Hvalue eq_refl) as (_ & Hget & _ & _ & Hok).
  split.
  - apply Hok. intros [Hcap|(d & Hd & _)].
    + vm_compute in Hcap. discriminate Hcap.
    + discriminate Hd.
  - exact Hget.
Defined.

(** C9 at work: a third server named "s" joins the two. *)
Lemma addserver_ambiguous_name_witness :
  exists newsrv w1 px',
    addserver sample_mem "api" "s" "10.0.0.1:8080" "c" sample_ambiguous
      = (Some 20%positive, w1) /\
    sv_id newsrv = "s" /\
    findproxy "api" PR_CAP_BE w1 = Some px' /\
    px_srv px' = [newsrv; sample_server 10 "s" 1; sample_server 11 "s" 2] /\
    List.length (named "s" (px_srv px')) = 3%nat.
Proof.
  assert (Hpx : findproxy "api" PR_CAP_BE sample_ambiguous = Some twice)
    by reflexivity.
  destruct (addserver_ambiguous_name sample_mem "api" "s" "10.0.0.1:8080" "c"
              sample_ambiguous twice Hpx) as [_ Htwo].
  assert (Hlen : (2 <= List.length (named "s" (px_srv twice)))%nat)
    by (simpl; lia).
  destruct (Htwo Hlen) as [_ Hgo].
  destruct (Hgo 20%positive 21%positive 22%positive
              {| sin_addr := 167772161; sin_port := 36895 |}
              eq_refl eq_refl eq_refl eq_refl)
    as (newsrv & w1 & px' & Hrun & _ & Hid & Hfind & _ & Hsrv & Hone & _).
  exists newsrv, w1, px'. split; [exact Hrun|]. split; [exact Hid|].
  split; [exact Hfind|]. split; [exact Hsrv|exact Hone].
Defined.

(** C10 at work: the backend is found, the server is not. *)
Lemma get_backend_server_out_params_witness :
  exists r,
    get_backend_server sample_registry "api" "s9" (Some None) (Some (Some 77%positive))
      = Some r /\
    gbs_ret r = 0 /\ gbs_sv r = Some None /\ gbs_bk r = Some (Some 1%positive).
Proof.
  destruct (get_backend_server_out_params sample_registry "api" "s9" (Some None))
    as [_ Hout].
  destruct (Hout (Some 77%positive)) as (r & Hrun & _ & _ & Hfound & _).
  assert (Hbk : first_backend sample_registry "api" api).
  { exists [], []. repeat split; constructor. }
  assert (Hsv : no_server api "s9") by constructor.
  destruct (Hfound api Hbk Hsv) as (Hret & Hnull & Hset).
  exists r. split; [exact Hrun|]. split; [exact Hret|]. split; [exact Hnull|].
  apply Hset. discriminate.
Defined.

(** ** The further properties at work *)

Lemma one_flag_2 : one_flag 2.
Proof.
  split; [discriminate|]. intros x.
  destruct (Z.testbit x 1) eqn:B; [right|left]; apply Z.bits_inj'; intros n Hn;
    rewrite Z.land_spec; change 2 with (2 ^ 1); rewrite !Z.pow2_bits_eqb by lia;
    destruct (Z.eqb_spec 1 n) as [<-|_];
    rewrite ?B, ?andb_false_r, ?Z.bits_0; reflexivity.
Qed.

(** X2 at work: the check buffer cannot be allocated, the server struct
    is given back. *)
Lemma addserver_failure_releases_witness :
  let m := {| mem_server := Some 20%positive; mem_check_data := None;
              mem_task := None |} in
  let r := addserver m "api" "s1" "10.0.0.1:8080" "c1" sample_registry in
  fst r = None /\ proxies (snd r) = [api] /\ In (free 20%positive) (trace (snd r)).
Proof.
  intros m r.
  assert (Hnull : fst (addserver m "api" "s1" "10.0.0.1:8080" "c1"
                         sample_registry) = None) by reflexivity.
  destruct (addserver_failure_releases m "api" "s1" "10.0.0.1:8080" "c1"
              sample_registry Hnull)
    as (calls & Ht & Hp & _ & Hfree & _).
  split; [reflexivity|]. split; [exact Hp|].
  unfold r. rewrite Ht. apply in_or_app. right.
  apply (Hfree api 20%positive eq_refl eq_refl eq_refl).
Defined.

(** X3 at work. *)
Lemma addserver_then_findserver_witness :
  exists newsrv w1,
    addserver sample_mem "api" "s1" "10.0.0.1:8080" "c1" sample_registry
      = (Some 20%positive, w1) /\
    findproxy "api" PR_CAP_BE w1 = Some (set_px_srv [newsrv] api) /\
    findserver (Some (set_px_srv [newsrv] api)) "s1" = (Some newsrv, []).
Proof.
  assert (Hready : addserver_ready sample_mem "api" "s1" "10.0.0.1:8080"
                     sample_registry api 20 21 22
                     {| sin_addr := 167772161; sin_port := 36895 |})
    by (repeat split; reflexivity).
  destruct (addserver_then_findserver sample_mem "api" "s1" "10.0.0.1:8080"
              "c1" sample_registry api 20 21 22 _ Hready eq_refl)
    as (newsrv & w1 & Hrun & _ & _ & Hpx & Hsv & _).
  exists newsrv, w1. split; [exact Hrun|]. split; [exact Hpx|exact Hsv].
Defined.

(** X4 at work. *)
Lemma addserver_then_get_backend_server_witness :
  exists r,
    get_backend_server
      (snd (addserver sample_mem "api" "s1" "10.0.0.1:8080" "c1"
              sample_registry))
      "api" "s1" (Some None) (Some None) = Some r /\
    gbs_ret r = 1 /\ gbs_sv r = Some (Some 20%positive) /\
    gbs_bk r = Some (Some 1%positive).
Proof.
  assert (Hready : addserver_ready sample_mem "api" "s1" "10.0.0.1:8080"
                     sample_registry api 20 21 22
                     {| sin_addr := 167772161; sin_port := 36895 |})
    by (repeat split; reflexivity).
  assert (Hflag : one_flag PR_CAP_BE) by exact one_flag_2.
  destruct (addserver_then_get_backend_server sample_mem "api" "s1"
              "10.0.0.1:8080" "c1" sample_registry api 20 21 22 _
              Hflag eq_refl eq_refl Hready (Some None) None)
    as (r & Hrun & Hret & Hsv & Hbk).
  exists r. split; [exact Hrun|]. split; [exact Hret|]. split; [exact Hsv|].
  apply Hbk. discriminate.
Defined.

(** X5 at work. *)
Lemma addserver_then_delserver_witness :
  let w1 := snd (addserver sample_mem "api" "s1" "10.0.0.1:8080" "c1"
                   sample_registry) in
  fst (delserver "api" "s1" w1) = 0 /\
  proxies (snd (delserver "api" "s1" w1)) = [api].
Proof.
  intros w1.
  assert (Hready : addserver_ready sample_mem "api" "s1" "10.0.0.1:8080"
                     sample_registry api 20 21 22
                     {| sin_addr := 167772161; sin_port := 36895 |})
    by (repeat split; reflexivity).
  destruct (addserver_then_delserver sample_mem "api" "s1" "10.0.0.1:8080"
              "c1" sample_registry api 20 21 22 _ Hready eq_refl)
    as (newsrv & Hret & Hp & _).
  split; [exact Hret|exact Hp].
Defined.


(** X7 at work: the second of two backends of one name holds a server. *)
Lemma delbackend_never_returns_witness :
  delbackend 1000 2 sample_twins = None.
Proof.
  assert (Hnone : ~ exists q, In q (proxies sample_twins) /\ refers_to 2 q).
  { intros (q & [<-|[<-|[]]] & [Hd|(rule & [] & _)]); discriminate Hd. }
  apply (delbackend_never_returns 2 sample_twins
           (sample_proxy 2 "a" 2 6 [sample_server 10 "s" 1])
           (sample_server 10 "s" 1) [] eq_refl Hnone eq_refl).
  left. reflexivity.
Defined.

(** X8 at work: a backend is created at address 5 and deleted again. *)
Lemma delbackend_leaves_id_node_witness :
  let m := {| mem_proxy := Some 5%positive;
              mem_hdr_idx_pool := Some 6%positive |} in
  exists w',
    delbackend 5 5 (snd (addbackend m "web" sample_registry)) = Some (0, w') /\
    In (free 5%positive) (trace w') /\
    In {| node_of := 5%positive; node_key := 2 |} (used_proxy_id w').
Proof.
  intros m.
  assert (Hadd : addbackend m "web" sample_registry =
                   (0, snd (addbackend m "web" sample_registry)))
    by reflexivity.
  assert (Hrun : exists w',
            delbackend 5 5 (snd (addbackend m "web" sample_registry))
              = Some (0, w'))
    by (eexists; reflexivity).
  destruct Hrun as [w' Hrun]. exists w'. split; [exact Hrun|].
  destruct (delbackend_leaves_id_node 5 5 _ w' Hrun) as (Hfree & _ & Hnode).
  split; [exact Hfree|].
  apply (Hnode m "web" sample_registry Hadd eq_refl).
Defined.

(** X9 at work. *)
Lemma addbackend_then_findproxy_witness :
  let m := {| mem_proxy := Some 5%positive;
              mem_hdr_idx_pool := Some 6%positive |} in
  exists p,
    findproxy "web" PR_CAP_BE (snd (addbackend m "web" sample_registry))
      = Some p /\
    px_id p = "web" /\ px_addr p = 5%positive.
Proof.
  intros m.
  assert (Hcap : Z.land (Z.lor PR_CAP_FE PR_CAP_RS) PR_CAP_BE <> PR_CAP_BE)
    by (vm_compute; discriminate).
  assert (Hrun : addbackend m "web" sample_registry =
                   (0, snd (addbackend m "web" sample_registry)))
    by reflexivity.
  destruct (addbackend_then_findproxy m "web" sample_registry
              (snd (addbackend m "web" sample_registry)) Hcap Hrun)
    as (p & Hl & Hfind & Hid & _).
  exists p. split; [exact Hfind|]. split; [exact Hid|].
  assert (Ha : option_map px_addr
                 (hd_error (proxies (snd (addbackend m "web" sample_registry))))
               = Some 5%positive) by reflexivity.
  rewrite Hl in Ha. simpl in Ha. injection Ha as Ha. exact Ha.
Defined.

(** X15 at work: no grace is left to the three frontends. *)
Lemma maintain_proxies_drains_witness :
  Forall (fun p' => px_state p' = PR_STSTOPPED \/
                    tick_remain 5000 (px_stop_time p') <> 0)
         (proxies (snd (maintain_proxies 0 (set_stopping 1 sample_gate)))).
Proof.
  apply (maintain_proxies_drains 0 (set_stopping 1 sample_gate)).
  simpl. discriminate.
Defined.

#[local] Existing Instance sample_sys.

(** X16 at work: "rate-limit sessions 100" on a frontend. *)
Lemma proxy_parse_rate_limit_result_witness :
  let r := proxy_parse_rate_limit ["rate-limit"; "sessions"; "100"] 0
             fe_bare None in
  pr_ret r = 0 /\ px_fe_sps_lim (pr_proxy r) = 100.
Proof.
  intros r.
  destruct (proxy_parse_rate_limit_result ["rate-limit"; "sessions"; "100"] 0
              fe_bare None) as [_ Hs].
  destruct (Hs eq_refl) as (_ & _ & Hok).
  assert (Hvalue : arg 1 ["sessions"; "100"] <> EmptyString) by discriminate.
  destruct (Hok 100 Hvalue eq_refl) as (_ & Hv & _ & _ & H0).
  split; [|exact Hv].
  apply H0. intros [Hcap|(q & Hq & _)].
  - vm_compute in Hcap. discriminate Hcap.
  - discriminate Hq.
Defined.

(** X18 at work: the entry is inserted, and the backend can still be
    deleted. *)
Lemma add_switch_entry_outcome_witness :
  let r := add_switch_entry "fe" "be" "example.org" sample_switch in
  fst (fst r) = 0 /\
  snd r = Some (1%positive, "example.org", 2%positive) /\
  ~ refused (delbackend 5 2 (snd (fst r))) (snd (fst r)).
Proof.
  intros r.
  destruct (add_switch_entry_outcome "fe" "be" "example.org" sample_switch)
    as (Hiff & Hins & _ & _ & Hguard).
  split; [|split].
  - apply Hiff. eexists. eexists. split; reflexivity.
  - apply (Hins _ _ eq_refl eq_refl).
  - intros Hr. apply Hguard in Hr. destruct Hr as (w' & Hrun & _).
    vm_compute in Hrun. discriminate Hrun.
Defined.

(** X21 at work: the two listeners of the NEW frontend are bound. *)
Lemma start_proxies_all_started_witness :
  let w1 := snd (start_proxies 0 (sample_world [fe_new; fe_bare])) in
  map px_state (proxies w1) = [PR_STIDLE; PR_STRUN] /\
  map px_listen (proxies w1) =
    [[{| li_fd := 7; li_state := 3 |}; {| li_fd := 8; li_state := 3 |}]; []].
Proof.
  intros w1.
  assert (Hclean : Forall (fun p => px_state p = PR_STNEW -> starts_cleanly p)
                     (proxies (sample_world [fe_new; fe_bare]))).
  { repeat constructor. }
  assert (Hnone : Z.land ERR_NONE ERR_ABORT = 0) by reflexivity.
  destruct (start_proxies_all_started 0 (sample_world [fe_new; fe_bare])
              Hnone Hclean) as (Hall & _).
  change (proxies (sample_world [fe_new; fe_bare])) with [fe_new; fe_bare]
    in Hall.
  apply Forall2_cons_inv in Hall.
  destruct Hall as (a & la & Ea & (_ & Ha & _) & Hall).
  apply Forall2_cons_inv in Hall.
  destruct Hall as (b & lb & Eb & (_ & _ & Hb) & Hall).
  apply Forall2_nil_inv in Hall. subst la lb.
  destruct (Ha eq_refl) as [Sa La].
  assert (Hrun : px_state fe_bare <> PR_STNEW) by discriminate.
  specialize (Hb Hrun). subst b.
  unfold w1. rewrite Ea. simpl. rewrite Sa, La. split; reflexivity.
Defined.

(** X22 at work: the three frontends have no grace. *)
Lemma soft_stop_then_maintain_proxies_witness :
  Forall (fun p => px_state p = PR_STSTOPPED)
    (proxies (snd (maintain_proxies 0
                     (set_date much_later (soft_stop later sample_gate))))).
Proof.
  apply (soft_stop_then_maintain_proxies later much_later 0 sample_gate).
  repeat constructor.
Defined.

(** X23 at work: one frontend pauses, the other has a listener that
    refuses. *)
Lemma pause_proxy_outcome_witness :
  px_state (fst (pause_proxy fe_full)) = PR_STPAUSED /\
  snd (pause_proxy fe_full) = [7; 8] /\
  px_state (fst (pause_proxy fe_stuck)) = PR_STERROR /\
  snd (pause_proxy fe_stuck) = [7].
Proof.
  destruct (pause_proxy_outcome fe_full) as (_ & Hfds & _ & _ & Hp).
  destruct (pause_proxy_outcome fe_stuck) as (_ & Hfds' & _ & He & _).
  assert (Hpauses : pauses fe_full).
  { split; [discriminate|]. repeat constructor. }
  destruct (Hp Hpauses) as [_ Hok].
  split; [apply Hok; discriminate|]. split; [exact Hfds|].
  split; [|exact Hfds'].
  apply He. right. left. reflexivity.
Defined.

(** X24 at work. *)
Lemma pause_proxies_all_paused_witness :
  map px_state (proxies (fst (pause_proxies later much_later sample_gate))) =
    [PR_STPAUSED; PR_STPAUSED; PR_STPAUSED] /\
  stopping (fst (pause_proxies later much_later sample_gate)) = 0.
Proof.
  assert (Hall : Forall (fun p => to_pause p = true -> pauses p)
                   (proxies sample_gate)).
  { repeat constructor; discriminate. }
  destruct (pause_proxies_all_paused later much_later sample_gate Hall)
    as (Hl & Hs & _).
  rewrite Hl, Hs. split; reflexivity.
Defined.

(** X25 at work: a frontend without listeners cannot be paused. *)
Lemma pause_proxies_refusal_stops_witness :
  stopping (fst (pause_proxies later much_later (sample_world [fe_bare]))) = 1.
Proof.
  apply (pause_proxies_refusal_stops later much_later (sample_world [fe_bare])).
  left. split; [reflexivity|]. intros [Hn _]. apply Hn. reflexivity.
Defined.
